(** * Probe specificity pipeline: scoring, batching, coverage and region mapping

    A shallow embedding of [scripts/probe_scoring.py], [scripts/probe_mapping.py]
    and [scripts/coverage_analysis.py], with the loaders and writers of
    [scripts/utils.py], the step list of [scripts/main.py] and the file
    detection of [config_class.py] and [scripts/config.py]; the properties of
    the pipeline's specification settled against it, and further properties
    of the code (X1, X2, ...).

    Modelling conventions.
    - Python [str] is [string], a character being a code point below 256
      (identifiers and BLAST columns are ASCII text).  There [\d] is [0-9],
      and [str.strip] removes the code points 9-13, 28-32, 133 and 160.
    - Python dictionaries that are only looked up are [gmap string _];
      dictionaries that are iterated are association lists in insertion
      order; Python sets are [gset string].
    - Python [float] arithmetic is reached through the class [PyNum].  Its
      IEEE binary64 instance, on the kernel's primitive floats, is the
      arithmetic of the code: what depends on rounding, overflow or nan is
      proved on it.  An exact rational instance serves sample runs of
      properties that hold for every arithmetic.
    - Exceptions are explicit: a computation returns [exn + A], and state
      changes made before an exception is raised persist.
    - A file is the text read from it, [None] when reading it raises; a
      directory is the list of names that [os.listdir] gives.
    - [str.upper], [str.lower], [os.path.join] and [str] of a [float] are
      parameters of the definitions that call them: what is proved holds
      for any of them. *)

From Stdlib Require Import ZArith QArith Ascii String.
From Stdlib Require PrimFloat SpecFloat FloatOps FloatAxioms.
From stdpp Require Import gmap strings list fin_maps sorting pretty.

Set Default Proof Using "Type".
Set Warnings "-clear-no-such-hyp".
Local Open Scope nat_scope.
Local Open Scope stdpp_scope.

(** * Part I: the program *)

(** ** Strings *)

Module Str.

(** [s.startswith(key)] *)
Definition startswith (s key : string) : bool := String.prefix key s.

(** Whitespace removed by [str.strip()]: [str.isspace] on the code points
    below 256. *)
Definition is_space (c : ascii) : bool :=
  let n := nat_of_ascii c in
  ((9 <=? n) && (n <=? 13)) || ((28 <=? n) && (n <=? 32))
  || (n =? 133) || (n =? 160).

Fixpoint lstrip (s : string) : string :=
  match s with
  | String c s' => if is_space c then lstrip s' else s
  | EmptyString => EmptyString
  end.

Definition rstrip (s : string) : string := String.rev (lstrip (String.rev s)).

(** [s.strip()] *)
Definition strip (s : string) : string := rstrip (lstrip s).

(** [s.split(sep)] for a one-character separator: the fields between the
    separators, empty fields kept, so that a string with [n] separators has
    [n + 1] fields. *)
Fixpoint split_go (sep : ascii) (cur : string) (s : string) : list string :=
  match s with
  | EmptyString => [String.rev cur]
  | String c s' =>
      if Ascii.eqb c sep then String.rev cur :: split_go sep EmptyString s'
      else split_go sep (String c cur) s'
  end.

Definition split (sep : ascii) (s : string) : list string :=
  split_go sep EmptyString s.

(** [sep.join(l)] *)
Definition join (sep : string) (l : list string) : string := String.concat sep l.

(** [sorted(l)] on strings: the ascending order of code points. *)
Definition sorted (l : list string) : list string := merge_sort String.le l.

Definition tab : ascii := ascii_of_nat 9.

(** The line feed, ['\n']. *)
Definition newline : ascii := ascii_of_nat 10.

(** [s[1:]] *)
Definition tail (s : string) : string :=
  match s with
  | String _ s' => s'
  | EmptyString => EmptyString
  end.

(** [c in s] for a one-character [c] *)
Fixpoint has_char (c : ascii) (s : string) : bool :=
  match s with
  | String c' s' => Ascii.eqb c' c || has_char c s'
  | EmptyString => false
  end.

(** [s.split()]: the maximal runs of characters that are not whitespace. *)
Fixpoint split_ws_go (cur : string) (s : string) : list string :=
  match s with
  | EmptyString => if decide (cur = "") then [] else [String.rev cur]
  | String c s' =>
      if is_space c then
        if decide (cur = "") then split_ws_go EmptyString s'
        else String.rev cur :: split_ws_go EmptyString s'
      else split_ws_go (String c cur) s'
  end.

Definition split_ws (s : string) : list string := split_ws_go EmptyString s.

(** [s.endswith(suffix)] *)
Definition endswith (s suffix : string) : bool :=
  let n := String.length s in
  let m := String.length suffix in
  (m <=? n) && bool_decide (String.substring (n - m) m s = suffix).

(** [sub in s] *)
Fixpoint contains (sub s : string) : bool :=
  String.prefix sub s
  || match s with
     | String _ s' => contains sub s'
     | EmptyString => false
     end.

(** [s[i:-j]] for [i >= 0] and [j > 0] *)
Definition slice_inner (i j : nat) (s : string) : string :=
  String.substring i (String.length s - j - i) s.

(** [str(n)] for a natural number *)
Definition of_nat (n : nat) : string := pretty n.

End Str.

(** ** Region Mapper ([scripts/probe_mapping.py]) *)

Module Mapper.

(** *** The pattern [^([^_]+_[^_]+-\d+)_]

    A backtracking matcher in continuation style: each combinator consumes
    a prefix of the subject and hands the rest to its continuation; a
    greedy repetition tries the longest run first and gives characters
    back one at a time when the continuation fails. *)

Definition not_underscore (c : ascii) : bool := negb (Ascii.eqb c "_"%char).

Definition is_digit (c : ascii) : bool :=
  let n := nat_of_ascii c in (48 <=? n) && (n <=? 57).

Fixpoint re_star {A} (p : ascii → bool) (s : string)
    (k : string → option A) : option A :=
  match s with
  | String c s' =>
      if p c then
        match re_star p s' k with
        | Some r => Some r
        | None => k s
        end
      else k s
  | EmptyString => k s
  end.

(** [[p]+] *)
Definition re_plus {A} (p : ascii → bool) (s : string)
    (k : string → option A) : option A :=
  match s with
  | String c s' => if p c then re_star p s' k else None
  | EmptyString => None
  end.

(** a literal character *)
Definition re_char {A} (c : ascii) (s : string)
    (k : string → option A) : option A :=
  match s with
  | String c' s' => if Ascii.eqb c' c then k s' else None
  | EmptyString => None
  end.

(** The subject left after group 1, when the pattern matches. *)
Definition pav_pattern (probe_id : string) : option string :=
  re_plus not_underscore probe_id (λ s1,
  re_char "_"%char s1 (λ s2,
  re_plus not_underscore s2 (λ s3,
  re_char "-"%char s3 (λ s4,
  re_plus is_digit s4 (λ s5,
  re_char "_"%char s5 (λ _, Some s5)))))).

(** [re.match(r'^([^_]+_[^_]+-\d+)_', probe_id)], then [match.group(1)]. *)
Definition re_match_group1 (probe_id : string) : option string :=
  match pav_pattern probe_id with
  | Some rest =>
      Some (String.substring 0 (String.length probe_id - String.length rest) probe_id)
  | None => None
  end.

(** *** The mapping loop *)

(** [self.mapping_results] (a [defaultdict(list)]) and the local list
    [unmapped_probes]. *)
Record state := State {
  mapping_results : gmap string (list string);
  unmapped_probes : list string
}.

(** [d[k].append(v)] on a [defaultdict(list)] *)
Definition dict_append (d : gmap string (list string)) (k v : string)
    : gmap string (list string) :=
  <[k := default [] (d !! k) ++ [v]]> d.

(** The first key, in the dictionary's order, that the probe id starts with
    (the [for key in self.pav_sequences.keys()] loop with its [break]). *)
Definition first_prefix_key (keys : list string) (probe_id : string)
    : option string :=
  List.find (λ key, Str.startswith probe_id key) keys.

(** One iteration of [for probe_id in self.high_quality_probes.keys()]. *)
Definition map_probe (pav_keys : list string) (st : state) (probe_id : string)
    : state :=
  match re_match_group1 probe_id with
  | Some pav_id =>
      State (dict_append (mapping_results st) pav_id probe_id) (unmapped_probes st)
  | None =>
      match first_prefix_key pav_keys probe_id with
      | Some pav_id =>
          State (dict_append (mapping_results st) pav_id probe_id) (unmapped_probes st)
      | None => State (mapping_results st) (unmapped_probes st ++ [probe_id])
      end
  end.

Definition initial : state := State ∅ [].

(** The loop of lines 55-76 over the probe ids in dictionary order. *)
Definition map_loop (probe_ids pav_keys : list string) : state :=
  fold_left (map_probe pav_keys) probe_ids initial.

(** [map_probes_to_pav]: the two dictionaries are association lists in
    insertion order.  After the loop the method prints the share of mapped
    probes, [mapped_probes/total_probes*100], which raises
    [ZeroDivisionError] when there is no probe at all: [None]. *)
Definition map_probes_to_pav (high_quality_probes pav_sequences : list (string * string))
    : option state :=
  let st := map_loop high_quality_probes.*1 pav_sequences.*1 in
  if decide (length high_quality_probes = 0) then None else Some st.

(** The region a probe is filed under, and membership in the grouping. *)
Definition grouped_under (st : state) (pav_id probe_id : string) : Prop :=
  ∃ l, mapping_results st !! pav_id = Some l ∧ probe_id ∈ l.

Definition in_grouping (st : state) (probe_id : string) : Prop :=
  ∃ pav_id, grouped_under st pav_id probe_id.

End Mapper.

(** ** Python numbers *)

(** The exceptions the modelled code can raise. *)
Inductive exn := ValueError | IndexError | ZeroDivisionError | OverflowError | KeyError.

Global Instance exn_eq_dec : EqDecision exn.
Proof. solve_decision. Defined.

(** The operations on [float] (and the two conversions from text) that the
    pipeline uses.  [None] stands for the one exception the operation can
    raise, named next to it. *)
Class PyNum := {
  pyfloat : Type;
  (** an integral literal, such as [100.0] *)
  fconst : Z → pyfloat;
  (** an [int] operand of a float operation; [OverflowError] *)
  of_int : Z → option pyfloat;
  (** [a / b] on two [int]s; [ZeroDivisionError] or [OverflowError] *)
  truediv_int : Z → Z → exn + pyfloat;
  fadd : pyfloat → pyfloat → pyfloat;
  fmul : pyfloat → pyfloat → pyfloat;
  (** [x / y]; [ZeroDivisionError] *)
  fdiv : pyfloat → pyfloat → option pyfloat;
  (** [x == y], [x < y], [x <= y] *)
  feqb : pyfloat → pyfloat → bool;
  fltb : pyfloat → pyfloat → bool;
  fleb : pyfloat → pyfloat → bool;
  (** [round(x, ndigits)] *)
  fround : pyfloat → nat → pyfloat;
  (** [float(s)]; [ValueError] *)
  float_of_str : string → option pyfloat;
  (** [int(s)]; [ValueError] *)
  int_of_str : string → option Z
}.

(** [min(x, y)]: the first argument unless the second is smaller. *)
Definition py_min `{PyNum} (x y : pyfloat) : pyfloat := if fltb y x then y else x.

(** The nearest integer to [n / d] for [d > 0], ties to the even one. *)
Definition div_half_even (n d : Z) : Z :=
  let q := (n / d)%Z in
  match (2 * (n mod d) ?= d)%Z with
  | Lt => q
  | Gt => (q + 1)%Z
  | Eq => if Z.even q then q else (q + 1)%Z
  end.

(** *** IEEE binary64, on the kernel's floats *)

Module Binary64.
Import SpecFloat.

Definition t := PrimFloat.float.

Definition of_spec (x : spec_float) : t := FloatOps.SF2Prim x.

(** The double nearest to the integer [z] (ties to even). *)
Definition of_Z (z : Z) : t :=
  of_spec (binary_normalize FloatOps.prec FloatOps.emax z 0 false).

Definition is_finite (x : t) : bool :=
  match FloatOps.Prim2SF x with
  | S754_zero _ | S754_finite _ _ _ => true
  | _ => false
  end.

Definition int_to_float (z : Z) : option t :=
  let x := of_Z z in if is_finite x then Some x else None.

(** An integer as an unrounded significand with exponent 0. *)
Definition exact_int (a : Z) : spec_float :=
  match a with
  | Z0 => S754_zero false
  | Zpos m => S754_finite false m 0
  | Zneg m => S754_finite true m 0
  end.

(** The double nearest to [a / b], for integers of any size. *)
Definition quot (a b : Z) : t :=
  of_spec (SFdiv FloatOps.prec FloatOps.emax (exact_int a) (exact_int b)).

Definition int_truediv (a b : Z) : exn + t :=
  if (b =? 0)%Z then inl ZeroDivisionError
  else let x := quot a b in if is_finite x then inr x else inl OverflowError.

Definition div (x y : t) : option t :=
  if PrimFloat.eqb y PrimFloat.zero then None else Some (PrimFloat.div x y).

(** [round(x, ndigits)]: the exact value of [x] is rounded to [ndigits]
    decimals, ties to even, and the decimal is converted back to the
    nearest double; zeros, infinities and nan are returned unchanged. *)
Definition round (x : t) (ndigits : nat) : t :=
  match FloatOps.Prim2SF x with
  | S754_finite s m e =>
      let p := (10 ^ Z.of_nat ndigits)%Z in
      let n := if (0 <=? e)%Z then (Zpos m * 2 ^ e * p)%Z
               else div_half_even (Zpos m * p) (2 ^ (- e)) in
      if (n =? 0)%Z then of_spec (S754_zero s)
      else quot (if s then - n else n)%Z p
  | _ => x
  end.

Definition num (float_of_str : string → option t) (int_of_str : string → option Z)
    : PyNum := {|
  pyfloat := t;
  fconst := of_Z;
  of_int := int_to_float;
  truediv_int := int_truediv;
  fadd := PrimFloat.add;
  fmul := PrimFloat.mul;
  fdiv := div;
  feqb := PrimFloat.eqb;
  fltb := PrimFloat.ltb;
  fleb := PrimFloat.leb;
  fround := round;
  float_of_str := float_of_str;
  int_of_str := int_of_str
|}.

End Binary64.

(** *** Exact rationals *)

Module Exact.

Definition div (x y : Q) : option Q :=
  if Qeq_bool y 0 then None else Some (x / y)%Q.

Definition int_truediv (a b : Z) : exn + Q :=
  if (b =? 0)%Z then inl ZeroDivisionError else inr (inject_Z a / inject_Z b)%Q.

(** [round(x, ndigits)], ties to even, in lowest terms. *)
Definition round (x : Q) (ndigits : nat) : Q :=
  let p := (10 ^ Z.of_nat ndigits)%Z in
  Qred (Qmake (div_half_even (Qnum x * p) (Zpos (Qden x))) (Z.to_pos p)).

Definition num (float_of_str : string → option Q) (int_of_str : string → option Z)
    : PyNum := {|
  pyfloat := Q;
  fconst := inject_Z;
  of_int := λ z, Some (inject_Z z);
  truediv_int := int_truediv;
  fadd := Qplus;
  fmul := Qmult;
  fdiv := div;
  feqb := Qeq_bool;
  fltb := λ x y, negb (Qle_bool y x);
  fleb := Qle_bool;
  fround := round;
  float_of_str := float_of_str;
  int_of_str := int_of_str
|}.

End Exact.

(** *** Plain decimal numerals

    [float()] and [int()] on the numerals of BLAST tabular output: an optional
    sign, digits, and for [float()] an optional fraction.  (Python accepts
    further spellings: surrounding blanks, exponents, underscores, [inf],
    [nan].  The general results below hold for every [float_of_str] and
    [int_of_str]; these two are used to run the code on examples.) *)

Module Decimal.

Fixpoint digits (s : string) (acc : Z) : option Z :=
  match s with
  | EmptyString => Some acc
  | String c s' =>
      match Ascii.is_nat c with
      | Some d => digits s' (10 * acc + Z.of_nat d)%Z
      | None => None
      end
  end.

Definition sign (s : string) : bool * string :=
  match s with
  | String "-"%char s' => (true, s')
  | String "+"%char s' => (false, s')
  | _ => (false, s)
  end.

Definition signed (neg : bool) (n : Z) : Z := if neg then (- n)%Z else n.

Definition int_of_str (s : string) : option Z :=
  let '(neg, body) := sign s in
  if decide (body = "") then None
  else n ← digits body 0; Some (signed neg n).

(** sign, all the digits as one integer, number of digits of the fraction *)
Definition numeral (s : string) : option (bool * Z * nat) :=
  let '(neg, body) := sign s in
  match Str.split "."%char body with
  | [i] => if decide (i = "") then None
           else n ← digits i 0; Some (neg, n, 0)
  | [i; f] => if decide (i = "" ∧ f = "") then None
              else n ← digits (i +:+ f) 0; Some (neg, n, String.length f)
  | _ => None
  end.

Definition float64_of_str (s : string) : option Binary64.t :=
  '(neg, n, k) ← numeral s;
  Some (if (n =? 0)%Z then Binary64.of_spec (SpecFloat.S754_zero neg)
        else Binary64.quot (signed neg n) (10 ^ Z.of_nat k)%Z).

Definition Q_of_str (s : string) : option Q :=
  '(neg, n, k) ← numeral s;
  Some (Qmake (signed neg n) (Z.to_pos (10 ^ Z.of_nat k))).

End Decimal.

(** The two arithmetics with the decimal numerals. *)
Definition binary64 : PyNum := Binary64.num Decimal.float64_of_str Decimal.int_of_str.
Definition exactQ : PyNum := Exact.num Decimal.Q_of_str Decimal.int_of_str.

(** ** Computations with state and exceptions *)

Module Py.

(** A computation on the mutable locals [S]: the locals afterwards, and the
    value or the exception raised.  What was changed before a [raise]
    stays changed. *)
Definition M (S A : Type) : Type := S → S * (exn + A).

Global Instance M_ret {S} : MRet (M S) := λ A a s, (s, inr a).
Global Instance M_bind {S} : MBind (M S) := λ A B f m s,
  match m s with
  | (s', inr a) => f a s'
  | (s', inl e) => (s', inl e)
  end.

Definition raise {S A} (e : exn) : M S A := λ s, (s, inl e).
Definition get {S} : M S S := λ s, (s, inr s).
Definition modify {S} (f : S → S) : M S unit := λ s, (f s, inr tt).

(** an operation that raises [e] when it has no result *)
Definition lift {S A} (e : exn) (o : option A) : M S A :=
  match o with Some a => mret a | None => raise e end.

(** [l[i]] *)
Definition index {S A} (l : list A) (i : nat) : M S A := lift IndexError (l !! i).

(** [try: m except (caught): handler] *)
Definition try_except {S A} (m : M S A) (caught : exn → bool) (handler : M S A)
    : M S A := λ s,
  match m s with
  | (s', inl e) => if caught e then handler s' else (s', inl e)
  | r => r
  end.

(** [for x in l: body], where [continue] ends the body *)
Fixpoint for_each {S A} (body : A → M S unit) (l : list A) : M S unit :=
  match l with
  | [] => mret tt
  | x :: l' => body x;; for_each body l'
  end.

End Py.

Module Dict.

Section Items.
Context {V : Type}.
Implicit Types (d : list (string * V)).

(** [d.get(k)] *)
Fixpoint get (k : string) d : option V :=
  match d with
  | [] => None
  | (k', v) :: d' => if decide (k' = k) then Some v else get k d'
  end.

(** [d[k] = v]: a key that is present keeps its place. *)
Fixpoint set (k : string) (v : V) d : list (string * V) :=
  match d with
  | [] => [(k, v)]
  | (k', v') :: d' => if decide (k' = k) then (k, v) :: d' else (k', v') :: set k v d'
  end.

End Items.

(** [d[k].extend(l)] where a missing key starts from the empty list: a
    [defaultdict(list)], or a dictionary after
    [if k not in d: d[k] = []]. *)
Definition extend {A} (k : string) (l : list A) (d : list (string * list A))
    : list (string * list A) :=
  set k (default [] (get k d) ++ l) d.

End Dict.

Module Utils.

(** A loop whose body can raise: the first exception ends it. *)
Fixpoint fold_exn {S A} (body : S → A → exn + S) (l : list A) (s : S) : exn + S :=
  match l with
  | [] => inr s
  | x :: l' =>
      match body s x with
      | inl e => inl e
      | inr s' => fold_exn body l' s'
      end
  end.

(** *** [read_blast_output] *)

(** One turn of [for line in content.strip().split('\n')] (lines 158-174). *)
Definition read_line (blast_results : list (string * list string)) (line : string)
    : exn + list (string * list string) :=
  if bool_decide (line = "") || Str.startswith line "#" then inr blast_results else
  let parts := Str.split Str.tab (Str.strip line) in
  if length parts <? 12 then inr blast_results else
  match parts !! 0 with
  | None => inl IndexError
  | Some probe_id => inr (Dict.extend probe_id [line] blast_results)
  end.

(** [content] is the text that [read_file_with_detect_encoding] returns, [None]
    when it raises; every exception ends in [except Exception: return {}]. *)
Definition read_blast_output (content : option string) : list (string * list string) :=
  match content with
  | None => []
  | Some content =>
      match fold_exn read_line (Str.split Str.newline (Str.strip content)) [] with
      | inr blast_results => blast_results
      | inl _ => []
      end
  end.

(** *** [parse_fasta_manually] *)

Record fasta_state := FastaState {
  sequences : list (string * string);
  current_id : option string;
  current_seq : list string
}.

Section Fasta.
(** [str.upper] *)
Variable upper : string → string.

(** The dictionary after [if current_id: sequences[current_id] =
    ''.join(current_seq).upper()]; [None] and the empty string are false. *)
Definition saved (st : fasta_state) : list (string * string) :=
  match current_id st with
  | Some id =>
      if decide (id = "") then sequences st
      else Dict.set id (upper (Str.join "" (current_seq st))) (sequences st)
  | None => sequences st
  end.

Definition truthy (id : option string) : bool :=
  match id with
  | Some id => negb (bool_decide (id = ""))
  | None => false
  end.

(** [line[1:].split()[0] if ' ' in line[1:] else line[1:]] *)
Definition header_id (line : string) : exn + string :=
  let rest := Str.tail line in
  if Str.has_char " " rest then
    match Str.split_ws rest !! 0 with
    | Some id => inr id
    | None => inl IndexError
    end
  else inr rest.

(** One turn of [for line in content.split('\n')] (lines 110-126). *)
Definition fasta_line (st : fasta_state) (line : string) : exn + fasta_state :=
  let line := Str.strip line in
  if decide (line = "") then inr st
  else if Str.startswith line ">" then
    let st' := if truthy (current_id st)
               then FastaState (saved st) (current_id st) []
               else st in
    match header_id line with
    | inl e => inl e
    | inr id => inr (FastaState (sequences st') (Some id) (current_seq st'))
    end
  else if truthy (current_id st)
  then inr (FastaState (sequences st) (current_id st) (current_seq st ++ [line]))
  else inr st.

(** [content] as for [read_blast_output]; [except Exception: return {}]. *)
Definition parse_fasta_manually (content : option string) : list (string * string) :=
  match content with
  | None => []
  | Some content =>
      match fold_exn fasta_line (Str.split Str.newline content)
              (FastaState [] None []) with
      | inr st => saved st
      | inl _ => []
      end
  end.

End Fasta.

(** *** [write_fasta_file] *)

(** [f">{seq_id}\n{seq}\n"] *)
Definition fasta_record (seq_id seq : string) : string :=
  String ">" (seq_id +:+ String Str.newline (seq +:+ String Str.newline "")).

(** The text written to the file, record after record. *)
Definition write_fasta_file (sequences : list (string * string)) : string :=
  Str.join "" ((λ '(seq_id, seq), fasta_record seq_id seq) <$> sequences).

(** *** The cleaning loop of [read_file_with_detect_encoding] *)

(** [for line in f_in] on a binary file: the lines with their line feeds. *)
Fixpoint byte_lines_go (cur : list Byte.byte) (data : list Byte.byte)
    : list (list Byte.byte) :=
  match data with
  | [] => match cur with [] => [] | _ => [rev cur] end
  | b :: data' =>
      if Byte.eqb b Byte.x0a then rev (b :: cur) :: byte_lines_go [] data'
      else byte_lines_go (b :: cur) data'
  end.

Definition byte_lines (data : list Byte.byte) : list (list Byte.byte) :=
  byte_lines_go [] data.

(** [b if b < 128 or b in (10, 13) else 63] *)
Definition clean_byte (b : Byte.byte) : Byte.byte :=
  if (Byte.to_N b <? 128)%N || Byte.eqb b Byte.x0a || Byte.eqb b Byte.x0d
  then b else Byte.x3f.

(** The bytes written to the cleaned file (lines 62-70). *)
Definition clean_bytes (data : list Byte.byte) : list Byte.byte :=
  concat (map (map clean_byte) (byte_lines data)).

End Utils.

(** ** Scoring Engine and Batch Scheduler ([scripts/probe_scoring.py]) *)

(** The locals that the hit loop of the scorer updates. *)
Module Locals.
Record t (F : Type) := Make {
  raw_non_specificity : F;
  total_hits : nat;
  perfect_matches : nat;
  matched_chromosomes : gset string
}.
Global Arguments Make {F}.
Global Arguments raw_non_specificity {F}.
Global Arguments total_hits {F}.
Global Arguments perfect_matches {F}.
Global Arguments matched_chromosomes {F}.
End Locals.

(** The dictionary a score is returned as, with its keys. *)
Record score_record (F : Type) := ScoreRecord {
  probe_id : string;
  score : F;
  raw_non_specificity : F;
  perfect_matches : nat;
  total_hits : nat;
  matched_chromosomes : string;
  probe_length : nat;
  in_fasta : bool
}.
Global Arguments ScoreRecord {F}.
Global Arguments probe_id {F}.
Global Arguments score {F}.
Global Arguments raw_non_specificity {F}.
Global Arguments perfect_matches {F}.
Global Arguments total_hits {F}.
Global Arguments matched_chromosomes {F}.
Global Arguments probe_length {F}.
Global Arguments in_fasta {F}.

Module Scorer.
Import Py.

Section WithNumbers.
Context {N : PyNum}.

Abbreviation locals := (Locals.t pyfloat).

Definition add_chromosome (c : string) (v : locals) : locals :=
  Locals.Make (Locals.raw_non_specificity v) (Locals.total_hits v)
    (Locals.perfect_matches v) ({[c]} ∪ Locals.matched_chromosomes v).
Definition add_raw (x : pyfloat) (v : locals) : locals :=
  Locals.Make (fadd (Locals.raw_non_specificity v) x) (Locals.total_hits v)
    (Locals.perfect_matches v) (Locals.matched_chromosomes v).
Definition incr_perfect (v : locals) : locals :=
  Locals.Make (Locals.raw_non_specificity v) (Locals.total_hits v)
    (Locals.perfect_matches v + 1) (Locals.matched_chromosomes v).
Definition incr_total (v : locals) : locals :=
  Locals.Make (Locals.raw_non_specificity v) (Locals.total_hits v + 1)
    (Locals.perfect_matches v) (Locals.matched_chromosomes v).

(** [raw_non_specificity = 0.0; total_hits = 0; perfect_matches = 0;
    matched_chromosomes = set()] *)
Definition initial : locals := Locals.Make (fconst 0) 0 0 ∅.

(** [hit.strip().split('\t')] *)
Definition columns (hit : string) : list string := Str.split Str.tab (Str.strip hit).

(** [except (ValueError, IndexError)] *)
Definition caught_by_inner (e : exn) : bool :=
  bool_decide (e = ValueError ∨ e = IndexError).

(** [nident_i = (pident / 100.0) * length] *)
Definition nident (pident : pyfloat) (length : Z) : M locals pyfloat :=
  q ← lift ZeroDivisionError (fdiv pident (fconst 100));
  l ← lift OverflowError (of_int length);
  mret (fmul q l).

(** [raw_specificity_score = 1.0 / (1.0 + raw_non_specificity)] *)
Definition raw_specificity_score (raw : pyfloat) : option pyfloat :=
  fdiv (fconst 1) (fadd (fconst 1) raw).

(** [final_score = 100.0 * raw_specificity_score] *)
Definition formula_score (raw : pyfloat) : option pyfloat :=
  r ← raw_specificity_score raw; Some (fmul (fconst 100) r).

(** *** [calculate_probe_score] *)

(** The body of [for hit in hits] (lines 75-106). *)
Definition score_hit (probe_length : nat) (hit : string) : M locals unit :=
  let parts := columns hit in
  if length parts <? 12 then mret tt else
  chromosome ← index parts 1;
  modify (add_chromosome chromosome);;
  try_except
    (p2 ← index parts 2;
     pident ← lift ValueError (float_of_str p2);
     p3 ← index parts 3;
     length ← lift ValueError (int_of_str p3);
     nident_i ← nident pident length;
     (if 0 <? probe_length then
        l ← lift OverflowError (of_int (Z.of_nat probe_length));
        t ← lift ZeroDivisionError (fdiv nident_i l);
        modify (add_raw t)
      else mret tt);;
     perfect ← (if feqb pident (fconst 100) then
                  p4 ← index parts 4;
                  mismatches ← lift ValueError (int_of_str p4);
                  mret (mismatches =? 0)%Z
                else mret false);
     (if perfect : bool then modify incr_perfect else mret tt);;
     modify incr_total)
    caught_by_inner
    (mret tt).

(** The locals after the loop, and whether it was left by an exception. *)
Definition score_hits (probe_length : nat) (hits : list string)
    : locals * (exn + unit) :=
  for_each (score_hit probe_length) hits initial.

(** Lines 108-131: the score from the locals after the loop. *)
Definition make_record (probes : gmap string string) (probe_id probe_seq : string)
    (matched : gset string → string) : M locals (score_record pyfloat) :=
  v ← get;
  final_score ← lift ZeroDivisionError (formula_score (Locals.raw_non_specificity v));
  let final_score := if Locals.total_hits v =? 0 then fconst 100 else final_score in
  let final_score :=
    if decide (probe_seq = "") then py_min final_score (fconst 30) else final_score in
  mret (ScoreRecord probe_id
          (fround final_score 2)
          (fround (Locals.raw_non_specificity v) 4)
          (Locals.perfect_matches v)
          (Locals.total_hits v)
          (matched (Locals.matched_chromosomes v))
          (String.length probe_seq)
          (bool_decide (is_Some (probes !! probe_id)))).

(** [','.join(sorted(matched_chromosomes))] *)
Definition join_sorted (s : gset string) : string :=
  Str.join "," (Str.sorted (elements s)).

(** The method; [None] is its [except Exception: return None]. *)
Definition calculate_probe_score (probes : gmap string string)
    (probe_id : string) (hits : list string) : option (score_record pyfloat) :=
  let probe_seq := default "" (probes !! probe_id) in
  let probe_length := String.length probe_seq in
  match (for_each (score_hit probe_length) hits;;
         make_record probes probe_id probe_seq join_sorted) initial with
  | (_, inr r) => Some r
  | (_, inl _) => None
  end.

(** [calculate_probes_batch]: [if result: results.append(result)] *)
Definition calculate_probes_batch (probes : gmap string string)
    (probe_ids_hits : list (string * list string)) : list (score_record pyfloat) :=
  fold_left (λ results '(probe_id, hits),
               match calculate_probe_score probes probe_id hits with
               | Some result => results ++ [result]
               | None => results
               end) probe_ids_hits [].

(** *** [static_calculate_probes_batch] *)

(** The body of its [for hit in hits] (lines 162-186). *)
Definition static_score_hit (probe_length : nat) (hit : string) : M locals unit :=
  let parts := columns hit in
  if length parts <? 12 then mret tt else
  try_except
    (chromosome ← index parts 1;
     modify (add_chromosome chromosome);;
     p2 ← index parts 2;
     pident ← lift ValueError (float_of_str p2);
     p3 ← index parts 3;
     length ← lift ValueError (int_of_str p3);
     q ← lift ZeroDivisionError (fdiv pident (fconst 100));
     l ← lift OverflowError (of_int length);
     let nident_i := fmul q l in
     (if 0 <? probe_length then
        l ← lift OverflowError (of_int (Z.of_nat probe_length));
        t ← lift ZeroDivisionError (fdiv nident_i l);
        modify (add_raw t)
      else mret tt);;
     perfect ← (if feqb pident (fconst 100) then
                  p4 ← index parts 4;
                  mismatches ← lift ValueError (int_of_str p4);
                  mret (mismatches =? 0)%Z
                else mret false);
     (if perfect : bool then modify incr_perfect else mret tt);;
     modify incr_total)
    caught_by_inner
    (mret tt).

(** [','.join(sorted(matched_chromosomes)) if matched_chromosomes else ''] *)
Definition static_join_sorted (s : gset string) : string :=
  if decide (s = ∅) then "" else Str.join "," (Str.sorted (elements s)).

(** One turn of [for probe_id, hits in probe_ids_hits] (lines 149-211);
    the [except Exception: continue] leaves [results] as it is. *)
Definition static_score_probe (probes : gmap string string)
    (results : list (score_record pyfloat)) (item : string * list string)
    : list (score_record pyfloat) :=
  let '(probe_id, hits) := item in
  let probe_seq := default "" (probes !! probe_id) in
  let probe_length := String.length probe_seq in
  match (for_each (static_score_hit probe_length) hits;;
         make_record probes probe_id probe_seq static_join_sorted) initial with
  | (_, inr r) => results ++ [r]
  | (_, inl _) => results
  end.

Definition static_calculate_probes_batch (probes : gmap string string)
    (probe_ids_hits : list (string * list string)) : list (score_record pyfloat) :=
  fold_left (static_score_probe probes) probe_ids_hits [].

(** *** [calculate_all_scores] *)

(** [range(start, stop, step)] for a positive [step] *)
Definition py_range (start stop step : nat) : list nat :=
  (λ k, start + k * step) <$> seq 0 ((stop - start + step - 1) / step).

(** [l[i:j]] *)
Definition slice {A} (l : list A) (i j : nat) : list A := take (j - i) (drop i l).

(** [[probe_list[i:i+chunk_size] for i in range(0, total_probes, chunk_size)]];
    [range] raises [ValueError] for a step of 0. *)
Definition batches {A} (chunk_size : nat) (probe_list : list A) : exn + list (list A) :=
  if chunk_size =? 0 then inl ValueError
  else inr ((λ i, slice probe_list i (i + chunk_size))
              <$> py_range 0 (length probe_list) chunk_size).

(** [self.scores.sort(key=lambda x: x['score'], reverse=True)]: the stable
    sort by descending score, as an insertion sort from the right: records
    with equal scores keep their order.  This is the list that [list.sort]
    leaves when no score is nan; with a nan among the scores [list.sort]
    still leaves a permutation of the records, in an order that depends on
    its merge strategy, and only the content of the list is meant then. *)
Fixpoint insert_desc (x : score_record pyfloat) (l : list (score_record pyfloat))
    : list (score_record pyfloat) :=
  match l with
  | [] => [x]
  | y :: l' => if fltb (score x) (score y) then y :: insert_desc x l' else x :: l
  end.

Definition sort_desc (l : list (score_record pyfloat)) : list (score_record pyfloat) :=
  foldr insert_desc [] l.

(** The loop over [as_completed(future_to_batch)].  The pool is seen through
    two things it decides: [completion], the batch indices in the order in
    which their futures complete, and [failed], the batches whose
    [future.result()] raises; the results of such a batch are not added. *)
Definition collect (probes : gmap string string)
    (bs : list (list (string * list string)))
    (completion : list nat) (failed : nat → bool) : list (score_record pyfloat) :=
  fold_left (λ scores batch_idx,
               if failed batch_idx then scores
               else scores ++ static_calculate_probes_batch probes (bs !!! batch_idx))
            completion [].

(** [blast_results] is the dictionary [self.blast_results] as the list of its
    items. *)
Definition calculate_all_scores (probes : gmap string string)
    (blast_results : list (string * list string)) (chunk_size : nat)
    (completion : list nat) (failed : nat → bool) : exn + list (score_record pyfloat) :=
  match batches chunk_size blast_results with
  | inl e => inl e
  | inr bs => inr (sort_desc (collect probes bs completion failed))
  end.

(** *** [extract_high_quality_probes] *)

(** [threshold or 60.0]: [None] and zero are false. *)
Definition score_threshold (threshold : option pyfloat) : pyfloat :=
  match threshold with
  | Some t => if feqb t (fconst 0) then fconst 60 else t
  | None => fconst 60
  end.

(** [self.probes[probe_id]] *)
Definition probes_item (probes : gmap string string) (probe_id : string) : exn + string :=
  match probes !! probe_id with Some seq => inr seq | None => inl KeyError end.

(** One turn of the first loop (lines 329-332). *)
Definition select_step (probes : gmap string string) (t : pyfloat)
    (acc : exn + gmap string string) (result : score_record pyfloat)
    : exn + gmap string string :=
  match acc with
  | inl e => inl e
  | inr high_quality_probes =>
      if fleb t (score result) && in_fasta result then
        match probes_item probes (probe_id result) with
        | inl e => inl e
        | inr seq => inr (<[probe_id result := seq]> high_quality_probes)
        end
      else inr high_quality_probes
  end.

Definition select_above (probes : gmap string string) (t : pyfloat)
    (scores : list (score_record pyfloat)) : exn + gmap string string :=
  fold_left (select_step probes t) scores (inr ∅).

(** One turn of the second loop (lines 339-341). *)
Definition best_step (best_probe : option (score_record pyfloat))
    (result : score_record pyfloat) : option (score_record pyfloat) :=
  if in_fasta result
     && match best_probe with
        | None => true
        | Some best => fltb (score best) (score result)
        end
  then Some result else best_probe.

(** The second loop: the first record with the highest score among those
    found in the FASTA file. *)
Definition best_in_fasta (scores : list (score_record pyfloat))
    : option (score_record pyfloat) :=
  fold_left best_step scores None.

(** The dictionary of selected probes and [is_low_quality_fallback]. *)
Definition extract_high_quality_probes (probes : gmap string string)
    (scores : list (score_record pyfloat)) (threshold : option pyfloat)
    : exn + (gmap string string * bool) :=
  match select_above probes (score_threshold threshold) scores with
  | inl e => inl e
  | inr high_quality_probes =>
      if bool_decide (high_quality_probes = ∅)
         && match scores with [] => false | _ => true end
         && existsb in_fasta scores
      then
        match best_in_fasta scores with
        | Some best_probe =>
            match probes_item probes (probe_id best_probe) with
            | inl e => inl e
            | inr seq => inr (<[probe_id best_probe := seq]> high_quality_probes, true)
            end
        | None => inr (high_quality_probes, false)
        end
      else inr (high_quality_probes, false)
  end.

End WithNumbers.

End Scorer.

Module ScorerIO.
Import Scorer.

(** *** [load_blast_results] *)

(** One turn of [for file_path in files_to_load]: the results of the file
    are merged into [self.blast_results], a [defaultdict(list)]. *)
Definition merge_file (blast_results : list (string * list string))
    (content : option string) : list (string * list string) :=
  fold_left (λ acc '(probe_id, hits), Dict.extend probe_id hits acc)
            (Utils.read_blast_output content) blast_results.

(** [files] holds, for each path of [files_to_load] in order, the text read
    from it ([None] when reading raises). *)
Definition load_blast_results (files : list (option string)) : list (string * list string) :=
  fold_left merge_file files [].

Section WithNumbers.
Context {N : PyNum}.
(** [str(x)] of a [float], as an f-string shows it *)
Variable float_str : pyfloat → string.

(** *** [extract_high_quality_probes], with the order of the dictionary *)

(** One turn of the first loop (lines 329-332). *)
Definition select_item (probes : gmap string string) (t : pyfloat)
    (acc : exn + list (string * string)) (result : score_record pyfloat)
    : exn + list (string * string) :=
  match acc with
  | inl e => inl e
  | inr high_quality_probes =>
      if fleb t (score result) && in_fasta result then
        match probes_item probes (probe_id result) with
        | inl e => inl e
        | inr seq => inr (Dict.set (probe_id result) seq high_quality_probes)
        end
      else inr high_quality_probes
  end.

(** Lines 322-347: [high_quality_probes] in insertion order, and
    [is_low_quality_fallback]. *)
Definition high_quality_items (probes : gmap string string)
    (scores : list (score_record pyfloat)) (threshold : option pyfloat)
    : exn + (list (string * string) * bool) :=
  match fold_left (select_item probes (score_threshold threshold)) scores (inr []) with
  | inl e => inl e
  | inr high_quality_probes =>
      if bool_decide (high_quality_probes = [])
         && match scores with [] => false | _ => true end
         && existsb in_fasta scores
      then
        match best_in_fasta scores with
        | Some best_probe =>
            match probes_item probes (probe_id best_probe) with
            | inl e => inl e
            | inr seq => inr (Dict.set (probe_id best_probe) seq high_quality_probes, true)
            end
        | None => inr (high_quality_probes, false)
        end
      else inr (high_quality_probes, false)
  end.

Definition nl : string := String Str.newline "".

(** The head of the file (lines 356-361); [shown] is the threshold as the
    f-string shows it. *)
Definition file_head (shown : string) (is_low_quality_fallback : bool) (total : nat)
    : string :=
  (if is_low_quality_fallback then
     "> # WARNING: LOW QUALITY PROBE (NO PROBES ABOVE " +:+ shown +:+ " SCORE)" +:+ nl
     +:+ "> # This is the highest scoring probe but may have poor specificity" +:+ nl
   else "> # High Quality Probes (Score >= " +:+ shown +:+ ")" +:+ nl)
  +:+ "> # Total: " +:+ Str.of_nat total +:+ " probes" +:+ nl +:+ nl.

(** One turn of the writing loop (lines 364-368). *)
Definition file_entry (is_low_quality_fallback : bool) (item : string * string) : string :=
  let '(probe_id, seq) := item in
  if is_low_quality_fallback
  then ">" +:+ probe_id +:+ " [LOW_QUALITY_FALLBACK]" +:+ nl +:+ seq +:+ nl
  else ">" +:+ probe_id +:+ nl +:+ seq +:+ nl.

(** The text written to the high-quality file. *)
Definition high_quality_text (shown : string) (is_low_quality_fallback : bool)
    (high_quality_probes : list (string * string)) : string :=
  file_head shown is_low_quality_fallback (length high_quality_probes)
  +:+ Str.join "" (file_entry is_low_quality_fallback <$> high_quality_probes).

(** [extract_high_quality_probes] as the text of the file it writes. *)
Definition high_quality_file (probes : gmap string string)
    (scores : list (score_record pyfloat)) (threshold : option pyfloat) : exn + string :=
  match high_quality_items probes scores threshold with
  | inl e => inl e
  | inr (high_quality_probes, is_low_quality_fallback) =>
      inr (high_quality_text (float_str (score_threshold threshold))
             is_low_quality_fallback high_quality_probes)
  end.

End WithNumbers.

End ScorerIO.

(** ** Coverage Aggregator ([scripts/coverage_analysis.py]) *)

Module Coverage.

(** [os.path.basename] on POSIX paths: what follows the last [/]. *)
Definition basename (path : string) : string := List.last (Str.split "/"%char path) "".

Record file_stat (F : Type) := FileStat {
  file_name : string;
  total_probes : nat;
  found_in_fasta : nat;
  not_found_in_fasta : nat;
  found_ratio : F
}.
Global Arguments FileStat {F}.
Global Arguments file_name {F}.
Global Arguments total_probes {F}.
Global Arguments found_in_fasta {F}.
Global Arguments not_found_in_fasta {F}.
Global Arguments found_ratio {F}.

Record stats (F : Type) := Stats {
  total_probes_in_fasta : nat;
  total_probes_in_blast : nat;
  probes_found_in_fasta : nat;
  coverage_ratio : F;
  file_stats : list (file_stat F)
}.
Global Arguments Stats {F}.
Global Arguments total_probes_in_fasta {F}.
Global Arguments total_probes_in_blast {F}.
Global Arguments probes_found_in_fasta {F}.
Global Arguments coverage_ratio {F}.
Global Arguments file_stats {F}.

Section WithNumbers.
Context {N : PyNum}.

(** [found / total * 100 if total else 0] *)
Definition ratio (found total : nat) : exn + pyfloat :=
  if total =? 0 then inr (fconst 0)
  else match truediv_int (Z.of_nat found) (Z.of_nat total) with
       | inl e => inl e
       | inr q => inr (fmul q (fconst 100))
       end.

(** One turn of [for file_path, file_results in self.blast_results.items()]:
    the statistics of the file are appended and its probe ids are added to
    [all_blast_probes]. *)
Definition analyze_file (probes : gmap string string)
    (acc : exn + (list (file_stat pyfloat) * gset string))
    (item : string * gmap string (list string))
    : exn + (list (file_stat pyfloat) * gset string) :=
  match acc with
  | inl e => inl e
  | inr (stats_so_far, all_blast_probes) =>
      let '(file_path, file_results) := item in
      let file_probes : gset string := dom file_results in
      let found := file_probes ∩ dom probes in
      match ratio (size found) (size file_probes) with
      | inl e => inl e
      | inr r =>
          inr (stats_so_far ++
                 [FileStat (basename file_path) (size file_probes) (size found)
                    (size file_probes - size found) r],
               all_blast_probes ∪ file_probes)
      end
  end.

(** [analyze_coverage]; [blast_results] is the dictionary from file path to the
    file's results, as the list of its items. *)
Definition analyze_coverage (probes : gmap string string)
    (blast_results : list (string * gmap string (list string))) : exn + stats pyfloat :=
  match fold_left (analyze_file probes) blast_results (inr ([], ∅)) with
  | inl e => inl e
  | inr (file_stats, all_blast_probes) =>
      let total_in_fasta := size probes in
      let found := size (all_blast_probes ∩ dom probes) in
      match ratio found total_in_fasta with
      | inl e => inl e
      | inr r => inr (Stats total_in_fasta (size all_blast_probes) found r file_stats)
      end
  end.

End WithNumbers.

(** [load_blast_results]: [self.blast_results[file_path] = file_results] for
    each path of [files_to_load] in order; [files] gives each path with
    the text read from it ([None] when reading raises). *)
Definition load_blast_results (files : list (string * option string))
    : list (string * list (string * list string)) :=
  fold_left (λ blast_results '(file_path, content),
               Dict.set file_path (Utils.read_blast_output content) blast_results)
            files [].

(** [run], up to the statistics: the files are loaded and analysed (of the
    results of a file, the analysis uses the keys). *)
Definition run `{PyNum} (probes : gmap string string)
    (files : list (string * option string)) : exn + stats pyfloat :=
  analyze_coverage probes
    ((λ '(file_path, file_results), (file_path, list_to_map file_results))
       <$> load_blast_results files).

End Coverage.

Module MapperRun.
Import Mapper.

(** [sum(len(probes) for probes in self.mapping_results.values())] *)
Definition mapped_probes (mapping_results : gmap string (list string)) : nat :=
  sum_list_with (λ item, length item.2) (map_to_list mapping_results).

(** What [generate_text_report] and [generate_html_report] do to the
    dictionary: [probes.sort()] sorts the list that the dictionary holds,
    for every key (lines 123-126 and 221-223). *)
Definition sort_groups (mapping_results : gmap string (list string))
    : gmap string (list string) :=
  Str.sorted <$> mapping_results.

(** [run], from the two dictionaries it has loaded: [None] when there is no
    probe, else the dictionary that the reports have gone through. *)
Definition run (high_quality_probes pav_sequences : list (string * string))
    : exn + option (gmap string (list string)) :=
  if decide (high_quality_probes = []) then inr None
  else
    match map_probes_to_pav high_quality_probes pav_sequences with
    | None => inl ZeroDivisionError
    | Some st => inr (Some (sort_groups (sort_groups (mapping_results st))))
    end.

End MapperRun.

Module Main.

Definition default_steps : list string := ["score"; "coverage"; "mapping"].

Definition valid_steps : gset string := {["score"; "coverage"; "mapping"]}.

(** [ProbeAnalysisPipeline.__init__]: [steps or default_steps], then the
    loop that raises [ValueError] at the first step that is not valid. *)
Definition init_steps (steps : option (list string)) : exn + list string :=
  let steps := match steps with
               | Some (step :: rest) => step :: rest
               | _ => default_steps
               end in
  match Utils.fold_exn
          (λ (_ : unit) step,
             if bool_decide (step ∈ valid_steps) then inr tt else inl ValueError)
          steps tt with
  | inl e => inl e
  | inr _ => inr steps
  end.

(** [[s.strip() for s in args.steps.split(',')]] *)
Definition parse_steps (arg : string) : list string :=
  Str.strip <$> Str.split ","%char arg.

(** The steps of the pipeline that [main] builds from [--steps]. *)
Definition main_steps (arg : string) : exn + list string :=
  init_steps (Some (parse_steps arg)).

End Main.

Module Config.

Record input_files := InputFiles {
  BLAST_FILES : list string;
  GENOME_FILES : list string;
  BLAST_GENOME_MAPPING : list (string * string);
  REFERENCE_GENOME : option string
}.

Section Detect.
(** [os.path.join] and [str.lower] *)
Variable join : string → string → string.
Variable lower : string → string.
Variable data_dir : string.

(** [file_name.endswith(('.fa', '.fasta', '.fna'))] and neither prefix *)
Definition is_genome_name (file_name : string) : bool :=
  (Str.endswith file_name ".fa" || Str.endswith file_name ".fasta"
   || Str.endswith file_name ".fna")
  && negb (Str.startswith file_name "all_pav")
  && negb (Str.startswith file_name "extracted_sequences").

Definition is_blast_name (file_name : string) : bool :=
  Str.startswith file_name "extracted_blast_out_" && Str.endswith file_name ".txt".

(** The first loop: the genome files as [(file_name, genome_path)]. *)
Definition genome_files (listing : list string) : list (string * string) :=
  (λ file_name, (file_name, join data_dir file_name)) <$> filter is_genome_name listing.

(** [file_name[len('extracted_blast_out_'):-4]] *)
Definition species_id (file_name : string) : string :=
  Str.slice_inner (String.length "extracted_blast_out_") 4 file_name.

(** The inner loop with its [break]: the first genome file whose lowered
    name contains the lowered species id. *)
Definition matched_genome (genomes : list (string * string)) (file_name : string)
    : option string :=
  snd <$> List.find (λ '(genome_name, _),
                       Str.contains (lower (species_id file_name)) (lower genome_name))
                    genomes.

(** One turn of the second loop. *)
Definition blast_step (genomes : list (string * string)) (c : input_files)
    (file_name : string) : input_files :=
  if is_blast_name file_name then
    let blast_path := join data_dir file_name in
    let blast := BLAST_FILES c ++ [blast_path] in
    match matched_genome genomes file_name with
    | Some genome_path =>
        InputFiles blast
          (if bool_decide (genome_path ∈ GENOME_FILES c) then GENOME_FILES c
           else GENOME_FILES c ++ [genome_path])
          (if decide (genome_path = "") then BLAST_GENOME_MAPPING c
           else Dict.set blast_path genome_path (BLAST_GENOME_MAPPING c))
          (REFERENCE_GENOME c)
    | None => InputFiles blast (GENOME_FILES c) (BLAST_GENOME_MAPPING c) (REFERENCE_GENOME c)
    end
  else c.

(** The third step: the reference genome. *)
Definition set_reference (c : input_files) : input_files :=
  match GENOME_FILES c with
  | first :: _ => InputFiles (BLAST_FILES c) (GENOME_FILES c) (BLAST_GENOME_MAPPING c) (Some first)
  | [] =>
      let reference := join data_dir "Zm-Mo17-REFERENCE-CAU-2.0.fa" in
      InputFiles (BLAST_FILES c) (GENOME_FILES c ++ [reference]) (BLAST_GENOME_MAPPING c)
        (Some reference)
  end.

(** The detection of [InputFiles.__init__]: [listings] is [None] when
    [data_dir] does not exist, else what the two calls of [os.listdir]
    return. *)
Definition detect (listings : option (list string * list string)) : input_files :=
  match listings with
  | None => InputFiles [] [] [] None
  | Some (first_listing, second_listing) =>
      set_reference
        (fold_left (blast_step (genome_files first_listing)) second_listing
                   (InputFiles [] [] [] None))
  end.

End Detect.

End Config.

(** * Part II: the vocabulary of the properties *)

(** ** Region Mapper *)

Section MapperVocabulary.
Import Mapper.
Implicit Types (keys : list string) (p : string).

(** The region id the code files a probe under: the captured group when the
    pattern matches, else the first known id that is a prefix of the probe id. *)
Definition resolved keys p : option string :=
  match re_match_group1 p with
  | Some pav_id => Some pav_id
  | None => first_prefix_key keys p
  end.

Fixpoint str_all (p : ascii → bool) (s : string) : bool :=
  match s with
  | EmptyString => true
  | String c s' => p c && str_all p s'
  end.

(** [probe_id] starts with [<token>_<token>-<digits>_] and [c] is that prefix
    without its last underscore: the tokens are non-empty and have no
    underscore, the digits are one or more of [0-9]. *)
Definition pav_shape (probe_id c : string) : Prop :=
  ∃ t1 a d rest,
    probe_id = t1 +:+ String "_" (a +:+ String "-" (d +:+ String "_" rest))
    ∧ c = t1 +:+ String "_" (a +:+ String "-" d)
    ∧ t1 ≠ "" ∧ a ≠ "" ∧ d ≠ ""
    ∧ str_all not_underscore t1 = true
    ∧ str_all not_underscore a = true
    ∧ str_all is_digit d = true.

End MapperVocabulary.

(** ** Scorer, scheduler and extraction, for any arithmetic *)

Section ScorerVocabulary.
Import Scorer Py.
Context {N : PyNum}.
Implicit Types (scores : list (score_record pyfloat)) (probes hq : gmap string string).

Abbreviation locals := (Locals.t pyfloat).

(** The ways the loop body can end, with what it has changed by then. *)
Inductive hit_effect :=
  | Skipped
      (** fewer than 12 columns: nothing is changed *)
  | TargetOnly (chromosome : string)
      (** [float(parts[2])] or [int(parts[3])] raised [ValueError] *)
  | Partial (chromosome : string) (term : option pyfloat)
      (** [int(parts[4])] raised [ValueError], after the term was added *)
  | Counted (chromosome : string) (term : option pyfloat) (perfect : bool)
      (** the body ran to its end *)
  | Fatal (chromosome : string) (e : exn)
      (** an exception that the inner handler does not catch *).

Definition add_term (term : option pyfloat) (v : locals) : locals :=
  match term with Some x => add_raw x v | None => v end.

Definition apply_effect (eff : hit_effect) (v : locals) : locals * (exn + unit) :=
  match eff with
  | Skipped => (v, inr tt)
  | TargetOnly c => (add_chromosome c v, inr tt)
  | Partial c t => (add_term t (add_chromosome c v), inr tt)
  | Counted c t perfect =>
      let v := add_term t (add_chromosome c v) in
      (incr_total (if perfect then incr_perfect v else v), inr tt)
  | Fatal c e => (add_chromosome c v, inl e)
  end.

(** The term [nident_i / probe_length] that a hit adds, if any is added. *)
Definition hit_term (probe_length : nat) (pident : pyfloat) (len : Z)
    : exn + option pyfloat :=
  match fdiv pident (fconst 100) with
  | None => inl ZeroDivisionError
  | Some q =>
      match of_int len with
      | None => inl OverflowError
      | Some l =>
          if 0 <? probe_length then
            match of_int (Z.of_nat probe_length) with
            | None => inl OverflowError
            | Some pl =>
                match fdiv (fmul q l) pl with
                | None => inl ZeroDivisionError
                | Some t => inr (Some t)
                end
            end
          else inr None
      end
  end.

Definition classify (probe_length : nat) (hit : string) : hit_effect :=
  match columns hit with
  | _ :: p1 :: p2 :: p3 :: p4 :: _ =>
      if length (columns hit) <? 12 then Skipped else
      match float_of_str p2, int_of_str p3 with
      | Some pident, Some len =>
          match hit_term probe_length pident len with
          | inl e => Fatal p1 e
          | inr t =>
              if feqb pident (fconst 100) then
                match int_of_str p4 with
                | Some mismatches => Counted p1 t (mismatches =? 0)%Z
                | None => Partial p1 t
                end
              else Counted p1 t false
          end
      | _, _ => TargetOnly p1
      end
  | _ => Skipped
  end.

(** The loop on the effects of the hits: it stops at the first [Fatal]. *)
Fixpoint run_effects (effs : list hit_effect) (v : locals) : locals * (exn + unit) :=
  match effs with
  | [] => (v, inr tt)
  | eff :: effs' =>
      match apply_effect eff v with
      | (v', inr _) => run_effects effs' v'
      | r => r
      end
  end.

(** The method in terms of the effects of the hits. *)
Definition finish (probes : gmap string string) (probe_id : string)
    (matched : gset string → string) (r : locals * (exn + unit))
    : option (score_record pyfloat) :=
  match r with
  | (v, inr _) =>
      match make_record probes probe_id (default "" (probes !! probe_id)) matched v with
      | (_, inr r) => Some r
      | (_, inl _) => None
      end
  | (_, inl _) => None
  end.

Definition with_targets (X : gset string) (v : locals) : locals :=
  Locals.Make (Locals.raw_non_specificity v) (Locals.total_hits v)
    (Locals.perfect_matches v) (X ∪ Locals.matched_chromosomes v).

(** A record with fewer than 12 tab-separated columns. *)
Definition short_hit (hit : string) : Prop := length (columns hit) < 12.

(** A record with 12 columns or more whose percent identity or alignment
    length does not parse. *)
Definition unparsable_numbers (hit : string) : Prop :=
  12 ≤ length (columns hit) ∧
  ∃ p2 p3, columns hit !! 2 = Some p2 ∧ columns hit !! 3 = Some p3
    ∧ (float_of_str p2 = None ∨ int_of_str p3 = None).

(** The records that are left before any number is accumulated. *)
Definition dropped (hit : string) : Prop := short_hit hit ∨ unparsable_numbers hit.

(** Two score records that differ at most in the matched targets. *)
Definition same_numbers (r' r : score_record pyfloat) : Prop :=
  probe_id r' = probe_id r ∧ score r' = score r
  ∧ raw_non_specificity r' = raw_non_specificity r
  ∧ perfect_matches r' = perfect_matches r ∧ total_hits r' = total_hits r
  ∧ probe_length r' = probe_length r ∧ in_fasta r' = in_fasta r.

Definition is_counted (eff : hit_effect) : bool :=
  match eff with Counted _ _ _ => true | _ => false end.

Definition is_fatal (eff : hit_effect) : bool :=
  match eff with Fatal _ _ => true | _ => false end.

(** The term a hit adds to [raw_non_specificity], if it adds one. *)
Definition effect_term (eff : hit_effect) : option pyfloat :=
  match eff with
  | Partial _ t | Counted _ t _ => t
  | _ => None
  end.

(** The hits that run to the end of the loop body: they are the ones that
    [total_hits] counts. *)
Definition counted (probe_length : nat) (hit : string) : bool :=
  is_counted (classify probe_length hit).

(** The records that the completed batches deliver, batch after batch. *)
Definition delivered (probes : gmap string string)
    (bs : list (list (string * list string))) (failed : nat → bool) (batch_idx : nat)
    : list (score_record pyfloat) :=
  if failed batch_idx then []
  else omap (λ item, calculate_probe_score probes item.1 item.2) (bs !!! batch_idx).



(** A record that the first loop selects. *)
Definition selected (t : pyfloat) (r : score_record pyfloat) : Prop :=
  fleb t (score r) = true ∧ in_fasta r = true.

(** Every record found in the FASTA file has its sequence in [probes]. *)
Definition consistent probes scores : Prop :=
  ∀ r, r ∈ scores → in_fasta r = true → is_Some (probes !! probe_id r).

(** Some record of [scores] for probe [p] is selected. *)
Definition has_selected (t : pyfloat) scores (p : string) : Prop :=
  ∃ r, r ∈ scores ∧ probe_id r = p ∧ selected t r.

(** [x == x]: a float that is not nan. *)
Definition is_number (x : pyfloat) : Prop := feqb x x = true.


(** Locals that hold the same counts and the same targets. *)
Definition same_counts (v v' : locals) : Prop :=
  Locals.total_hits v = Locals.total_hits v'
  ∧ Locals.perfect_matches v = Locals.perfect_matches v'
  ∧ Locals.matched_chromosomes v = Locals.matched_chromosomes v'.

(** Two runs of the loop that both raise, or both end with the same counts
    and targets. *)
Definition same_exit (r r' : locals * (exn + unit)) : Prop :=
  match r.2, r'.2 with
  | inr _, inr _ => same_counts r.1 r'.1
  | inl _, inl _ => True
  | _, _ => False
  end.

End ScorerVocabulary.

(** ** Coverage on binary64 *)

Section Binary64Vocabulary.
Import (notations) PrimFloat.

(** [found / total * 100 if total else 0] on binary64: the double nearest to
    the quotient of the two integers, times 100. *)
Definition percentage (found total : nat) : Binary64.t :=
  if total =? 0 then 0%float
  else (Binary64.quot (Z.of_nat found) (Z.of_nat total) * 100)%float.

(** The statistics of one source file. *)
Definition file_stat64 (probes : gmap string string)
    (item : string * gmap string (list string)) : Coverage.file_stat Binary64.t :=
  let file_probes : gset string := dom item.2 in
  let found := file_probes ∩ dom probes in
  Coverage.FileStat (Coverage.basename item.1) (size file_probes) (size found)
    (size file_probes - size found)
    (percentage (size found) (size file_probes)).

End Binary64Vocabulary.

(** ** Texts, lines and records of the files *)

Section TextVocabulary.

Definition not_space (c : ascii) : bool := negb (Str.is_space c).

(** A text without whitespace. *)
Definition plain (s : string) : Prop := str_all not_space s = true.

(** A FASTA record that the manual parser reads back as it is: the id is
    not empty, neither the id nor the sequence holds whitespace, and the
    sequence does not start with [>]. *)
Definition plain_record (id seq : string) : Prop :=
  id ≠ "" ∧ plain id ∧ plain seq ∧ Str.startswith seq ">" = false.

(** The dictionary with every sequence in upper case. *)
Definition upper_values (upper : string → string) (d : list (string * string))
    : list (string * string) :=
  (λ '(id, seq), (id, upper seq)) <$> d.

End TextVocabulary.

Section RecordVocabulary.

(** A header line of a FASTA record: [>id], or [>id description]. *)
Definition fasta_header (id : string) (description : option string) : string :=
  match description with
  | Some d => String ">" (id +:+ String " " d)
  | None => String ">" id
  end.

(** The lines of a FASTA text: for each record its header line, then the
    lines of its sequence. *)
Definition fasta_lines (records : list (string * option string * list string))
    : list string :=
  records ≫= λ '(id, description, lines), fasta_header id description :: lines.

(** The text with these lines, each ended by a line feed. *)
Definition text_of_lines (lines : list string) : string :=
  Str.join "" ((λ line, line +:+ String Str.newline "") <$> lines).

(** A record in the usual form: the id is not empty and holds no
    whitespace, the description stays on the header line, and the lines of
    the sequence hold no whitespace and do not start with [>]. *)
Definition standard_record (id : string) (description : option string)
    (lines : list string) : Prop :=
  id ≠ "" ∧ plain id
  ∧ (∀ d, description = Some d → Str.has_char Str.newline d = false)
  ∧ Forall (λ line, plain line ∧ Str.startswith line ">" = false) lines.

End RecordVocabulary.

Section BlastVocabulary.

(** The hits filed under a probe id, none when the id is not a key. *)
Definition hits_of (p : string) (d : list (string * list string)) : list string :=
  default [] (Dict.get p d).

(** A line that [read_blast_output] keeps: not empty, not a comment, and with
    12 columns or more once stripped. *)
Definition data_line (line : string) : Prop :=
  line ≠ "" ∧ Str.startswith line "#" = false ∧ 12 ≤ length (Scorer.columns line).

Global Instance data_line_dec line : Decision (data_line line).
Proof. unfold data_line. apply _. Defined.

(** The first column of the line is [p]. *)
Definition filed_under (p : string) (line : string) : Prop :=
  Scorer.columns line !! 0 = Some p.

Global Instance filed_under_dec p line : Decision (filed_under p line).
Proof. unfold filed_under. apply _. Defined.

(** The data lines of a text, in its order. *)
Definition data_lines (content : string) : list string :=
  filter data_line (Str.split Str.newline (Str.strip content)).

(** The probe ids of the data lines of a text. *)
Definition blast_ids (content : option string) : gset string :=
  match content with
  | Some content => list_to_set (omap (λ line, Scorer.columns line !! 0) (data_lines content))
  | None => ∅
  end.

(** Every key is there once, no key has an empty list, and every hit under
    a key is a data line whose first column is the key. *)
Definition well_filed (d : list (string * list string)) : Prop :=
  NoDup d.*1
  ∧ ∀ p hits, (p, hits) ∈ d →
      hits ≠ [] ∧ ∀ h, h ∈ hits → data_line h ∧ filed_under p h.

End BlastVocabulary.

Section FastaVocabulary.
Import Utils.
Variable upper : string → string.
Implicit Types (st : fasta_state) (h id : string).

(** An id that the parser can file: not empty and without a space. *)
Definition good_id (id : string) : Prop := id ≠ "" ∧ Str.has_char " " id = false.

(** The invariant of the loop of the parser. *)
Definition fasta_inv st : Prop :=
  NoDup (sequences st).*1
  ∧ Forall good_id (sequences st).*1
  ∧ ∀ id, current_id st = Some id → Str.has_char " " id = false.

(** A header line as the parser wants it, for the id [id]. *)
Definition header_for (h id : string) : Prop :=
  Str.strip h = h ∧ Str.startswith h ">" = true ∧ header_id h = inr id
  ∧ Str.has_char Str.newline h = false.

(** A state in which no line is pending under a false id. *)
Definition settled st : Prop := truthy (current_id st) = false → current_seq st = [].

(** The state of the parser after the head of the high-quality file. *)
Definition head_state : fasta_state := FastaState [("#", upper "")] (Some "#") [].

(** The header of a record in the high-quality file. *)
Definition entry_header (fallback : bool) (id : string) : string :=
  if fallback then String ">" (id +:+ " [LOW_QUALITY_FALLBACK]") else String ">" id.

End FastaVocabulary.

Section SelectionVocabulary.
Import Scorer.
Context {N : PyNum}.

(** The target that a hit adds to [matched_chromosomes]: its second column,
    when it has 12 columns or more. *)
Definition hit_target (hit : string) : option string :=
  if length (columns hit) <? 12 then None else columns hit !! 1.

Definition effect_target (eff : hit_effect) : option string :=
  match eff with
  | Skipped => None
  | TargetOnly c | Partial c _ | Counted c _ _ | Fatal c _ => Some c
  end.

Global Instance selected_dec (t : pyfloat) (r : score_record pyfloat) :
  Decision (selected t r).
Proof. unfold selected. apply _. Defined.

(** A dictionary in insertion order that holds probes of [probes] with
    their sequences, each once. *)
Definition items_of (probes : gmap string string) (items : list (string * string))
    : Prop :=
  NoDup items.*1 ∧ ∀ id seq, (id, seq) ∈ items → probes !! id = Some seq.

End SelectionVocabulary.

Section DetectionVocabulary.
Import Config.
Variable join : string → string → string.
Variable data_dir : string.

(** The invariant of the second loop of the detection, after the names
    [second] of the listing. *)
Definition detect_inv (genomes : list (string * string)) (second : list string)
    (c : input_files) : Prop :=
  BLAST_FILES c = join data_dir <$> filter is_blast_name second
  ∧ NoDup (GENOME_FILES c)
  ∧ NoDup (BLAST_GENOME_MAPPING c).*1
  ∧ (∀ b g, (b, g) ∈ BLAST_GENOME_MAPPING c → b ∈ BLAST_FILES c ∧ g ∈ GENOME_FILES c)
  ∧ (∀ g, g ∈ GENOME_FILES c → g ∈ genomes.*2)
  ∧ REFERENCE_GENOME c = None.

End DetectionVocabulary.

(** ** Sample data *)

(** A BLAST line from its columns. *)
Definition blast_line (cols : list string) : string :=
  Str.join (String Str.tab "") cols.

Definition probes_P1 : gmap string string := {["P1" := "ACGTACGTACGTACGTACGT"]}.

(** pident 100, length 20, no mismatch *)
Definition hit_perfect : string :=
  blast_line ["P1"; "chr1"; "100.000"; "20"; "0"; "0"; "1"; "20"; "5"; "24"; "1e-5"; "40.1"].
(** the percent identity is not a number *)
Definition hit_bad_pident : string :=
  blast_line ["P1"; "chr2"; "abc"; "20"; "0"; "0"; "1"; "20"; "5"; "24"; "1e-5"; "40.1"].
(** the mismatch count is not a number, pident 50 *)
Definition hit_bad_mismatch : string :=
  blast_line ["P1"; "chr3"; "50.0"; "20"; "x"; "0"; "1"; "20"; "5"; "24"; "1e-5"; "40.1"].


Definition probes_P123 : gmap string string :=
  {["P1" := "ACGTACGTACGTACGTACGT"; "P2" := "ACGTACGTAC"; "P3" := "ACGTA"]}.

Definition blast_P123 : list (string * list string) :=
  [("P1", [hit_perfect; hit_bad_pident]); ("P2", [hit_bad_mismatch]); ("P3", [])].

(** Two score records on binary64, with scores 30.0 and 40.0. *)
Definition scores_two : list (score_record Binary64.t) :=
  [ScoreRecord "P1" (Binary64.of_Z 30) (Binary64.of_Z 2) 0 2 "chr1" 20 true;
   ScoreRecord "P2" (Binary64.of_Z 40) (Binary64.of_Z 1) 0 1 "chr3" 10 true].

(** [str.upper] on ASCII text *)
Definition upper_char (c : ascii) : ascii :=
  let n := nat_of_ascii c in
  if (97 <=? n) && (n <=? 122) then ascii_of_nat (n - 32) else c.

Fixpoint ascii_upper (s : string) : string :=
  match s with
  | String c s' => String (upper_char c) (ascii_upper s')
  | EmptyString => EmptyString
  end.

(** pident 50, length 10, one mismatch, for probe P2 *)
Definition hit_P2 : string :=
  blast_line ["P2"; "chr3"; "50.0"; "10"; "1"; "0"; "1"; "10"; "5"; "14"; "1e-2"; "20.1"].

(** A BLAST file with a comment, a line of two columns and two data lines,
    and a second file with one data line. *)
Definition blast_file_A : string :=
  hit_perfect +:+ ScorerIO.nl +:+ "# a comment" +:+ ScorerIO.nl
  +:+ blast_line ["P1"; "chr9"] +:+ ScorerIO.nl +:+ hit_P2 +:+ ScorerIO.nl.

Definition blast_file_B : string := hit_bad_pident +:+ ScorerIO.nl.

(** One record above the threshold 40.0 and one below. *)
Definition scores_P1_P2 : list (score_record Q) :=
  [ScoreRecord "P1" 50%Q 1%Q 1 1 "chr1" 20 true;
   ScoreRecord "P2" 30%Q 2%Q 0 2 "chr3" 10 true].

(** A region file with one record of two lines. *)
Definition pav_text : string :=
  ">1_qLA2-1 first region" +:+ ScorerIO.nl +:+ "acgt" +:+ ScorerIO.nl
  +:+ "ttga" +:+ ScorerIO.nl.

(** * Part III: the properties *)

(** ** Region Mapper: the pattern *)

Section PatternShape.
Import Mapper.

Lemma app_String c u v : String c u +:+ v = String c (u +:+ v).
Proof. done. Qed.

Lemma str_all_app p u v : str_all p (u +:+ v) = str_all p u && str_all p v.
Proof.
  induction u as [|c u IH]; [done|]. rewrite ?app_String. simpl.
  by rewrite IH, andb_assoc.
Qed.

Lemma re_star_sound {A} p s (k : string → option A) r :
  re_star p s k = Some r →
  ∃ u v, s = u +:+ v ∧ str_all p u = true ∧ k v = Some r.
Proof.
  induction s as [|c s IH]; simpl.
  - intros Hk. by exists "", "".
  - destruct (p c) eqn:Hp; [|intros Hk; by exists "", (String c s)].
    destruct (re_star p s k) as [r'|] eqn:Hs.
    + intros [= ->]. destruct (IH eq_refl) as (u & v & -> & Hu & Hk).
      exists (String c u), v. simpl. by rewrite Hp, Hu.
    + intros Hk. by exists "", (String c s).
Qed.

Lemma re_plus_sound {A} p s (k : string → option A) r :
  re_plus p s k = Some r →
  ∃ u v, s = u +:+ v ∧ u ≠ "" ∧ str_all p u = true ∧ k v = Some r.
Proof.
  destruct s as [|c s]; simpl; [done|].
  destruct (p c) eqn:Hp; [|done].
  intros (u & v & -> & Hu & Hk)%re_star_sound.
  exists (String c u), v. simpl. by rewrite Hp, Hu.
Qed.

Lemma re_char_sound {A} c s (k : string → option A) r :
  re_char c s k = Some r → ∃ v, s = String c v ∧ k v = Some r.
Proof.
  destruct s as [|c' s]; simpl; [done|].
  destruct (Ascii.eqb c' c) eqn:E; [|done].
  apply Ascii.eqb_eq in E as ->. eauto.
Qed.

(** A greedy repetition succeeds as soon as some split does. *)
Lemma re_star_complete {A} p u v (k : string → option A) :
  str_all p u = true → is_Some (k v) → is_Some (re_star p (u +:+ v) k).
Proof.
  induction u as [|c u IH]; simpl.
  - intros _ Hk. destruct v as [|c v]; simpl; [done|].
    destruct (p c); [|done]. by destruct (re_star p v k).
  - intros [Hc Hu]%andb_true_iff Hk. rewrite ?app_String. simpl. rewrite Hc.
    destruct (IH Hu Hk) as [r ->]. eauto.
Qed.

Lemma re_plus_complete {A} p u v (k : string → option A) :
  u ≠ "" → str_all p u = true → is_Some (k v) → is_Some (re_plus p (u +:+ v) k).
Proof.
  destruct u as [|c u]; [done|]. intros _ [Hc Hu]%andb_true_iff Hk.
  rewrite ?app_String. simpl. rewrite Hc. by apply re_star_complete.
Qed.

Lemma length_app_string u v :
  String.length (u +:+ v) = String.length u + String.length v.
Proof. induction u as [|c u IH]; [done|]. rewrite app_String. simpl. by rewrite IH. Qed.

Lemma substring_prefix u v :
  String.substring 0 (String.length (u +:+ v) - String.length v) (u +:+ v) = u.
Proof.
  rewrite length_app_string.
  replace (String.length u + String.length v - String.length v)
    with (String.length u) by lia.
  induction u as [|c u IH].
  - by destruct v.
  - rewrite app_String. simpl. by rewrite IH.
Qed.

(** The place of the first underscore is determined. *)
Lemma token_split_unique u u' r r' :
  str_all not_underscore u = true → str_all not_underscore u' = true →
  u +:+ String "_" r = u' +:+ String "_" r' → u = u' ∧ r = r'.
Proof.
  revert u'. induction u as [|c u IH]; intros [|c' u']; simpl.
  - intros _ _ [= ->]. done.
  - intros _ [Hc _]%andb_true_iff. rewrite ?app_String. intros [= <- _]. done.
  - intros [Hc _]%andb_true_iff _. rewrite ?app_String. intros [= -> _]. done.
  - intros [_ Hu]%andb_true_iff [_ Hu']%andb_true_iff.
    rewrite ?app_String. intros [= -> Heq].
    destruct (IH u' Hu Hu' Heq) as [-> ->]. done.
Qed.

Lemma digit_not_underscore c : is_digit c = true → not_underscore c = true.
Proof.
  unfold is_digit, not_underscore. intros [H1 H2]%andb_true_iff.
  destruct (Ascii.eqb c "_") eqn:E; [|done].
  apply Ascii.eqb_eq in E as ->. vm_compute in H2. discriminate H2.
Qed.

Lemma digits_no_underscore d : str_all is_digit d = true → str_all not_underscore d = true.
Proof.
  induction d as [|c d IH]; simpl; [done|].
  intros [Hc Hd]%andb_true_iff. by rewrite digit_not_underscore, IH.
Qed.

Lemma pav_shape_unique probe_id c c' :
  pav_shape probe_id c → pav_shape probe_id c' → c = c'.
Proof.
  intros (t1 & a & d & rest & -> & -> & _ & _ & _ & Ht1 & Ha & Hd)
         (t1' & a' & d' & rest' & Heq & -> & _ & _ & _ & Ht1' & Ha' & Hd').
  destruct (token_split_unique _ _ _ _ Ht1 Ht1' Heq) as [-> Heq2].
  f_equal. f_equal.
  assert (∀ a d, str_all not_underscore a = true → str_all is_digit d = true →
                 str_all not_underscore (a +:+ String "-" d) = true) as Hmid.
  { intros x y Hx Hy. rewrite str_all_app. simpl. by rewrite Hx, digits_no_underscore. }
  assert (∀ x y z, x +:+ String "-" (y +:+ z) = (x +:+ String "-" y) +:+ z) as Hassoc.
  { intros x y z. induction x as [|cx x IH]; [done|]. rewrite ?app_String. by rewrite IH. }
  rewrite !Hassoc in Heq2.
  by destruct (token_split_unique _ _ _ _ (Hmid _ _ Ha Hd) (Hmid _ _ Ha' Hd') Heq2).
Qed.

Lemma re_match_group1_sound probe_id c :
  re_match_group1 probe_id = Some c → pav_shape probe_id c.
Proof.
  unfold re_match_group1, pav_pattern.
  destruct (re_plus _ _ _) as [rest|] eqn:Hm; [|done]. intros [= <-].
  apply re_plus_sound in Hm as (t1 & s1 & -> & Ht1 & Hall1 & Hm).
  apply re_char_sound in Hm as (s2 & -> & Hm).
  apply re_plus_sound in Hm as (a & s3 & -> & Ha & Halla & Hm).
  apply re_char_sound in Hm as (s4 & -> & Hm).
  apply re_plus_sound in Hm as (d & s5 & -> & Hd & Halld & Hm).
  apply re_char_sound in Hm as (s6 & -> & [= <-]).
  exists t1, a, d, s6. split_and!; try done.
  assert (∀ x y z, x +:+ String "-" (y +:+ z) = (x +:+ String "-" y) +:+ z) as Hassoc.
  { intros x y z. induction x as [|cx x IH]; [done|]. rewrite ?app_String. by rewrite IH. }
  assert (∀ x y z, x +:+ String "_" (y +:+ z) = (x +:+ String "_" y) +:+ z) as Hassoc'.
  { intros x y z. induction x as [|cx x IH]; [done|]. rewrite ?app_String. by rewrite IH. }
  rewrite Hassoc, Hassoc'. apply substring_prefix.
Qed.

(** The matcher finds exactly the prefixes of the pattern's shape. *)
Lemma re_match_group1_spec probe_id c :
  re_match_group1 probe_id = Some c ↔ pav_shape probe_id c.
Proof.
  split; [apply re_match_group1_sound|].
  intros Hshape.
  assert (is_Some (re_match_group1 probe_id)) as [c' Hc'].
  { destruct Hshape as (t1 & a & d & rest & -> & _ & Ht1 & Ha & Hd & Hall1 & Halla & Halld).
    unfold re_match_group1.
    assert (is_Some (pav_pattern (t1 +:+ String "_" (a +:+ String "-" (d +:+ String "_" rest)))))
      as [r ->]; [|eauto].
    unfold pav_pattern.
    apply re_plus_complete; [done..|]. simpl. 
    apply re_plus_complete; [done..|]. simpl.
    apply re_plus_complete; [done..|]. simpl. eauto. }
  rewrite Hc'. f_equal.
  eapply pav_shape_unique; [by apply re_match_group1_sound|done].
Qed.

End PatternShape.

(** ** Region Mapper: resolution and partition *)

Section MapperFacts.
Import Mapper.
Implicit Types (st : state) (keys probe_ids : list string) (p k : string).

Lemma grouped_under_append d u k v k' p :
  grouped_under (State (dict_append d k v) u) k' p ↔
  grouped_under (State d u) k' p ∨ (k' = k ∧ p = v).
Proof.
  unfold grouped_under, dict_append; simpl.
  destruct (decide (k = k')) as [<-|Hne].
  - rewrite lookup_insert_eq. split.
    + intros (l & [= <-] & Hin). apply elem_of_app in Hin as [Hin|Hin].
      * left. destruct (d !! k) as [l'|] eqn:E; simpl in Hin.
        -- eauto.
        -- by apply elem_of_nil in Hin.
      * right. apply list_elem_of_singleton in Hin. done.
    + intros [(l & Hl & Hin)|[_ ->]]; eexists; (split; [done|]).
      * rewrite Hl; simpl. apply elem_of_app; by left.
      * apply elem_of_app; right. by apply list_elem_of_singleton.
  - rewrite lookup_insert_ne by done. split; [by left|].
    intros [?|[-> _]]; done.
Qed.

(** What one iteration does to the grouping and to the unmapped list. *)
Lemma map_probe_grouped keys st q k p :
  grouped_under (map_probe keys st q) k p ↔
  grouped_under st k p ∨ (p = q ∧ resolved keys q = Some k).
Proof.
  unfold map_probe, resolved. destruct st as [d u]; simpl.
  destruct (re_match_group1 q) as [c|].
  - rewrite grouped_under_append. naive_solver.
  - destruct (first_prefix_key keys q) as [c|].
    + rewrite grouped_under_append. naive_solver.
    + unfold grouped_under; simpl. naive_solver.
Qed.

Lemma map_probe_unmapped keys st q p :
  p ∈ unmapped_probes (map_probe keys st q) ↔
  p ∈ unmapped_probes st ∨ (p = q ∧ resolved keys q = None).
Proof.
  unfold map_probe, resolved. destruct st as [d u]; simpl.
  destruct (re_match_group1 q) as [c|]; [naive_solver|].
  destruct (first_prefix_key keys q) as [c|]; simpl; [naive_solver|].
  rewrite elem_of_app, list_elem_of_singleton. naive_solver.
Qed.

(** The invariant of the loop, from any starting state. *)
Lemma fold_map_probe_grouped keys probe_ids st k p :
  grouped_under (fold_left (map_probe keys) probe_ids st) k p ↔
  grouped_under st k p ∨ (p ∈ probe_ids ∧ resolved keys p = Some k).
Proof.
  revert st. induction probe_ids as [|q l IH]; intros st; simpl.
  - rewrite elem_of_nil. naive_solver.
  - rewrite IH, map_probe_grouped, elem_of_cons. naive_solver.
Qed.

Lemma fold_map_probe_unmapped keys probe_ids st p :
  p ∈ unmapped_probes (fold_left (map_probe keys) probe_ids st) ↔
  p ∈ unmapped_probes st ∨ (p ∈ probe_ids ∧ resolved keys p = None).
Proof.
  revert st. induction probe_ids as [|q l IH]; intros st; simpl.
  - rewrite elem_of_nil. naive_solver.
  - rewrite IH, map_probe_unmapped, elem_of_cons. naive_solver.
Qed.

Lemma map_loop_grouped keys probe_ids k p :
  grouped_under (map_loop probe_ids keys) k p ↔
  p ∈ probe_ids ∧ resolved keys p = Some k.
Proof.
  unfold map_loop. rewrite fold_map_probe_grouped.
  unfold grouped_under, initial; simpl. split; [|by right].
  intros [(l & Hl & _)|H]; [|done]. by rewrite lookup_empty in Hl.
Qed.

Lemma map_loop_unmapped keys probe_ids p :
  p ∈ unmapped_probes (map_loop probe_ids keys) ↔
  p ∈ probe_ids ∧ resolved keys p = None.
Proof.
  unfold map_loop. rewrite fold_map_probe_unmapped.
  unfold initial; simpl. rewrite elem_of_nil. naive_solver.
Qed.

(** The fallback returns a known id, a prefix of the probe id, and the
    first such in the dictionary's order. *)
Lemma first_prefix_key_spec keys p k :
  first_prefix_key keys p = Some k ↔
  ∃ before after, keys = before ++ k :: after
    ∧ Str.startswith p k = true
    ∧ ∀ k', k' ∈ before → Str.startswith p k' = false.
Proof.
  unfold first_prefix_key. induction keys as [|a l IH]; simpl.
  - split; [done|]. intros (b & a & H & _). by destruct b.
  - destruct (Str.startswith p a) eqn:E.
    + split.
      * intros [= <-]. exists [], l. split_and!; [done..|].
        intros k' Hk'. by apply elem_of_nil in Hk'.
      * intros (b & a' & H & Hk & Hb). destruct b as [|b0 b]; simplify_eq/=.
        { done. }
        rewrite (Hb b0) in E; [done|]. apply elem_of_cons; by left.
    + rewrite IH. split.
      * intros (b & a' & -> & Hk & Hb). exists (a :: b), a'. split_and!; [done..|].
        intros k' [->|?]%elem_of_cons; auto.
      * intros (b & a' & H & Hk & Hb). destruct b as [|b0 b]; simplify_eq/=.
        { congruence. }
        exists b, a'. split_and!; [done..|].
        intros k' Hk'. apply Hb. apply elem_of_cons; by right.
Qed.

Lemma first_prefix_key_None keys p :
  first_prefix_key keys p = None ↔ ∀ k, k ∈ keys → Str.startswith p k = false.
Proof.
  unfold first_prefix_key. induction keys as [|a l IH]; simpl.
  - split; [|done]. intros _ k Hk. by apply elem_of_nil in Hk.
  - destruct (Str.startswith p a) eqn:E.
    + split; [done|]. intros H. rewrite H in E; [done|]. apply elem_of_cons; by left.
    + rewrite IH. split.
      * intros H k [->|?]%elem_of_cons; auto.
      * intros H k Hk. apply H. apply elem_of_cons; by right.
Qed.

Lemma map_probes_to_pav_Some hq pav p :
  p ∈ (hq.*1) → map_probes_to_pav hq pav = Some (map_loop hq.*1 pav.*1).
Proof.
  intros Hp. unfold map_probes_to_pav.
  destruct hq; [by apply elem_of_nil in Hp|]. by case_decide.
Qed.

(** C1, as stated, fails: the probe id ["a_b-1_x"] matches the pattern with
    candidate ["a_b-1"], which is not a known region id, while the known
    region id ["a"] is a prefix of the probe id.  The code files the probe
    under the unknown candidate and not under the known prefix. *)
Lemma C1_unknown_candidate_kept :
  ∃ st, map_probes_to_pav [("a_b-1_x", "ACGT")] [("a", "C")] = Some st
    ∧ re_match_group1 "a_b-1_x" = Some "a_b-1"
    ∧ ("a_b-1" ∉ [("a", "C")].*1)
    ∧ first_prefix_key [("a", "C")].*1 "a_b-1_x" = Some "a"
    ∧ grouped_under st "a_b-1" "a_b-1_x"
    ∧ ¬ grouped_under st "a" "a_b-1_x".
Proof.
  eexists. split; [reflexivity|]. split; [reflexivity|].
  split; [simpl; rewrite list_elem_of_singleton; discriminate|].
  split; [reflexivity|].
  rewrite !map_loop_grouped. split.
  - split; [apply list_elem_of_here|reflexivity].
  - intros [_ H]. vm_compute in H. discriminate H.
Qed.

(** C1, amended: for every probe id of the input, when the id starts with
    [<token>_<token>-<digits>_] (the pattern matches) the probe is filed under
    the captured candidate region id and under no other, whether or not the
    candidate is a known region id; when the pattern does not match, the
    probe is filed under exactly the first known region id (in the
    dictionary's order) that is a prefix of the probe id, so a probe resolved
    by the fallback is always filed under a known region id. *)
Theorem C1_resolution hq pav p :
  p ∈ (hq.*1) →
  ∃ st, map_probes_to_pav hq pav = Some st
    ∧ (∀ c, re_match_group1 p = Some c ↔ pav_shape p c)
    ∧ (∀ c, pav_shape p c → ∀ k, grouped_under st k p ↔ k = c)
    ∧ ((∀ c, ¬ pav_shape p c) →
         ∀ k, grouped_under st k p ↔
           ∃ before after, pav.*1 = before ++ k :: after
             ∧ Str.startswith p k = true
             ∧ ∀ k', k' ∈ before → Str.startswith p k' = false)
    ∧ ((∀ c, ¬ pav_shape p c) → ∀ k, grouped_under st k p → k ∈ (pav.*1)).
Proof.
  intros Hp. eexists. split; [by eapply map_probes_to_pav_Some|].
  assert ((∀ c, ¬ pav_shape p c) → re_match_group1 p = None) as Hnone.
  { intros Hno. destruct (re_match_group1 p) as [c|] eqn:E; [|done].
    by apply re_match_group1_spec, Hno in E. }
  split_and!.
  - apply re_match_group1_spec.
  - intros c Hc%re_match_group1_spec k. rewrite map_loop_grouped.
    unfold resolved. rewrite Hc. naive_solver.
  - intros Hn%Hnone k. rewrite map_loop_grouped. unfold resolved. rewrite Hn.
    rewrite first_prefix_key_spec. naive_solver.
  - intros Hn%Hnone k. rewrite map_loop_grouped. unfold resolved. rewrite Hn.
    intros [_ (b & a & -> & _)%first_prefix_key_spec].
    apply elem_of_app; right. apply elem_of_cons; by left.
Qed.

Lemma C1_resolution_witness :
  ∃ st, map_probes_to_pav
          [("1_qLA2-1_upstream_1_pos0", "ACGT"); ("chrX_p", "A")]
          [("chr", "A"); ("chrX", "C")] = Some st
    ∧ (∀ c, re_match_group1 "chrX_p" = Some c ↔ pav_shape "chrX_p" c)
    ∧ (∀ c, pav_shape "chrX_p" c → ∀ k, grouped_under st k "chrX_p" ↔ k = c)
    ∧ ((∀ c, ¬ pav_shape "chrX_p" c) →
         ∀ k, grouped_under st k "chrX_p" ↔
           ∃ before after, [("chr", "A"); ("chrX", "C")].*1 = before ++ k :: after
             ∧ Str.startswith "chrX_p" k = true
             ∧ ∀ k', k' ∈ before → Str.startswith "chrX_p" k' = false)
    ∧ ((∀ c, ¬ pav_shape "chrX_p" c) →
         ∀ k, grouped_under st k "chrX_p" → k ∈ ([("chr", "A"); ("chrX", "C")].*1)).
Proof.
  apply (C1_resolution
           [("1_qLA2-1_upstream_1_pos0", "ACGT"); ("chrX_p", "A")]
           [("chr", "A"); ("chrX", "C")] "chrX_p").
  simpl. repeat constructor.
Defined.

(** The two ways of resolution, run: the first probe id matches the pattern,
    the second is resolved by the prefix scan, the third by neither. *)
Lemma map_probes_to_pav_run :
  ∃ st, map_probes_to_pav
          [("1_qLA2-1_upstream_1_pos0", "ACGT"); ("chrX_p", "A"); ("foo", "A")]
          [("chr", "A"); ("chrX", "C")] = Some st
    ∧ mapping_results st !! "1_qLA2-1" = Some ["1_qLA2-1_upstream_1_pos0"]
    ∧ mapping_results st !! "chr" = Some ["chrX_p"]
    ∧ mapping_results st !! "chrX" = None
    ∧ unmapped_probes st = ["foo"].
Proof. eexists. split_and!; by vm_compute. Qed.

(** C8: every probe id of the input is, after mapping, in exactly one of the
    region grouping and the unmapped list (never both, never neither), and
    a grouped probe is filed under exactly one region id. *)
Theorem C8_partition hq pav p :
  p ∈ (hq.*1) →
  ∃ st, map_probes_to_pav hq pav = Some st
    ∧ ((in_grouping st p ∧ p ∉ unmapped_probes st)
       ∨ (¬ in_grouping st p ∧ p ∈ unmapped_probes st))
    ∧ (∀ k1 k2, grouped_under st k1 p → grouped_under st k2 p → k1 = k2).
Proof.
  intros Hp. eexists. split; [by eapply map_probes_to_pav_Some|].
  unfold in_grouping. setoid_rewrite map_loop_grouped.
  rewrite map_loop_unmapped. split.
  - destruct (resolved pav.*1 p) as [k|] eqn:E.
    + left. split; [by exists k|]. intros [_ ?]; congruence.
    + right. split; [|done]. intros (k & _ & ?); congruence.
  - intros k1 k2 [_ H1] [_ H2]. congruence.
Qed.

Lemma C8_partition_witness :
  ∃ st, map_probes_to_pav
          [("1_qLA2-1_upstream_1_pos0", "ACGT"); ("foo", "A"); ("chrX_p", "A")]
          [("chr", "A"); ("chrX", "C")] = Some st
    ∧ ((in_grouping st "foo" ∧ "foo" ∉ unmapped_probes st)
       ∨ (¬ in_grouping st "foo" ∧ "foo" ∈ unmapped_probes st))
    ∧ (∀ k1 k2, grouped_under st k1 "foo" → grouped_under st k2 "foo" → k1 = k2).
Proof.
  apply (C8_partition
           [("1_qLA2-1_upstream_1_pos0", "ACGT"); ("foo", "A"); ("chrX_p", "A")]
           [("chr", "A"); ("chrX", "C")] "foo").
  simpl. repeat constructor.
Defined.

(** Probe ids that are not in the input are in neither structure. *)
Lemma map_loop_only_inputs probe_ids keys p :
  p ∉ probe_ids →
  ¬ in_grouping (map_loop probe_ids keys) p ∧ p ∉ unmapped_probes (map_loop probe_ids keys).
Proof.
  intros Hp. unfold in_grouping. setoid_rewrite map_loop_grouped.
  rewrite map_loop_unmapped. naive_solver.
Qed.

End MapperFacts.

(** ** What one hit does to the locals *)

Section HitEffects.
Import Scorer Py.
Context {N : PyNum}.

Abbreviation locals := (Locals.t pyfloat).

Ltac run_body :=
  repeat first
    [ progress (cbv [mbind mret M_bind M_ret lift index raise modify get try_except
                     nident caught_by_inner]; simpl)
    | match goal with
      | |- context [match ?x with _ => _ end] =>
          lazymatch x with
          | context [match _ with _ => _ end] => fail
          | _ => destruct x eqn:?; simpl; try done
          end
      end ].

Lemma short_columns_skipped (l : list string) :
  length l < 5 → (length l <? 12) = true.
Proof. intros. apply Nat.ltb_lt. lia. Qed.

Lemma score_hit_effect probe_length hit v :
  score_hit probe_length hit v = apply_effect (classify probe_length hit) v.
Proof.
  unfold score_hit, classify, hit_term.
  destruct (columns hit) as [|p0 [|p1 [|p2 [|p3 [|p4 rest]]]]] eqn:Hc;
    try (rewrite short_columns_skipped by (simpl; lia); done).
  destruct (length _ <? 12) eqn:Hlen; [done|].
  run_body.
Qed.

Lemma static_score_hit_effect probe_length hit v :
  static_score_hit probe_length hit v = apply_effect (classify probe_length hit) v.
Proof.
  unfold static_score_hit, classify, hit_term.
  destruct (columns hit) as [|p0 [|p1 [|p2 [|p3 [|p4 rest]]]]] eqn:Hc;
    try (rewrite short_columns_skipped by (simpl; lia); done).
  destruct (length _ <? 12) eqn:Hlen; [done|].
  run_body.
Qed.

Lemma for_each_score_hit probe_length hits v :
  for_each (score_hit probe_length) hits v = run_effects (classify probe_length <$> hits) v.
Proof.
  revert v. induction hits as [|hit hits IH]; intros v; [done|].
  simpl. unfold mbind, M_bind. rewrite score_hit_effect.
  destruct (apply_effect _ v) as [v' [e|[]]]; [done|]. apply IH.
Qed.

Lemma for_each_static_score_hit probe_length hits v :
  for_each (static_score_hit probe_length) hits v
  = run_effects (classify probe_length <$> hits) v.
Proof.
  revert v. induction hits as [|hit hits IH]; intros v; [done|].
  simpl. unfold mbind, M_bind. rewrite static_score_hit_effect.
  destruct (apply_effect _ v) as [v' [e|[]]]; [done|]. apply IH.
Qed.

Lemma score_hits_effects probe_length hits :
  score_hits probe_length hits = run_effects (classify probe_length <$> hits) initial.
Proof. apply for_each_score_hit. Qed.

Lemma run_effects_app effs1 effs2 v :
  run_effects (effs1 ++ effs2) v =
  match run_effects effs1 v with
  | (v', inr _) => run_effects effs2 v'
  | r => r
  end.
Proof.
  revert v. induction effs1 as [|eff effs1 IH]; intros v; [done|].
  simpl. destruct (apply_effect eff v) as [v' [e|[]]]; [done|]. apply IH.
Qed.

Lemma calculate_probe_score_finish probes probe_id hits :
  calculate_probe_score probes probe_id hits
  = finish probes probe_id join_sorted
      (score_hits (String.length (default "" (probes !! probe_id))) hits).
Proof.
  unfold calculate_probe_score, finish, score_hits, mbind, M_bind.
  destruct (for_each _ hits initial) as [v [e|[]]]; done.
Qed.

Lemma apply_effect_with_targets X eff v :
  apply_effect eff (with_targets X v) =
  (with_targets X (apply_effect eff v).1, (apply_effect eff v).2).
Proof.
  assert (∀ c M, {[c]} ∪ (X ∪ M) = X ∪ ({[c]} ∪ M) :> gset string) as Hset
    by (intros; set_solver).
  destruct v as [raw total perfect M].
  destruct eff as [|c|c [t|]|c [t|] []|c e]; simpl;
    unfold with_targets, add_chromosome, add_raw, incr_total, incr_perfect; simpl;
    by rewrite ?Hset.
Qed.

Lemma run_effects_with_targets X effs v :
  run_effects effs (with_targets X v) =
  (with_targets X (run_effects effs v).1, (run_effects effs v).2).
Proof.
  revert v. induction effs as [|eff effs IH]; intros v; [done|].
  simpl. rewrite apply_effect_with_targets.
  destruct (apply_effect eff v) as [v' [e|[]]]; simpl; [done|]. apply IH.
Qed.

Lemma run_effects_total effs v v' :
  run_effects effs v = (v', inr tt) →
  Locals.total_hits v' = Locals.total_hits v + length (filter is_counted effs).
Proof.
  revert v. induction effs as [|eff effs IH]; intros v; simpl.
  - intros [= <-]. lia.
  - destruct (apply_effect eff v) as [v1 [e|[]]] eqn:E; [done|].
    intros H%IH. rewrite H. clear H IH.
    destruct v as [raw total perfect M].
    destruct eff as [|c|c [t|]|c [t|] []|c e]; simplify_eq/=;
      rewrite ?filter_cons_True, ?filter_cons_False by (simpl; auto); simpl; lia.
Qed.

Lemma run_effects_raw_unchanged effs v r :
  Forall (λ eff, effect_term eff = None) effs →
  run_effects effs v = r →
  Locals.raw_non_specificity r.1 = Locals.raw_non_specificity v.
Proof.
  intros Hall <-. revert v. induction Hall as [|eff effs Hnone _ IH]; intros v; [done|].
  simpl. destruct (apply_effect eff v) as [v1 [e|[]]] eqn:E.
  - destruct eff; simplify_eq/=; done.
  - rewrite IH. destruct v. destruct eff as [|c|c t|c t []|c e]; simplify_eq/=; done.
Qed.

Lemma run_effects_no_fatal effs v :
  Forall (λ eff, is_fatal eff = false) effs → (run_effects effs v).2 = inr tt.
Proof.
  intros Hall. revert v. induction Hall as [|eff effs Hnf _ IH]; intros v; [done|].
  simpl. destruct (apply_effect eff v) as [v1 [e|[]]] eqn:E; [|apply IH].
  destruct eff; simplify_eq/=.
Qed.

(** With [probe_length = 0] no hit adds a term. *)
Lemma classify_zero_no_term hit : effect_term (classify 0 hit) = None.
Proof.
  unfold classify, hit_term. simpl.
  repeat case_match; simplify_eq/=; done.
Qed.

Lemma score_hits_zero_raw hits :
  Locals.raw_non_specificity (score_hits 0 hits).1 = fconst 0.
Proof.
  erewrite run_effects_raw_unchanged; [| |symmetry; apply score_hits_effects]; [done|].
  apply Forall_fmap, Forall_forall. intros hit _. apply classify_zero_no_term.
Qed.

Lemma score_hits_total probe_length hits v :
  score_hits probe_length hits = (v, inr tt) →
  Locals.total_hits v = length (filter (λ hit, counted probe_length hit) hits).
Proof.
  rewrite score_hits_effects. intros H%run_effects_total. rewrite H. simpl.
  clear. induction hits as [|hit hits IH]; [done|].
  rewrite fmap_cons, !filter_cons. unfold counted at 1.
  repeat case_decide; simpl; try by rewrite IH.
  all: unfold counted in *; tauto.
Qed.

End HitEffects.

(** ** The static worker and the method *)

Section BatchAgreement.
Import Scorer Py.
Context {N : PyNum}.

Lemma static_join_sorted_eq (s : gset string) : static_join_sorted s = join_sorted s.
Proof.
  unfold static_join_sorted, join_sorted. case_decide as Hs; [|done].
  subst s. by rewrite elements_empty.
Qed.

Lemma make_record_static probes pid seq v :
  make_record probes pid seq static_join_sorted v
  = make_record probes pid seq join_sorted v.
Proof. unfold make_record. cbv [mbind M_bind get]. by rewrite static_join_sorted_eq. Qed.

Lemma static_score_probe_eq probes results pid hits :
  static_score_probe probes results (pid, hits)
  = results ++ option_list (calculate_probe_score probes pid hits).
Proof.
  unfold static_score_probe, calculate_probe_score, mbind, M_bind.
  rewrite for_each_static_score_hit, for_each_score_hit.
  destruct (run_effects _ initial) as [v [e|[]]]; simpl.
  - by rewrite app_nil_r.
  - rewrite make_record_static.
    destruct (make_record _ _ _ _ v) as [v' [e|r]]; simpl; [by rewrite app_nil_r|done].
Qed.

Lemma static_batch_from probes batch results :
  fold_left (static_score_probe probes) batch results
  = results ++ omap (λ item, calculate_probe_score probes item.1 item.2) batch.
Proof.
  revert results. induction batch as [|[pid hits] batch IH]; intros results.
  - simpl. by rewrite app_nil_r.
  - cbn [fold_left]. rewrite IH, static_score_probe_eq. simpl.
    destruct (calculate_probe_score probes pid hits); simpl.
    + by rewrite <- app_assoc.
    + by rewrite app_nil_r.
Qed.

Lemma method_batch_from probes batch results :
  fold_left (λ results '(probe_id, hits),
               match calculate_probe_score probes probe_id hits with
               | Some result => results ++ [result]
               | None => results
               end) batch results
  = results ++ omap (λ item, calculate_probe_score probes item.1 item.2) batch.
Proof.
  revert results. induction batch as [|[pid hits] batch IH]; intros results; simpl.
  - by rewrite app_nil_r.
  - rewrite IH. destruct (calculate_probe_score probes pid hits); simpl; [|done].
    by rewrite <- app_assoc.
Qed.

Lemma static_batch_omap probes batch :
  static_calculate_probes_batch probes batch
  = omap (λ item, calculate_probe_score probes item.1 item.2) batch.
Proof. unfold static_calculate_probes_batch. by rewrite static_batch_from. Qed.

(** C9: for every probe dictionary and every list of [(probe_id, hits)] pairs,
    [static_calculate_probes_batch] returns exactly the score records that
    [calculate_probe_score] returns on the pairs, in the same order (a pair
    on which the method returns [None] gives no record in either), which is
    also the list that [calculate_probes_batch] returns. *)
Theorem C9_static_worker_agrees (probes : gmap string string)
    (batch : list (string * list string)) :
  static_calculate_probes_batch probes batch
  = omap (λ item, calculate_probe_score probes item.1 item.2) batch
  ∧ static_calculate_probes_batch probes batch = calculate_probes_batch probes batch.
Proof.
  unfold static_calculate_probes_batch, calculate_probes_batch.
  by rewrite static_batch_from, method_batch_from.
Qed.

End BatchAgreement.

(** ** Malformed hit records *)

Section MalformedHits.
Import Scorer Py.
Context {N : PyNum}.

Lemma classify_short probe_length hit :
  short_hit hit → classify probe_length hit = Skipped.
Proof.
  unfold short_hit, classify. intros H%Nat.ltb_lt. rewrite H.
  by repeat case_match.
Qed.

Lemma classify_unparsable probe_length hit :
  unparsable_numbers hit →
  ∃ target, columns hit !! 1 = Some target ∧ classify probe_length hit = TargetOnly target.
Proof.
  unfold unparsable_numbers, classify. intros (Hlen & p2 & p3 & H2 & H3 & Hp).
  destruct (columns hit) as [|p0 [|p1 [|p2' [|p3' [|p4 rest]]]]]; simpl in *; try lia.
  simplify_eq. exists p1. split; [done|].
  destruct (_ <? 12) eqn:E; [apply Nat.ltb_lt in E; lia|].
  destruct Hp as [-> | ->]; [done|]. by destruct (float_of_str p2).
Qed.

Lemma score_hits_drop_skipped probe_length hit h1 h2 :
  classify probe_length hit = Skipped →
  score_hits probe_length (h1 ++ hit :: h2) = score_hits probe_length (h1 ++ h2).
Proof.
  intros Hc. rewrite !score_hits_effects, !fmap_app, fmap_cons, Hc, !run_effects_app.
  by destruct (run_effects _ initial) as [v [e|[]]].
Qed.

Lemma score_hits_drop_target_only probe_length hit target h1 h2 :
  classify probe_length hit = TargetOnly target →
  ∃ X, score_hits probe_length (h1 ++ hit :: h2)
       = (with_targets X (score_hits probe_length (h1 ++ h2)).1,
          (score_hits probe_length (h1 ++ h2)).2)
     ∧ ((score_hits probe_length h1).2 = inr tt → X = {[target]}).
Proof.
  intros Hc. rewrite !score_hits_effects, !fmap_app, fmap_cons, Hc, !run_effects_app.
  destruct (run_effects _ initial) as [v [e|[]]]; simpl.
  - exists ∅. split; [|done]. unfold with_targets. destruct v; simpl.
    by rewrite (left_id_L ∅ (∪)).
  - exists {[target]}. split; [|done].
    change (add_chromosome target v) with (with_targets {[target]} v).
    apply run_effects_with_targets.
Qed.

Lemma with_targets_empty (v : Locals.t pyfloat) : with_targets ∅ v = v.
Proof. destruct v. unfold with_targets. simpl. by rewrite (left_id_L ∅ (∪)). Qed.

Lemma with_targets_twice X Y (v : Locals.t pyfloat) :
  with_targets X (with_targets Y v) = with_targets (X ∪ Y) v.
Proof. unfold with_targets. simpl. by rewrite (assoc_L (∪)). Qed.

(** Dropped records only add targets. *)
Lemma run_effects_dropped probe_length hits :
  Forall dropped hits →
  ∃ X, (hits = [] → X = ∅)
    ∧ ∀ v, run_effects (classify probe_length <$> hits) v = (with_targets X v, inr tt).
Proof.
  induction 1 as [|hit hits Hd _ (X & HX & IH)].
  - exists ∅. split; [done|]. intros v. by rewrite with_targets_empty.
  - destruct Hd as [Hs|Hu].
    + exists X. split; [done|]. intros v. rewrite fmap_cons.
      rewrite (classify_short _ _ Hs). apply IH.
    + destruct (classify_unparsable probe_length _ Hu) as (target & _ & Hc).
      exists (X ∪ {[target]}). split; [done|]. intros v. rewrite fmap_cons, Hc.
      cbn [run_effects apply_effect].
      change (add_chromosome target v) with (with_targets {[target]} v).
      by rewrite IH, with_targets_twice.
Qed.

(** C2, amended: a hit record with fewer than 12 columns changes nothing in
    the result; a record with 12 columns or more whose percent identity or
    alignment length does not parse does not count toward [total_hits] and
    adds nothing to [raw_non_specificity] or [perfect_matches] (nor changes
    the score), but its target (column 2) is among the matched targets of the
    result. *)
Theorem C2_malformed_hits (probes : gmap string string) (pid hit : string)
    (h1 h2 : list string) :
  dropped hit →
  match calculate_probe_score probes pid (h1 ++ hit :: h2),
        calculate_probe_score probes pid (h1 ++ h2) with
  | Some r', Some r =>
      same_numbers r' r
      ∧ (short_hit hit → r' = r)
      ∧ (unparsable_numbers hit →
           ∃ target M, columns hit !! 1 = Some target
             ∧ matched_chromosomes r = join_sorted M
             ∧ matched_chromosomes r' = join_sorted ({[target]} ∪ M))
  | None, None => True
  | _, _ => False
  end.
Proof.
  set (pl := String.length (default "" (probes !! pid))).
  intros [Hs|Hu].
  - rewrite !calculate_probe_score_finish.
    rewrite (score_hits_drop_skipped _ _ _ _ (classify_short _ _ Hs)).
    destruct (finish _ _ _ _) as [r|]; [|done].
    split_and!; [done|done|]. unfold short_hit, unparsable_numbers in *. lia.
  - destruct (classify_unparsable pl _ Hu) as (target & Ht & Hc).
    destruct (score_hits_drop_target_only _ _ _ h1 h2 Hc) as (X & HX & Hfull).
    rewrite !calculate_probe_score_finish. fold pl. rewrite HX.
    rewrite score_hits_effects, fmap_app, run_effects_app in *.
    rewrite <- score_hits_effects in *.
    destruct (score_hits pl h1) as [v1 [e|[]]] eqn:E1; simpl in *; [done|].
    specialize (Hfull eq_refl) as ->.
    destruct (run_effects _ v1) as [v [e|[]]]; simpl; [done|].
    unfold make_record. cbv [mbind M_bind get lift mret M_ret raise]. simpl.
    destruct (formula_score _) as [f|]; simpl; [|done].
    split_and!; [done| |].
    + unfold short_hit, unparsable_numbers in *. lia.
    + intros _. by exists target, (Locals.matched_chromosomes v).
Qed.

End MalformedHits.

(** ** The scorer on binary64, with any [float()] and [int()] *)

Section Binary64Scores.
Import Scorer Py.
Import (notations) PrimFloat.
Context (py_float : string → option Binary64.t) (py_int : string → option Z).
#[local] Hint Extern 0 PyNum => exact (Binary64.num py_float py_int) : typeclass_instances.

Lemma b64_nident_100_20 (v : Locals.t pyfloat) : nident 100%float 20 v = (v, inr 20%float).
Proof. vm_compute. reflexivity. Qed.

Lemma b64_hit_term_20 : hit_term 20 100%float 20 = inr (Some 1%float).
Proof. vm_compute. reflexivity. Qed.

Lemma b64_formula_zero : formula_score (fconst 0) = Some 100%float.
Proof. vm_compute. reflexivity. Qed.

Lemma b64_div_100 (x : Binary64.t) : fdiv x (fconst 100) = Some (PrimFloat.div x 100%float).
Proof. reflexivity. Qed.

Lemma columns_at_least_5 (l : list string) target p2 p3 p4 :
  l !! 1 = Some target → l !! 2 = Some p2 → l !! 3 = Some p3 → l !! 4 = Some p4 →
  ∃ p0 rest, l = p0 :: target :: p2 :: p3 :: p4 :: rest.
Proof.
  destruct l as [|p0 [|p1 [|p2' [|p3' [|p4' rest]]]]]; simpl; try done.
  intros. simplify_eq. eauto.
Qed.

(** C3: for a probe of length 20 and a hit list with exactly one retained
    hit, a 12-column record with percent identity 100, alignment length 20
    and 0 mismatches (every other record of the list being dropped), the
    scorer computes [nident = 20], the term [20 / 20 = 1.0],
    [raw_specificity = 0.5] and the final score 50.0, and it returns score
    50.0, raw_non_specificity 1.0, one perfect match and one hit in total. *)
Theorem C3_worked_scenario (probes : gmap string string) pid seq
    (before after : list string) hit target p2 p3 p4 :
  probes !! pid = Some seq → String.length seq = 20 →
  Forall dropped before → Forall dropped after →
  12 ≤ length (columns hit) →
  columns hit !! 1 = Some target → columns hit !! 2 = Some p2 →
  columns hit !! 3 = Some p3 → columns hit !! 4 = Some p4 →
  py_float p2 = Some 100%float → py_int p3 = Some 20%Z → py_int p4 = Some 0%Z →
  (∀ v, nident 100%float 20 v = (v, inr 20%float))
  ∧ classify 20 hit = Counted target (Some 1%float) true
  ∧ raw_specificity_score (fadd (fconst 0) 1%float) = Some 0.5%float
  ∧ formula_score (fadd (fconst 0) 1%float) = Some 50%float
  ∧ ∃ r others,
      calculate_probe_score probes pid (before ++ hit :: after) = Some r
      ∧ probe_id r = pid ∧ score r = 50%float ∧ raw_non_specificity r = 1%float
      ∧ perfect_matches r = 1 ∧ total_hits r = 1
      ∧ probe_length r = 20 ∧ in_fasta r = true
      ∧ matched_chromosomes r = join_sorted (others ∪ {[target]})
      ∧ (before = [] → after = [] → others = ∅ ∧ matched_chromosomes r = target).
Proof.
  intros Hseq Hlen Hbefore Hafter H12 H1 H2 H3 H4 Hpident Hlength Hmism.
  destruct (columns_at_least_5 _ _ _ _ _ H1 H2 H3 H4) as (p0 & rest & Hc).
  assert (classify 20 hit = Counted target (Some 1%float) true) as Hclass.
  { unfold classify. rewrite Hc. rewrite <- Hc.
    destruct (_ <? 12) eqn:E; [apply Nat.ltb_lt in E; lia|].
    change (float_of_str p2) with (py_float p2).
    change (int_of_str p3) with (py_int p3). change (int_of_str p4) with (py_int p4).
    rewrite Hpident, Hlength, Hmism, b64_hit_term_20. reflexivity. }
  split_and!; [apply b64_nident_100_20|done|by vm_compute|by vm_compute|].
  destruct (run_effects_dropped 20 before Hbefore) as (X & HX & Hrun1).
  destruct (run_effects_dropped 20 after Hafter) as (Y & HY & Hrun2).
  exists (ScoreRecord pid 50%float 1%float 1 1
            (join_sorted ((Y ∪ X) ∪ {[target]})) 20 true), (Y ∪ X).
  split.
  - rewrite calculate_probe_score_finish, score_hits_effects, Hseq. simpl default.
    rewrite Hlen, fmap_app, fmap_cons, run_effects_app, Hrun1, Hclass.
    cbn [run_effects]. rewrite apply_effect_with_targets. cbn [apply_effect fst snd].
    rewrite Hrun2, with_targets_twice.
    unfold finish, make_record. cbv [mbind M_bind get lift mret M_ret].
    rewrite Hseq. simpl default.
    assert (bool_decide (is_Some (Some seq)) = true) as ->
      by (apply bool_decide_eq_true; eauto).
    assert (seq ≠ "") by (intros ->; done). case_decide; [done|].
    rewrite Hlen. simpl.
    by rewrite (right_id_L ∅ (∪)).
  - split_and!; try done. intros -> ->. rewrite (HX eq_refl), (HY eq_refl).
    split; [by rewrite (left_id_L ∅ (∪))|]. simpl.
    rewrite !(left_id_L ∅ (∪)).
    unfold join_sorted. by rewrite elements_singleton.
Qed.

Lemma b64_round_100 : fround (fconst 100) 2 = 100%float.
Proof. vm_compute. reflexivity. Qed.

Lemma b64_round_capped : fround (py_min (fconst 100) (fconst 30)) 2 = 30%float.
Proof. vm_compute. reflexivity. Qed.

Lemma b64_round_zero : fround (fconst 0) 4 = 0%float.
Proof. vm_compute. reflexivity. Qed.

(** With [probe_length = 0] only an alignment length too large for a float
    makes the loop body raise. *)
Lemma b64_classify_zero_fatal hit :
  is_fatal (classify 0 hit) = true →
  ∃ p3 len, columns hit !! 3 = Some p3 ∧ py_int p3 = Some len ∧ of_int len = None.
Proof.
  unfold classify, hit_term.
  destruct (columns hit) as [|p0 [|p1 [|p2 [|p3 [|p4 rest]]]]]; try done.
  destruct (_ <? 12); [done|].
  destruct (float_of_str p2) as [pident|]; [|done].
  destruct (int_of_str p3) as [len|] eqn:E3; [|done].
  rewrite b64_div_100. simpl.
  destruct (Binary64.int_to_float len) eqn:El; [by repeat case_match|].
  intros _. exists p3, len. done.
Qed.

(** A record whose three numbers parse runs to the end of the body. *)
Lemma b64_well_formed_counted hit target p2 p3 p4 pident len mismatches :
  12 ≤ length (columns hit) →
  columns hit !! 1 = Some target → columns hit !! 2 = Some p2 →
  columns hit !! 3 = Some p3 → columns hit !! 4 = Some p4 →
  py_float p2 = Some pident → py_int p3 = Some len → py_int p4 = Some mismatches →
  is_Some (of_int len) →
  counted 0 hit = true.
Proof.
  intros H12 H1 H2 H3 H4 Hp Hl Hm [l Hconv].
  destruct (columns_at_least_5 _ _ _ _ _ H1 H2 H3 H4) as (p0 & rest & Hc).
  unfold counted, classify, hit_term. rewrite Hc, <- Hc.
  destruct (_ <? 12) eqn:E; [apply Nat.ltb_lt in E; lia|].
  change (float_of_str p2) with (py_float p2).
  change (int_of_str p3) with (py_int p3). change (int_of_str p4) with (py_int p4).
  rewrite Hp, Hl, Hm, b64_div_100, Hconv. simpl. by destruct (PrimFloat.eqb _ _).
Qed.

Lemma b64_finish_Some probes pid hits r :
  calculate_probe_score probes pid hits = Some r →
  ∃ v final,
    score_hits (String.length (default "" (probes !! pid))) hits = (v, inr tt)
    ∧ formula_score (Locals.raw_non_specificity v) = Some final
    ∧ r = ScoreRecord pid
            (fround
               (let final := if Locals.total_hits v =? 0 then fconst 100 else final in
                if decide (default "" (probes !! pid) = "")
                then py_min final (fconst 30) else final) 2)
            (fround (Locals.raw_non_specificity v) 4)
            (Locals.perfect_matches v) (Locals.total_hits v)
            (join_sorted (Locals.matched_chromosomes v))
            (String.length (default "" (probes !! pid)))
            (bool_decide (is_Some (probes !! pid))).
Proof.
  rewrite calculate_probe_score_finish. unfold finish.
  destruct (score_hits _ hits) as [v [e|[]]]; [done|].
  unfold make_record. cbv [mbind M_bind get lift mret M_ret raise].
  destruct (formula_score _) as [final|] eqn:Hf; [|done].
  intros [= <-]. by exists v, final.
Qed.

(** C4, amended: a returned record with [total_hits = 0] has score 100.0 when
    the probe has a non-empty sequence in the universe, and 30.0 when it has
    none (or an empty one).  For a probe absent from the universe the scorer
    works with [probe_length = 0]: the hits that run through the loop body are
    counted in [total_hits] (every record whose three numbers parse is),
    [raw_non_specificity] stays 0.0, and the score is 30.0, hence at most
    30.0, whatever the hits; a record is returned unless an alignment length
    is too large to be converted to a float. *)
Theorem C4_score_overrides (probes : gmap string string) (pid : string)
    (hits : list string) :
  (∀ r, calculate_probe_score probes pid hits = Some r → total_hits r = 0 →
        score r = if decide (default "" (probes !! pid) = "")
                  then 30%float else 100%float)
  ∧ (probes !! pid = None →
       (∀ r, calculate_probe_score probes pid hits = Some r →
             probe_length r = 0 ∧ in_fasta r = false
             ∧ raw_non_specificity r = 0%float
             ∧ total_hits r = length (filter (λ hit, counted 0 hit) hits)
             ∧ score r = 30%float ∧ PrimFloat.leb (score r) 30%float = true)
       ∧ ((∀ hit p3 len, hit ∈ hits → columns hit !! 3 = Some p3 →
                         py_int p3 = Some len → is_Some (of_int len)) →
          is_Some (calculate_probe_score probes pid hits))
       ∧ (∀ hit target p2 p3 p4 pident len mismatches,
            12 ≤ length (columns hit) →
            columns hit !! 1 = Some target → columns hit !! 2 = Some p2 →
            columns hit !! 3 = Some p3 → columns hit !! 4 = Some p4 →
            py_float p2 = Some pident → py_int p3 = Some len →
            py_int p4 = Some mismatches → is_Some (of_int len) →
            counted 0 hit = true)).
Proof.
  split.
  - intros r (v & final & Hv & Hf & ->)%b64_finish_Some Hzero. simpl in *.
    rewrite Hzero. simpl. case_decide.
    + apply b64_round_capped.
    + apply b64_round_100.
  - intros Habsent. split; [|split]; [| |by apply b64_well_formed_counted].
    + intros r (v & final & Hv & Hf & ->)%b64_finish_Some.
      rewrite Habsent in *. change (String.length (default "" None)) with 0 in *.
      pose proof (score_hits_zero_raw hits) as Hraw.
      rewrite Hv in Hraw. cbn [fst] in Hraw.
      rewrite Hraw, b64_formula_zero in Hf. injection Hf as <-.
      cbn [probe_length in_fasta raw_non_specificity total_hits score].
      rewrite Hraw, (score_hits_total _ _ _ Hv).
      case_decide; [|done].
      assert (fround (py_min (if length (filter (λ hit, counted 0 hit) hits) =? 0
                              then fconst 100 else 100%float) (fconst 30)) 2
              = 30%float) as ->.
      { destruct (_ =? 0); vm_compute; reflexivity. }
      split_and!; try done; apply b64_round_zero.
    + intros Hconv. rewrite calculate_probe_score_finish, Habsent.
      change (String.length (default "" None)) with 0.
      pose proof (score_hits_zero_raw hits) as Hraw.
      pose proof (run_effects_no_fatal (classify 0 <$> hits) initial) as Hnf.
      rewrite <- score_hits_effects in Hnf.
      destruct (score_hits 0 hits) as [v o]. cbn [fst snd] in *.
      assert (o = inr ()) as ->.
      { apply Hnf, Forall_fmap, Forall_forall. intros hit Hin. simpl.
        destruct (is_fatal (classify 0 hit)) eqn:E; [|done].
        apply b64_classify_zero_fatal in E as (p3 & len & H3 & Hl & Hnone).
        destruct (Hconv hit p3 len Hin H3 Hl) as [x Hx]. congruence. }
      unfold finish, make_record. cbv [mbind M_bind get lift mret M_ret raise].
      rewrite Hraw, b64_formula_zero. eauto.
Qed.

End Binary64Scores.

(** ** Batch Scheduler: chunks *)

Section Chunks.
Import Scorer.
Context {A : Type}.
Implicit Types (l : list A) (chunk_size : nat).

Lemma chunks_concat l chunk_size n :
  concat ((λ i, slice l i (i + chunk_size)) <$> ((λ k, 0 + k * chunk_size) <$> seq 0 n))
  = take (n * chunk_size) l.
Proof.
  induction n as [|n IH]; [by rewrite take_0|].
  rewrite seq_S, !fmap_app, concat_app, IH. simpl.
  unfold slice. rewrite app_nil_r.
  replace (n * chunk_size + chunk_size - n * chunk_size) with chunk_size by lia.
  rewrite take_take_drop. f_equal. lia.
Qed.

Lemma chunk_count_covers (len chunk_size : nat) :
  0 < chunk_size →
  let n := (len - 0 + chunk_size - 1) / chunk_size in
  len ≤ n * chunk_size ∧ (n - 1) * chunk_size < len + (if len =? 0 then 1 else 0)
  ∧ (len = 0 → n = 0).
Proof.
  intros Hc n.
  pose proof (Nat.div_mod (len - 0 + chunk_size - 1) chunk_size ltac:(lia)) as Hdm.
  pose proof (Nat.mod_upper_bound (len - 0 + chunk_size - 1) chunk_size ltac:(lia)) as Hm.
  fold n in Hdm.
  assert (len = 0 → n = 0) as Hz.
  { intros ->. subst n. apply Nat.div_small. lia. }
  split_and!; [nia| |done].
  destruct (len =? 0) eqn:E.
  - apply Nat.eqb_eq in E. rewrite (Hz E). simpl. lia.
  - apply Nat.eqb_neq in E. destruct n; [simpl; lia|]. simpl. nia.
Qed.

(** The chunks are contiguous, their concatenation is the list, every chunk
    but the last has [chunk_size] elements, and no chunk is empty or longer. *)
Lemma batches_spec l chunk_size :
  0 < chunk_size →
  ∃ bs, batches chunk_size l = inr bs
    ∧ concat bs = l
    ∧ (∀ k b, bs !! k = Some b → S k < length bs → length b = chunk_size)
    ∧ (∀ k b, bs !! k = Some b → 0 < length b ≤ chunk_size)
    ∧ (∀ k b, bs !! k = Some b → b = take chunk_size (drop (k * chunk_size) l)).
Proof.
  intros Hc. unfold batches, py_range.
  destruct (chunk_size =? 0) eqn:E; [apply Nat.eqb_eq in E; lia|]. clear E.
  destruct (chunk_count_covers (length l) chunk_size Hc) as (Hcover & Hlast & Hzero).
  set (n := (length l - 0 + chunk_size - 1) / chunk_size) in *.
  eexists. split; [reflexivity|].
  assert (∀ k b,
    ((λ i, slice l i (i + chunk_size)) <$> ((λ k, 0 + k * chunk_size) <$> seq 0 n)) !! k
      = Some b →
    k < n ∧ b = take chunk_size (drop (k * chunk_size) l)) as Hlookup.
  { intros k b Hk. rewrite !list_lookup_fmap in Hk.
    destruct (seq 0 n !! k) as [j|] eqn:Hj; [|done].
    apply lookup_seq in Hj as [-> Hlt]. simpl in Hk. injection Hk as <-.
    split; [done|]. unfold slice. f_equal. lia. }
  split_and!.
  - rewrite chunks_concat. apply take_ge. lia.
  - intros k b Hk Hnext. rewrite !length_fmap, length_seq in Hnext.
    apply Hlookup in Hk as [_ ->].
    rewrite length_take, length_drop.
    destruct (length l =? 0) eqn:E; [apply Nat.eqb_eq in E; specialize (Hzero E); lia|].
    nia.
  - intros k b Hk. apply Hlookup in Hk as [Hlt ->].
    rewrite length_take, length_drop.
    destruct (length l =? 0) eqn:E; [apply Nat.eqb_eq in E; specialize (Hzero E); lia|].
    nia.
  - intros k b Hk. by apply Hlookup in Hk as [_ ->].
Qed.

End Chunks.

(** ** Batch Scheduler: merge and sort *)

Section Merge.
Import Scorer.
Context {N : PyNum}.
Implicit Types (l : list (score_record pyfloat)).

Lemma insert_desc_perm x l : insert_desc x l ≡ₚ x :: l.
Proof.
  induction l as [|y l IH]; simpl; [done|].
  destruct (fltb _ _); [|done]. rewrite IH. apply Permutation_swap.
Qed.

Lemma sort_desc_perm l : sort_desc l ≡ₚ l.
Proof.
  induction l as [|x l IH]; simpl; [done|]. by rewrite insert_desc_perm, IH.
Qed.

Lemma collect_from (probes : gmap string string)
    (bs : list (list (string * list string))) (completion : list nat)
    (failed : nat → bool) (scores : list (score_record pyfloat)) :
  fold_left (λ scores batch_idx,
               if failed batch_idx then scores
               else scores ++ static_calculate_probes_batch probes (bs !!! batch_idx))
            completion scores
  = scores ++ (completion ≫= delivered probes bs failed).
Proof.
  revert scores. induction completion as [|idx completion IH]; intros scores; simpl.
  - by rewrite app_nil_r.
  - rewrite IH. unfold delivered at 2.
    destruct (failed idx); simpl; [done|].
    by rewrite static_batch_omap, <- app_assoc.
Qed.

Lemma collect_delivered probes bs completion failed :
  collect probes bs completion failed = completion ≫= delivered probes bs failed.
Proof. apply collect_from. Qed.

Lemma filter_all {A} (P : A → Prop) `{∀ x, Decision (P x)} (l : list A) :
  (∀ x, x ∈ l → P x) → filter P l = l.
Proof.
  induction l as [|x l IH]; intros Hall; [done|].
  rewrite filter_cons_True by (apply Hall, list_elem_of_here).
  f_equal. apply IH. intros y Hy. by apply Hall, list_elem_of_further.
Qed.



End Merge.

(** ** Extraction of the high-quality probes *)

Section Extraction.
Import Scorer.
Context {N : PyNum}.
Implicit Types (scores : list (score_record pyfloat)) (probes hq : gmap string string).

Lemma has_selected_cons t r scores p :
  has_selected t (r :: scores) p ↔ (probe_id r = p ∧ selected t r) ∨ has_selected t scores p.
Proof.
  unfold has_selected. setoid_rewrite elem_of_cons. naive_solver.
Qed.

Lemma selected_decide t r : selected t r ∨ ¬ selected t r.
Proof.
  unfold selected. destruct (fleb t (score r)), (in_fasta r); naive_solver.
Qed.

Lemma has_selected_decide t scores p : has_selected t scores p ∨ ¬ has_selected t scores p.
Proof.
  induction scores as [|r scores IH].
  - right. intros (r & Hr & _). by apply elem_of_nil in Hr.
  - rewrite has_selected_cons. destruct (selected_decide t r), (decide (probe_id r = p));
      naive_solver.
Qed.

Lemma select_above_from probes t scores hq0 :
  consistent probes scores →
  ∃ hq,
    fold_left (select_step probes t) scores (inr hq0) = inr hq
    ∧ ∀ p seq, hq !! p = Some seq ↔
        hq0 !! p = Some seq ∧ ¬ has_selected t scores p
        ∨ probes !! p = Some seq ∧ has_selected t scores p.
Proof.
  revert hq0. induction scores as [|r scores IH]; intros hq0 Hcons; cbn [fold_left].
  - exists hq0. split; [done|]. intros p seq.
    assert (¬ has_selected t [] p) by (intros (r & Hr & _); by apply elem_of_nil in Hr).
    naive_solver.
  - assert (consistent probes scores) as Hcons'.
    { intros r' Hr'. apply Hcons. by apply list_elem_of_further. }
    unfold select_step at 2.
    destruct (fleb t (score r) && in_fasta r) eqn:E.
    + apply andb_true_iff in E as [Et Ef].
      destruct (Hcons r (list_elem_of_here _ _) Ef) as [seqr Hseqr].
      unfold probes_item. rewrite Hseqr.
      destruct (IH (<[probe_id r := seqr]> hq0) Hcons') as (hq & -> & Hhq).
      exists hq. split; [done|]. intros p seq. rewrite Hhq, has_selected_cons.
      assert (selected t r) as Hsel by done.
      destruct (has_selected_decide t scores p) as [Hin|Hnot];
      destruct (decide (probe_id r = p)) as [<-|Hne];
        rewrite ?lookup_insert_eq, ?lookup_insert_ne by done; naive_solver.
    + destruct (IH hq0 Hcons') as (hq & -> & Hhq).
      exists hq. split; [done|]. intros p seq. rewrite Hhq, has_selected_cons.
      assert (¬ selected t r) as Hnsel.
      { intros [Ht Hf]. rewrite Ht, Hf in E. done. }
      naive_solver.
Qed.

(** The first loop selects exactly the probes that have a record with
    [score >= t] and [in_fasta], with their sequences. *)
Lemma select_above_spec probes t scores :
  consistent probes scores →
  ∃ hq, select_above probes t scores = inr hq
    ∧ ∀ p seq, hq !! p = Some seq ↔ probes !! p = Some seq ∧ has_selected t scores p.
Proof.
  intros Hcons. destruct (select_above_from probes t scores ∅ Hcons) as (hq & Hhq & Hspec).
  exists hq. split; [done|]. intros p seq. rewrite Hspec, lookup_empty. naive_solver.
Qed.

Lemma existsb_in_fasta scores :
  existsb in_fasta scores = true ↔ ∃ r, r ∈ scores ∧ in_fasta r = true.
Proof.
  rewrite existsb_exists. split; intros (r & Hr & Hf); exists r; split; try done;
    by apply list_elem_of_In.
Qed.

End Extraction.

(** ** The order of binary64 *)

Section SpecOrder.
Import SpecFloat.
Local Open Scope Z_scope.

Lemma pos_compare_cont_Eq (m1 m2 : positive) : Pos.compare_cont Eq m1 m2 = Pos.compare m1 m2.
Proof. reflexivity. Qed.

Lemma SFcompare_refl x : x ≠ S754_nan → SFcompare x x = Some Eq.
Proof.
  destruct x as [[]|[]| |[] m e]; simpl; try done.
  all: intros _; rewrite Z.compare_refl, Pos.compare_cont_refl; done.
Qed.

Lemma SFltb_SFleb x y : SFltb x y = true → SFleb x y = true.
Proof. unfold SFltb, SFleb. by destruct (SFcompare x y) as [[]|]. Qed.

Ltac compare_cases :=
  repeat match goal with
  | |- context [Pos.compare_cont Eq ?a ?b] =>
      change (Pos.compare_cont Eq a b) with (Pos.compare a b)
  | H : context [Pos.compare_cont Eq ?a ?b] |- _ =>
      change (Pos.compare_cont Eq a b) with (Pos.compare a b) in H
  end;
  repeat match goal with
  | |- context [Z.compare ?a ?b] => destruct (Z.compare_spec a b)
  | H : context [Z.compare ?a ?b] |- _ => destruct (Z.compare_spec a b)
  | |- context [Pos.compare ?a ?b] => destruct (Pos.compare_spec a b)
  | H : context [Pos.compare ?a ?b] |- _ => destruct (Pos.compare_spec a b)
  end;
  simpl in *; try done; try lia.

Lemma SFleb_total x y :
  x ≠ S754_nan → y ≠ S754_nan → SFltb x y = false → SFleb y x = true.
Proof.
  unfold SFltb, SFleb.
  destruct x as [[]|[]| |[] m1 e1], y as [[]|[]| |[] m2 e2]; simpl; try done.
  all: intros _ _ H; compare_cases.
Qed.

Lemma SFleb_trans x y z : SFleb x y = true → SFleb y z = true → SFleb x z = true.
Proof.
  unfold SFleb.
  destruct x as [[]|[]| |[] m1 e1], y as [[]|[]| |[] m2 e2], z as [[]|[]| |[] m3 e3];
    simpl; try done.
  all: intros H1 H2; compare_cases.
Qed.

Lemma SFleb_not_nan x y : SFleb x y = true → x ≠ S754_nan ∧ y ≠ S754_nan.
Proof. unfold SFleb. destruct x as [[]|[]| |[] m1 e1], y as [[]|[]| |[] m2 e2]; done. Qed.

Lemma SFleb_SFltb_false x y : SFleb x y = true → SFltb y x = false.
Proof.
  unfold SFleb, SFltb.
  destruct x as [[]|[]| |[] m1 e1], y as [[]|[]| |[] m2 e2]; simpl; try done.
  all: intros H; compare_cases.
Qed.

Lemma SFleb_false x y :
  x ≠ S754_nan → y ≠ S754_nan → SFleb x y = false → SFltb y x = true.
Proof.
  unfold SFleb, SFltb.
  destruct x as [[]|[]| |[] m1 e1], y as [[]|[]| |[] m2 e2]; simpl; try done.
  all: intros _ _ H; compare_cases.
Qed.

End SpecOrder.

Section Binary64Order.
Import PrimFloat FloatOps FloatAxioms.
Implicit Types x y z : float.

Lemma b64_is_nan x : is_nan x = false ↔ Prim2SF x ≠ SpecFloat.S754_nan.
Proof.
  unfold is_nan. rewrite eqb_spec. unfold SpecFloat.SFeqb. split.
  - intros H Hn. rewrite Hn in H. done.
  - intros H. by rewrite SFcompare_refl.
Qed.

Lemma b64_ltb_leb x y : ltb x y = true → leb x y = true.
Proof. rewrite ltb_spec, leb_spec. apply SFltb_SFleb. Qed.

Lemma b64_leb_total x y :
  is_nan x = false → is_nan y = false → ltb x y = false → leb y x = true.
Proof. rewrite !b64_is_nan, ltb_spec, leb_spec. apply SFleb_total. Qed.

Lemma b64_leb_trans x y z : leb x y = true → leb y z = true → leb x z = true.
Proof. rewrite !leb_spec. apply SFleb_trans. Qed.

Lemma b64_leb_refl x : is_nan x = false → leb x x = true.
Proof.
  rewrite b64_is_nan, leb_spec. intros H. unfold SpecFloat.SFleb. by rewrite SFcompare_refl.
Qed.

Lemma b64_leb_not_nan x y : leb x y = true → is_nan x = false ∧ is_nan y = false.
Proof. rewrite !b64_is_nan, leb_spec. apply SFleb_not_nan. Qed.

Lemma b64_leb_ltb_false x y : leb x y = true → ltb y x = false.
Proof. rewrite ltb_spec, leb_spec. apply SFleb_SFltb_false. Qed.

Lemma b64_leb_false x y :
  is_nan x = false → is_nan y = false → leb x y = false → ltb y x = true.
Proof. rewrite !b64_is_nan, ltb_spec, leb_spec. apply SFleb_false. Qed.

End Binary64Order.

(** ** Rounding to binary64 *)

Section Rounding.
Import SpecFloat.
Local Open Scope Z_scope.
Abbreviation prec := FloatOps.prec.
Abbreviation emax := FloatOps.emax.
Abbreviation fexp64 := (fexp prec emax).

(** *** The number of binary digits *)

Lemma digits2_pos_log2 (p : positive) : Zpos (digits2_pos p) = Z.log2 (Zpos p) + 1.
Proof.
  induction p as [p IH|p IH|]; simpl digits2_pos; [| |done].
  - rewrite Pos2Z.inj_succ, IH.
    change (Zpos p~1) with (2 * Zpos p + 1). rewrite Z.log2_succ_double by lia. lia.
  - rewrite Pos2Z.inj_succ, IH.
    change (Zpos p~0) with (2 * Zpos p). rewrite Z.log2_double by lia. lia.
Qed.

Lemma Zdigits2_bounds (m : Z) :
  0 < m → 2 ^ (Zdigits2 m - 1) <= m < 2 ^ Zdigits2 m.
Proof.
  destruct m as [|p|p]; [lia| |lia]. intros _. simpl Zdigits2.
  rewrite digits2_pos_log2. replace (Z.log2 (Zpos p) + 1 - 1) with (Z.log2 (Zpos p)) by lia.
  pose proof (Z.log2_spec (Zpos p) ltac:(lia)) as H. rewrite <- Z.add_1_r in H. lia.
Qed.

Lemma Zdigits2_nonneg (m : Z) : 0 <= Zdigits2 m.
Proof. destruct m; simpl; lia. Qed.

Lemma Zdigits2_pos (m : Z) : 0 < m → 0 < Zdigits2 m.
Proof. destruct m; simpl; lia. Qed.

(** [m] has at most [k] digits when it is below [2 ^ k]. *)
Lemma Zdigits2_le (m k : Z) : 0 <= m → 0 <= k → m < 2 ^ k → Zdigits2 m <= k.
Proof.
  intros Hm Hk Hlt. destruct (Z.eq_dec m 0) as [->|Hne]; [simpl; lia|].
  destruct (Zdigits2_bounds m ltac:(lia)) as [Hlo _].
  destruct (Z_le_gt_dec (Zdigits2 m) k) as [?|Hgt]; [done|exfalso].
  assert (2 ^ k <= 2 ^ (Zdigits2 m - 1)) by (apply Z.pow_le_mono_r; lia). lia.
Qed.

(** [m] has at least [k] digits when it reaches [2 ^ (k - 1)]. *)
Lemma Zdigits2_ge (m k : Z) : 0 < k → 2 ^ (k - 1) <= m → k <= Zdigits2 m.
Proof.
  intros Hk Hlo.
  assert (0 < m) as Hm by (pose proof (Z.pow_pos_nonneg 2 (k - 1)); lia).
  destruct (Zdigits2_bounds m Hm) as [_ Hhi].
  destruct (Z_le_gt_dec k (Zdigits2 m)) as [?|Hgt]; [done|exfalso].
  assert (2 ^ Zdigits2 m <= 2 ^ (k - 1))
    by (apply Z.pow_le_mono_r; pose proof (Zdigits2_nonneg m); lia).
  lia.
Qed.

(** *** Shifts to the right *)

Lemma shr_1_half mrs : 0 <= shr_m mrs → shr_m (shr_1 mrs) = shr_m mrs / 2.
Proof.
  destruct mrs as [m r s]. simpl. intros Hm.
  destruct m as [|[p|p|]|p]; simpl; try lia; try done.
  - change (Zpos p~1) with (2 * Zpos p + 1). apply Z.div_unique with 1; lia.
  - change (Zpos p~0) with (2 * Zpos p). apply Z.div_unique with 0; lia.
Qed.

Lemma pow2_xI (p : positive) : 2 ^ Zpos p~1 = 2 * (2 ^ Zpos p * 2 ^ Zpos p).
Proof.
  rewrite Pos2Z.inj_xI, <- Z.pow_add_r, <- Z.pow_succ_r by lia. f_equal. lia.
Qed.

Lemma pow2_xO (p : positive) : 2 ^ Zpos p~0 = 2 ^ Zpos p * 2 ^ Zpos p.
Proof. rewrite Pos2Z.inj_xO, <- Z.pow_add_r by lia. f_equal. lia. Qed.

Lemma iter_pos_shr_1 (p : positive) mrs :
  0 <= shr_m mrs → shr_m (iter_pos shr_1 p mrs) = shr_m mrs / 2 ^ Zpos p.
Proof.
  revert mrs. induction p as [p IH|p IH|]; intros mrs Hm; simpl iter_pos.
  - assert (0 < 2 ^ Zpos p) as Hpow by (apply Z.pow_pos_nonneg; lia).
    assert (0 <= shr_m (shr_1 mrs)) as H1
      by (rewrite shr_1_half by done; apply Z.div_pos; lia).
    assert (0 <= shr_m (iter_pos shr_1 p (shr_1 mrs))) as H2
      by (rewrite IH by done; apply Z.div_pos; [done|lia]).
    rewrite IH, IH, shr_1_half by done.
    rewrite !Z.div_div by lia. by rewrite pow2_xI.
  - assert (0 < 2 ^ Zpos p) as Hpow by (apply Z.pow_pos_nonneg; lia).
    assert (0 <= shr_m (iter_pos shr_1 p mrs)) as H2
      by (rewrite IH by done; apply Z.div_pos; [done|lia]).
    rewrite IH, IH by done.
    rewrite !Z.div_div by lia. by rewrite pow2_xO.
  - by rewrite shr_1_half.
Qed.

Lemma shr_record_of_loc_m m l : shr_m (shr_record_of_loc m l) = m.
Proof. by destruct l as [|[]]. Qed.

(** [shr_fexp] divides the mantissa by a power of 2 that brings the
    exponent up to the canonical one. *)
Lemma shr_fexp_spec (m e : Z) l :
  0 <= m →
  let n := Z.max (fexp64 (Zdigits2 m + e) - e) 0 in
  shr_m (shr_fexp prec emax m e l).1 = m / 2 ^ n
  ∧ (shr_fexp prec emax m e l).2 = e + n.
Proof.
  intros Hm. unfold shr_fexp, shr.
  destruct (fexp64 (Zdigits2 m + e) - e) as [|p|p] eqn:En; simpl.
  - rewrite shr_record_of_loc_m, Z.div_1_r. split; [done|lia].
  - rewrite iter_pos_shr_1 by (by rewrite shr_record_of_loc_m).
    rewrite shr_record_of_loc_m. split; [done|lia].
  - rewrite shr_record_of_loc_m, Z.div_1_r. split; [done|lia].
Qed.

Lemma round_nearest_even_bounds m l :
  m <= round_nearest_even m l <= m + 1.
Proof. destruct l as [|[]]; simpl; try lia. destruct (Z.even m); lia. Qed.

Lemma fexp64_eq (k : Z) : fexp64 k = Z.max (k - 53) (-1074).
Proof. reflexivity. Qed.

Lemma pow2_53 : 2 ^ 53 = 9007199254740992.
Proof. reflexivity. Qed.

(** What [binary_round_aux] returns for a mantissa whose exponent is at most
    the canonical one: a zero, a float in canonical form whose exponent is
    the canonical one or the next, or an infinity when that exponent is too
    large. *)
Lemma binary_round_aux_cases sx (mx ex : Z) lx :
  0 <= mx → ex <= fexp64 (Zdigits2 mx + ex) →
  let e1 := fexp64 (Zdigits2 mx + ex) in
  let r := binary_round_aux prec emax sx mx ex lx in
  r = S754_zero sx
  ∨ (∃ m e, r = S754_finite sx m e ∧ bounded prec emax m e = true ∧ e1 <= e <= e1 + 1)
  ∨ (r = S754_infinity sx ∧ emax - prec < e1 + 1).
Proof.
  intros Hmx Hex e1 r. subst r. unfold binary_round_aux.
  destruct (shr_fexp_spec mx ex lx Hmx) as [Hm1 He1]. simpl in Hm1, He1.
  destruct (shr_fexp prec emax mx ex lx) as [mrs' e'] eqn:E1. simpl in Hm1, He1.
  fold e1 in Hm1, He1. rewrite Z.max_l in Hm1, He1 by lia.
  replace (ex + (e1 - ex)) with e1 in He1 by lia. subst e'.
  set (m1 := shr_m mrs') in *.
  set (m2 := round_nearest_even m1 (loc_of_shr_record mrs')).
  pose proof (round_nearest_even_bounds m1 (loc_of_shr_record mrs')) as Hm2. fold m2 in Hm2.
  assert (0 < 2 ^ (e1 - ex)) as Hpow by (apply Z.pow_pos_nonneg; lia).
  assert (0 <= m1) as Hm1pos by (rewrite Hm1; apply Z.div_pos; lia).
  assert (-1074 <= e1) as Hemin by (unfold e1; rewrite fexp64_eq; lia).
  assert (m1 < 2 ^ 53) as Hm1hi.
  { rewrite Hm1. apply Z.div_lt_upper_bound; [done|].
    destruct (Z.eq_dec mx 0) as [->|Hne]; [lia|].
    destruct (Zdigits2_bounds mx ltac:(lia)) as [_ Hhi].
    rewrite <- Z.pow_add_r by lia.
    eapply Z.lt_le_trans; [done|]. apply Z.pow_le_mono_r; [lia|].
    unfold e1. rewrite fexp64_eq. lia. }
  assert (-1074 < e1 → 2 ^ 52 <= m1) as Hm1lo.
  { intros Hgt. rewrite Hm1. apply Z.div_le_lower_bound; [done|].
    assert (e1 = Zdigits2 mx + ex - 53) as He1 by (unfold e1 in *; rewrite fexp64_eq in *; lia).
    assert (0 < mx) as Hpos.
    { destruct (Z.eq_dec mx 0) as [->|?]; [|lia]. simpl in He1. lia. }
    destruct (Zdigits2_bounds mx Hpos) as [Hlo _].
    rewrite <- Z.pow_add_r by lia.
    replace (e1 - ex + 52) with (Zdigits2 mx - 1) by lia. done. }
  destruct (shr_fexp_spec m2 e1 loc_Exact ltac:(lia)) as [Hm3 He3]. simpl in Hm3, He3.
  destruct (shr_fexp prec emax m2 e1 loc_Exact) as [mrs'' e''] eqn:E2. simpl in Hm3, He3.
  destruct (Z.eq_dec m2 0) as [Hz|Hnz].
  { left. rewrite Hm3, Hz. by rewrite Z.div_0_l by (apply Z.pow_nonzero; lia). }
  assert (0 < m2) as Hm2pos by lia.
  destruct (Z.eq_dec m2 (2 ^ 53)) as [Htop|Hntop].
  - assert (Zdigits2 m2 = 54) as Hd2 by (rewrite Htop; reflexivity).
    rewrite Hd2, fexp64_eq in Hm3, He3.
    replace (Z.max (Z.max (54 + e1 - 53) (-1074) - e1) 0) with 1 in Hm3, He3 by lia.
    rewrite Htop in Hm3. change (2 ^ 53 / 2 ^ 1) with (Zpos (2 ^ 52)) in Hm3.
    rewrite Hm3. destruct (Z.leb_spec e'' (emax - prec)) as [Hle|Hgt].
    + right. left. eexists _, _. split; [done|]. split; [|lia].
      unfold bounded, canonical_mantissa. apply andb_true_iff. split; [|by apply Z.leb_le].
      apply Z.eqb_eq. change (Zpos (digits2_pos (2 ^ 52))) with 53.
      fold fexp64. rewrite fexp64_eq. lia.
    + right. right. split; [done|]. lia.
  - assert (m2 < 2 ^ 53) as Hm2hi by lia.
    assert (Zdigits2 m2 <= 53) as Hd2 by (apply Zdigits2_le; lia).
    pose proof (Zdigits2_pos m2 Hm2pos) as Hd2pos.
    assert (fexp64 (Zdigits2 m2 + e1) = e1) as Hcanon.
    { rewrite fexp64_eq. destruct (Z.eq_dec e1 (-1074)) as [?|Hne]; [lia|].
      assert (2 ^ 52 <= m2) as Hlo by (specialize (Hm1lo ltac:(lia)); lia).
      assert (53 <= Zdigits2 m2) by (apply Zdigits2_ge; [lia|done]). lia. }
    rewrite Hcanon, Z.sub_diag in Hm3, He3. simpl in Hm3, He3.
    rewrite Z.div_1_r in Hm3. rewrite Z.add_0_r in He3. subst e''.
    rewrite Hm3. destruct m2 as [|p|p]; [lia| |lia].
    destruct (Z.leb_spec e1 (emax - prec)) as [Hle|Hgt].
    + right. left. eexists _, _. split; [done|]. split; [|lia].
      unfold bounded, canonical_mantissa. apply andb_true_iff. split; [|by apply Z.leb_le].
      apply Z.eqb_eq. done.
    + right. right. split; [done|]. lia.
Qed.

(** *** The quotient of two integers *)

(** For [0 < a <= b] the double nearest to [a / b] is a zero or a finite
    float in canonical form. *)
Lemma SFdiv_exact_int_cases (a b : positive) :
  (a <= b)%positive →
  let r := SFdiv prec emax (S754_finite false a 0) (S754_finite false b 0) in
  r = S754_zero false ∨ ∃ m e, r = S754_finite false m e ∧ bounded prec emax m e = true.
Proof.
  intros Hab r. subst r. unfold SFdiv, SFdiv_core_binary. cbn [xorb].
  set (d1 := Zdigits2 (Zpos a)). set (d2 := Zdigits2 (Zpos b)).
  destruct (Zdigits2_bounds (Zpos a) ltac:(lia)) as [Halo Hahi]. fold d1 in Halo, Hahi.
  destruct (Zdigits2_bounds (Zpos b) ltac:(lia)) as [Hblo Hbhi]. fold d2 in Hblo, Hbhi.
  assert (0 < d1) as Hd1 by (apply Zdigits2_pos; lia).
  assert (0 < d2) as Hd2 by (apply Zdigits2_pos; lia).
  assert (d1 <= d2) as Hd by (apply Zdigits2_le; lia).
  rewrite !Z.add_0_r, Z.sub_diag.
  fold fexp64. set (e0 := fexp64 (d1 - d2)).
  assert (e0 = Z.max (d1 - d2 - 53) (-1074)) as He0 by reflexivity.
  rewrite Z.min_l by lia.
  replace (0 - e0) with (- e0) by lia.
  destruct (- e0) as [|s|s] eqn:Es; [lia| |lia].
  rewrite Z.shiftl_mul_pow2 by lia.
  assert (0 < 2 ^ Zpos s) as Hpow by (apply Z.pow_pos_nonneg; lia).
  pose proof (Z.div_eucl_eq (Zpos a * 2 ^ Zpos s) (Zpos b) ltac:(lia)) as Heq.
  pose proof (Z.mod_pos_bound (Zpos a * 2 ^ Zpos s) (Zpos b) ltac:(lia)) as Hmod.
  unfold Z.modulo in Hmod.
  assert ((Zpos a * 2 ^ Zpos s) / Zpos b = (Z.div_eucl (Zpos a * 2 ^ Zpos s) (Zpos b)).1)
    as Hq by (unfold Z.div; by destruct (Z.div_eucl _ _)).
  destruct (Z.div_eucl (Zpos a * 2 ^ Zpos s) (Zpos b)) as [q rem]. simpl in Hq. subst q.
  set (q := Zpos a * 2 ^ Zpos s / Zpos b) in *.
  assert (0 <= q) as Hq0 by (apply Z.div_pos; lia).
  assert (q <= 2 ^ Zpos s) as Hqhi.
  { apply Z.div_le_upper_bound; [lia|]. apply Z.mul_le_mono_nonneg_r; lia. }
  assert (Zdigits2 q <= Zpos s + 1) as Hdq.
  { apply Zdigits2_le; [lia..|]. rewrite Z.pow_add_r by lia. lia. }
  assert (d1 - d2 + Zpos s <= Zdigits2 q) as Hdq'.
  { destruct (Z_le_gt_dec (d1 - d2 + Zpos s) 0) as [?|Hk];
      [pose proof (Zdigits2_nonneg q); lia|].
    apply Zdigits2_ge; [lia|]. apply Z.div_le_lower_bound; [lia|].
    apply Z.le_trans with (2 ^ d2 * 2 ^ (d1 - d2 + Zpos s - 1)).
    { apply Z.mul_le_mono_nonneg_r; [apply Z.pow_nonneg|]; lia. }
    rewrite <- Z.pow_add_r by lia.
    replace (d2 + (d1 - d2 + Zpos s - 1)) with (d1 - 1 + Zpos s) by lia.
    rewrite Z.pow_add_r by lia. apply Z.mul_le_mono_nonneg_r; lia. }
  destruct (binary_round_aux_cases false q e0 (new_location (Zpos b) rem) Hq0)
    as [Hz|[(m & e & Hr & Hb & He)|[_ Hinf]]].
  - rewrite fexp64_eq. lia.
  - by left.
  - right. eauto.
  - exfalso. rewrite fexp64_eq in Hinf. change (emax - prec) with 971 in Hinf. lia.
Qed.

End Rounding.

Section Binary64Quotient.
Import PrimFloat FloatOps FloatAxioms.
Local Open Scope Z_scope.

Lemma b64_of_spec_valid (s : SpecFloat.spec_float) :
  valid_binary s = true → Prim2SF (Binary64.of_spec s) = s.
Proof. apply Prim2SF_SF2Prim. Qed.

(** The quotient of two sizes is finite: [found / total] does not raise
    [OverflowError]. *)
Lemma b64_quot_finite (a b : Z) :
  0 <= a <= b → 0 < b → Binary64.is_finite (Binary64.quot a b) = true.
Proof.
  intros Ha Hb. unfold Binary64.is_finite, Binary64.quot.
  destruct b as [|b|b]; [lia| |lia]. destruct a as [|a|a]; [| |lia].
  - cbn [Binary64.exact_int SpecFloat.SFdiv xorb]. by rewrite b64_of_spec_valid.
  - cbn [Binary64.exact_int].
    destruct (SFdiv_exact_int_cases a b ltac:(lia)) as [->|(m & e & -> & Hv)].
    + by rewrite b64_of_spec_valid.
    + by rewrite b64_of_spec_valid.
Qed.

Lemma b64_int_truediv (a b : Z) :
  0 <= a <= b → 0 < b → Binary64.int_truediv a b = inr (Binary64.quot a b).
Proof.
  intros Ha Hb. unfold Binary64.int_truediv.
  destruct (Z.eqb_spec b 0) as [->|_]; [lia|]. by rewrite b64_quot_finite.
Qed.

(** [n / n] is [1.0]. *)
Lemma b64_quot_same (n : Z) : 0 < n → Binary64.quot n n = 1%float.
Proof.
  intros Hn. destruct n as [|p|p]; [lia| |lia].
  unfold Binary64.quot. cbn [Binary64.exact_int].
  unfold SpecFloat.SFdiv, SpecFloat.SFdiv_core_binary. cbn [xorb].
  rewrite Z.add_0_r, !Z.sub_diag.
  change (Z.min (SpecFloat.fexp prec emax 0) 0) with (-53)%Z.
  change (0 - -53)%Z with 53%Z. cbv iota.
  rewrite Z.shiftl_mul_pow2 by lia.
  assert (Z.div_eucl (Zpos p * 2 ^ 53) (Zpos p) = (2 ^ 53, 0)%Z) as ->.
  { assert (∀ x y, Z.div_eucl x y = (x / y, x mod y)) as Hdm
      by (intros x y; unfold Z.div, Z.modulo; by destruct (Z.div_eucl x y)).
    rewrite Hdm, (Z.mul_comm (Zpos p)), Z.div_mul, Z.mod_mul by lia. done. }
  assert (SpecFloat.new_location (Zpos p) 0 = SpecFloat.loc_Exact) as ->.
  { unfold SpecFloat.new_location, SpecFloat.new_location_even, SpecFloat.new_location_odd.
    by destruct (Z.even _). }
  vm_compute. reflexivity.
Qed.

End Binary64Quotient.

(** ** Batch Scheduler: the ranking on binary64 *)

Section Binary64Ranking.
Import Scorer Py.
Import (notations) PrimFloat.
Context (py_float : string → option Binary64.t) (py_int : string → option Z).
#[local] Hint Extern 0 PyNum => exact (Binary64.num py_float py_int) : typeclass_instances.

Lemma b64_is_number (x : Binary64.t) : is_number x ↔ PrimFloat.is_nan x = false.
Proof.
  unfold is_number, PrimFloat.is_nan. simpl. by destruct (PrimFloat.eqb x x).
Qed.




End Binary64Ranking.

(** ** Extraction: the fallback on binary64 *)

Section Binary64Fallback.
Import Scorer Py.
Import (notations) PrimFloat.
Context (py_float : string → option Binary64.t) (py_int : string → option Z).
#[local] Hint Extern 0 PyNum => exact (Binary64.num py_float py_int) : typeclass_instances.

Lemma number_leb_refl (x : pyfloat) : is_number x → fleb x x = true.
Proof. intros Hx%b64_is_number. by apply b64_leb_refl. Qed.

Lemma number_leb_total (x y : pyfloat) :
  is_number x → is_number y → fltb x y = false → fleb y x = true.
Proof. intros Hx%b64_is_number Hy%b64_is_number. by apply b64_leb_total. Qed.

Lemma number_leb_false (x y : pyfloat) :
  is_number x → is_number y → fleb x y = false → fltb y x = true.
Proof. intros Hx%b64_is_number Hy%b64_is_number. by apply b64_leb_false. Qed.

(** The second loop keeps the first record of highest score among those
    found in the FASTA file, when their scores are numbers. *)
Lemma best_from_numbers (scores : list (score_record pyfloat))
    (b0 : option (score_record pyfloat)) :
  (∀ b, b0 = Some b → in_fasta b = true ∧ is_number (score b)) →
  (∀ r, r ∈ scores → in_fasta r = true → is_number (score r)) →
  match fold_left best_step scores b0 with
  | None => b0 = None ∧ ∀ r, r ∈ scores → in_fasta r = false
  | Some b =>
      in_fasta b = true ∧ (b0 = Some b ∨ b ∈ scores)
      ∧ (∀ r, r ∈ scores → in_fasta r = true → fleb (score r) (score b) = true)
      ∧ (∀ b', b0 = Some b' → fleb (score b') (score b) = true)
  end.
Proof.
  revert b0. induction scores as [|r scores IH]; intros b0 Hb0 Hnum; cbn [fold_left].
  - destruct b0 as [b|].
    + destruct (Hb0 b eq_refl) as [Hf Hn]. split_and!; [done|by left| |].
      * intros r Hr. by apply elem_of_nil in Hr.
      * intros b' [= ->]. by apply number_leb_refl.
    + split; [done|]. intros r Hr. by apply elem_of_nil in Hr.
  - assert (∀ r', r' ∈ scores → in_fasta r' = true → is_number (score r')) as Hnum'.
    { intros r' Hr'. apply Hnum. by right. }
    unfold best_step at 2. destruct (in_fasta r) eqn:Ef; cbn [andb].
    + assert (is_number (score r)) as Hr by (apply Hnum; [by left|done]).
      assert (fleb (score r) (score r) = true) as Hrr by (by apply number_leb_refl).
      destruct b0 as [best|].
      * destruct (Hb0 best eq_refl) as [Hbf Hbn].
        destruct (fltb _ _) eqn:Elt.
        -- apply b64_ltb_leb in Elt.
           specialize (IH (Some r)).
           destruct (fold_left _ _ _) as [b|].
           ++ destruct IH as (Hf & Hin & Hmax & Hge); [by intros ? [= <-]|done|].
              split_and!; [done| | |].
              ** right. destruct Hin as [[= ->]|Hin]; [by left|by right].
              ** intros r' [->|Hr']%elem_of_cons Hf'; [by apply Hge|by apply Hmax].
              ** intros b' [= <-]. eapply b64_leb_trans; [done|]. by apply Hge.
           ++ destruct IH as [? _]; [by intros ? [= <-]|done|done].
        -- apply number_leb_total in Elt; [|done..].
           specialize (IH (Some best) Hb0 Hnum').
           destruct (fold_left _ _ _) as [b|].
           ++ destruct IH as (Hf & Hin & Hmax & Hge).
              split_and!; [done| | |done].
              ** destruct Hin as [Hin|Hin]; [by left|right; by right].
              ** intros r' [->|Hr']%elem_of_cons Hf'; [|by apply Hmax].
                 eapply b64_leb_trans; [done|]. by apply Hge.
           ++ by destruct IH as [? _].
      * specialize (IH (Some r)).
        destruct (fold_left _ _ _) as [b|].
        -- destruct IH as (Hf & Hin & Hmax & Hge); [by intros ? [= <-]|done|].
           split_and!; [done| | |done].
           ++ right. destruct Hin as [[= ->]|Hin]; [by left|by right].
           ++ intros r' [->|Hr']%elem_of_cons Hf'; [by apply Hge|by apply Hmax].
        -- destruct IH as [? _]; [by intros ? [= <-]|done|done].
    + specialize (IH b0 Hb0 Hnum').
      destruct (fold_left _ _ _) as [b|].
      * destruct IH as (Hf & Hin & Hmax & Hge).
        split_and!; [done| | |done].
        -- destruct Hin as [Hin|Hin]; [by left|right; by right].
        -- intros r' [->|Hr']%elem_of_cons Hf'; [by rewrite Ef in Hf'|by apply Hmax].
      * destruct IH as [-> Hall]. split; [done|].
        intros r' [->|Hr']%elem_of_cons; [done|by apply Hall].
Qed.

(** X21: on binary64, for score records whose [in_fasta] flag agrees with the
    probe dictionary, whose scores, where [in_fasta] holds, are not nan, and
    for a threshold in force that is not nan, [extract_high_quality_probes]
    returns; without the fallback its probes are those of the records with
    [score >= score_threshold] and [in_fasta]; with the fallback it holds
    one probe, of a record found in the FASTA file whose score no other such
    record exceeds and which is below the threshold in force. *)
Theorem fallback_is_a_highest_scoring_probe (probes : gmap string string)
    (scores : list (score_record pyfloat)) (threshold : option pyfloat) :
  consistent probes scores →
  (∀ r, r ∈ scores → in_fasta r = true → is_number (score r)) →
  is_number (score_threshold threshold) →
  ∃ hq fallback,
    extract_high_quality_probes probes scores threshold = inr (hq, fallback)
    ∧ (fallback = false →
         ∀ p, p ∈ dom hq ↔
           ∃ r, r ∈ scores ∧ probe_id r = p
             ∧ fleb (score_threshold threshold) (score r) = true ∧ in_fasta r = true)
    ∧ (fallback = true →
         ∃ best, best ∈ scores ∧ in_fasta best = true
           ∧ dom hq = {[probe_id best]}
           ∧ (∀ r, r ∈ scores → in_fasta r = true → fleb (score r) (score best) = true)
           ∧ fltb (score best) (score_threshold threshold) = true).
Proof.
  intros Hcons Hnum Ht.
  set (t := score_threshold threshold) in *.
  unfold extract_high_quality_probes. fold t.
  destruct (select_above_spec probes t scores Hcons) as (hq & -> & Hhq).
  assert (∀ p, p ∈ dom hq ↔
            ∃ r, r ∈ scores ∧ probe_id r = p ∧ fleb t (score r) = true ∧ in_fasta r = true)
    as Hdom.
  { intros p. rewrite elem_of_dom. unfold is_Some. setoid_rewrite Hhq.
    unfold has_selected, selected. split.
    - intros (seq & _ & r & Hr & Hp & Hs & Hf). by exists r.
    - intros (r & Hr & Hp & Hs & Hf).
      destruct (Hcons r Hr Hf) as [seq Hseq]. exists seq. rewrite <- Hp.
      split; [done|]. by exists r. }
  destruct (bool_decide (hq = ∅)) eqn:Ehq; cbn [andb].
  - apply bool_decide_eq_true in Ehq. subst hq.
    destruct (match scores with [] => false | _ => true end && existsb in_fasta scores)
      eqn:Eany.
    + apply andb_true_iff in Eany as [_ (r0 & Hr0 & Hf0)%existsb_in_fasta].
      pose proof (best_from_numbers scores None ltac:(done) Hnum) as Hbest.
      fold (best_in_fasta scores) in Hbest.
      destruct (best_in_fasta scores) as [best|].
      * destruct Hbest as (Hf & [?|Hin] & Hmax & _); [done|].
        destruct (Hcons best Hin Hf) as [seq Hseq].
        unfold probes_item. rewrite Hseq. do 2 eexists. split; [done|].
        split; [done|]. intros _. exists best. split_and!; [done..| | |].
        -- by rewrite dom_insert_L, dom_empty_L, (right_id_L ∅ (∪)).
        -- done.
        -- apply number_leb_false; [done|by apply Hnum|].
           destruct (fleb t (score best)) eqn:E; [|done]. exfalso.
           assert (probe_id best ∈ dom (∅ : gmap string string)) as Hd
             by (apply Hdom; by exists best).
           by rewrite dom_empty_L in Hd.
      * destruct Hbest as [_ Hall]. by rewrite (Hall r0 Hr0) in Hf0.
    + do 2 eexists. split; [done|]. split; [done|done].
  - do 2 eexists. split; [done|]. split; [done|done].
Qed.

End Binary64Fallback.

(** ** Coverage Aggregator on binary64 *)

Section Binary64Coverage.
Import Scorer Py.
Import (notations) PrimFloat.
Context (py_float : string → option Binary64.t) (py_int : string → option Z).
#[local] Hint Extern 0 PyNum => exact (Binary64.num py_float py_int) : typeclass_instances.

Lemma b64_ratio (found total : nat) :
  found ≤ total → Coverage.ratio found total = inr (percentage found total).
Proof.
  intros Hle. unfold Coverage.ratio, percentage.
  destruct (total =? 0) eqn:E; [done|]. apply Nat.eqb_neq in E.
  simpl. by rewrite b64_int_truediv by lia.
Qed.

Lemma b64_analyze_files_from probes (items : list (string * gmap string (list string)))
    (stats0 : list (Coverage.file_stat pyfloat)) (all0 : gset string) :
  fold_left (Coverage.analyze_file probes) items (inr (stats0, all0))
  = inr (stats0 ++ (file_stat64 probes <$> items), all0 ∪ ⋃ (dom <$> items.*2)).
Proof.
  revert stats0 all0. induction items as [|[path res] items IH]; intros stats0 all0.
  - simpl. by rewrite app_nil_r, (right_id_L ∅ (∪)).
  - cbn [fold_left]. unfold Coverage.analyze_file at 2.
    rewrite b64_ratio by (apply subseteq_size; set_solver).
    rewrite IH. simpl. rewrite <- app_assoc. simpl.
    by rewrite (assoc_L (∪)).
Qed.

(** C6, amended: on binary64, for each source, [found_ratio] is
    [|source_ids ∩ universe_ids| / |source_ids| * 100], the quotient and the
    product each rounded to the nearest double, and 0 for an empty source;
    [coverage_ratio] is [|all_hit_ids ∩ universe_ids| / |universe_ids| * 100]
    for the union [all_hit_ids] of the sources, and 0 when the universe is
    empty; it is 100 when the union equals the universe and the universe is
    not empty.  The analysis never raises. *)
Theorem C6_coverage_ratios (probes : gmap string string)
    (blast_results : list (string * gmap string (list string))) :
  ∃ st, Coverage.analyze_coverage probes blast_results = inr st
    ∧ Forall2 (λ fs item,
         Coverage.total_probes fs = size (dom item.2)
         ∧ Coverage.found_in_fasta fs = size (dom item.2 ∩ dom probes)
         ∧ (size (dom item.2) = 0 → Coverage.found_ratio fs = 0%float)
         ∧ (size (dom item.2) ≠ 0 →
              Coverage.found_ratio fs
              = (Binary64.quot (Z.of_nat (size (dom item.2 ∩ dom probes)))
                               (Z.of_nat (size (dom item.2))) * 100)%float))
       (Coverage.file_stats st) blast_results
    ∧ Coverage.total_probes_in_fasta st = size (dom probes)
    ∧ Coverage.total_probes_in_blast st = size (⋃ (dom <$> blast_results.*2))
    ∧ Coverage.probes_found_in_fasta st
      = size (⋃ (dom <$> blast_results.*2) ∩ dom probes)
    ∧ (dom probes ≠ ∅ →
         Coverage.coverage_ratio st
         = (Binary64.quot (Z.of_nat (size (⋃ (dom <$> blast_results.*2) ∩ dom probes)))
                          (Z.of_nat (size (dom probes))) * 100)%float)
    ∧ (dom probes = ∅ → Coverage.coverage_ratio st = 0%float)
    ∧ (⋃ (dom <$> blast_results.*2) = dom probes → dom probes ≠ ∅ →
         Coverage.coverage_ratio st = 100%float).
Proof.
  unfold Coverage.analyze_coverage. rewrite b64_analyze_files_from.
  rewrite (left_id_L ∅ (∪)). cbv beta iota.
  set (all := ⋃ (dom <$> blast_results.*2)).
  assert (size probes = size (dom probes)) as Hsize by (by rewrite size_dom).
  assert (dom probes = ∅ ↔ size probes = 0) as Hempty.
  { rewrite Hsize, size_empty_iff. by unfold_leibniz. }
  rewrite b64_ratio.
  2:{ rewrite Hsize. apply subseteq_size. set_solver. }
  eexists. split; [reflexivity|]. cbn [Coverage.file_stats Coverage.total_probes_in_fasta
    Coverage.total_probes_in_blast Coverage.probes_found_in_fasta Coverage.coverage_ratio].
  rewrite app_nil_l. split_and!.
  - apply Forall2_fmap_l, Forall_Forall2_diag, Forall_forall.
    intros [path res] _. unfold file_stat64, percentage. cbn.
    split_and!; [done..| |].
    + intros ->. done.
    + intros Hne. apply Nat.eqb_neq in Hne. by rewrite Hne.
  - done.
  - done.
  - done.
  - intros Hne. unfold percentage. destruct (size probes =? 0) eqn:E.
    + apply Nat.eqb_eq in E. by apply Hempty in E.
    + by rewrite Hsize.
  - intros Hz%Hempty. unfold percentage. by rewrite Hz.
  - intros Hall Hne. unfold percentage. destruct (size probes =? 0) eqn:E.
    + apply Nat.eqb_eq in E. by apply Hempty in E.
    + apply Nat.eqb_neq in E. rewrite Hall.
      replace (dom probes ∩ dom probes) with (dom probes) by set_solver.
      rewrite <- Hsize, b64_quot_same by lia. by vm_compute.
Qed.

End Binary64Coverage.

(** ** Strings: [strip], [split] and [split()] *)

Section Strings.
Implicit Types (s u v cur : string) (c : ascii).

Lemma rev_app_append s u v : String.rev_app s u +:+ v = String.rev_app s (u +:+ v).
Proof. revert u. induction s as [|c s IH]; intros u; [done|]. simpl. by rewrite IH. Qed.

Lemma str_rev_String c s : String.rev (String c s) = String.rev s +:+ String c "".
Proof. unfold String.rev. simpl. by rewrite rev_app_append. Qed.

Lemma str_append_empty_r s : s +:+ "" = s.
Proof. induction s as [|c s IH]; [done|]. by rewrite app_String, IH. Qed.

Lemma str_append_assoc s u v : (s +:+ u) +:+ v = s +:+ (u +:+ v).
Proof. induction s as [|c s IH]; [done|]. by rewrite !app_String, IH. Qed.

Lemma str_rev_append s u : String.rev (s +:+ u) = String.rev u +:+ String.rev s.
Proof.
  induction s as [|c s IH]; [by rewrite str_append_empty_r|].
  by rewrite app_String, !str_rev_String, IH, str_append_assoc.
Qed.

Lemma str_rev_involutive s : String.rev (String.rev s) = s.
Proof.
  induction s as [|c s IH]; [done|].
  by rewrite str_rev_String, str_rev_append, IH.
Qed.

Lemma str_all_rev p s : str_all p (String.rev s) = str_all p s.
Proof.
  induction s as [|c s IH]; [done|].
  rewrite str_rev_String, str_all_app, IH. simpl. by rewrite andb_true_r, andb_comm.
Qed.

Lemma lstrip_id c s : Str.is_space c = false → Str.lstrip (String c s) = String c s.
Proof. intros H. simpl. by rewrite H. Qed.

Lemma rstrip_id s c : Str.is_space c = false →
  Str.rstrip (s +:+ String c "") = s +:+ String c "".
Proof.
  intros H. unfold Str.rstrip. rewrite str_rev_append. 
  change (String.rev (String c "")) with (String c ""). rewrite app_String.
  rewrite lstrip_id by done.
  change (String c ("" +:+ String.rev s)) with (String c "" +:+ String.rev s).
  by rewrite str_rev_append, str_rev_involutive.
Qed.

(** A text that neither starts nor ends with whitespace is left as it is. *)
Lemma strip_id c1 s c2 :
  Str.is_space c1 = false → Str.is_space c2 = false →
  Str.strip (String c1 (s +:+ String c2 "")) = String c1 (s +:+ String c2 "").
Proof.
  intros H1 H2. unfold Str.strip. rewrite lstrip_id by done.
  by rewrite <-app_String, rstrip_id.
Qed.

Lemma str_snoc s : s = "" ∨ ∃ u c, s = u +:+ String c "".
Proof.
  induction s as [|c s [->|(u & c' & ->)]]; [by left|right..].
  - by exists "", c.
  - exists (String c u), c'. by rewrite app_String.
Qed.

Lemma strip_all_not_space s : str_all not_space s = true → Str.strip s = s.
Proof.
  intros H. destruct s as [|c1 s]; [done|].
  simpl in H. apply andb_true_iff in H as [H1 H].
  apply negb_true_iff in H1.
  destruct (str_snoc s) as [->|(u & c2 & ->)].
  - unfold Str.strip. rewrite lstrip_id by done. apply (rstrip_id "" c1 H1).
  - rewrite str_all_app in H. apply andb_true_iff in H as [_ H].
    simpl in H. rewrite andb_true_r in H. apply negb_true_iff in H.
    by apply strip_id.
Qed.

(** *** [split] *)

Lemma split_go_line sep cur u v :
  Str.has_char sep u = false →
  Str.split_go sep cur (u +:+ String sep v)
  = (String.rev cur +:+ u) :: Str.split_go sep "" v.
Proof.
  revert cur. induction u as [|c u IH]; intros cur H; simpl.
  - rewrite Ascii.eqb_refl. by rewrite str_append_empty_r.
  - simpl in *. apply orb_false_iff in H as [Hc H].
    rewrite Hc, IH by done. by rewrite str_rev_String, str_append_assoc.
Qed.

Lemma split_go_last sep cur u :
  Str.has_char sep u = false →
  Str.split_go sep cur u = [String.rev cur +:+ u].
Proof.
  revert cur. induction u as [|c u IH]; intros cur H; simpl.
  - by rewrite str_append_empty_r.
  - simpl in *. apply orb_false_iff in H as [Hc H].
    rewrite Hc, IH by done. by rewrite str_rev_String, str_append_assoc.
Qed.

Lemma split_line sep u v :
  Str.has_char sep u = false →
  Str.split sep (u +:+ String sep v) = u :: Str.split sep v.
Proof. intros. unfold Str.split. by rewrite split_go_line. Qed.

Lemma split_last sep u :
  Str.has_char sep u = false → Str.split sep u = [u].
Proof. intros. unfold Str.split. by rewrite split_go_last. Qed.

Lemma split_go_nonempty sep cur s : Str.split_go sep cur s ≠ [].
Proof. revert cur. induction s as [|c s IH]; intros cur; simpl; [done|]. by case_match. Qed.

Lemma has_char_app c u v :
  Str.has_char c (u +:+ v) = Str.has_char c u || Str.has_char c v.
Proof. induction u as [|c' u IH]; [done|]. rewrite app_String. simpl. by rewrite IH, orb_assoc. Qed.

(** *** [split()] *)

Lemma split_ws_go_token cur u c v :
  str_all not_space u = true → Str.is_space c = true → String.rev cur +:+ u ≠ "" →
  Str.split_ws_go cur (u +:+ String c v)
  = (String.rev cur +:+ u) :: Str.split_ws_go "" v.
Proof.
  revert cur. induction u as [|c' u IH]; intros cur Hu Hc Hne; simpl.
  - rewrite Hc. rewrite str_append_empty_r in *. case_decide as E; [by subst|done].
  - simpl in *. apply andb_true_iff in Hu as [Hc' Hu].
    apply negb_true_iff in Hc'. rewrite Hc'.
    rewrite IH; rewrite ?str_rev_String, ?str_append_assoc; try done.
Qed.

Lemma split_ws_go_skip u v :
  str_all Str.is_space u = true →
  Str.split_ws_go "" (u +:+ v) = Str.split_ws_go "" v.
Proof.
  induction u as [|c u IH]; intros Hu; [done|].
  rewrite app_String. simpl in *. apply andb_true_iff in Hu as [-> Hu]. by apply IH.
Qed.

End Strings.

(** ** Dictionaries in insertion order *)

Section DictFacts.
Context {V : Type}.
Implicit Types (d : list (string * V)) (k : string) (v : V).

Lemma dict_get_set k' k v d :
  Dict.get k' (Dict.set k v d) = if decide (k = k') then Some v else Dict.get k' d.
Proof.
  induction d as [|[k0 v0] d IH]; simpl.
  - repeat case_decide; done.
  - destruct (decide (k0 = k)) as [->|Hne]; simpl; repeat case_decide; simplify_eq; done.
Qed.

Lemma dict_get_None k d : Dict.get k d = None ↔ k ∉ d.*1.
Proof.
  induction d as [|[k0 v0] d IH]; simpl.
  - split; [intros _; apply not_elem_of_nil|done].
  - rewrite not_elem_of_cons. case_decide; naive_solver.
Qed.

Lemma dict_get_Some k v d : Dict.get k d = Some v → (k, v) ∈ d.
Proof.
  induction d as [|[k0 v0] d IH]; simpl; [done|].
  case_decide; [intros [= ->]; subst; left|right; auto].
Qed.

Lemma dict_get_elem k v d : NoDup d.*1 → (k, v) ∈ d → Dict.get k d = Some v.
Proof.
  induction d as [|[k0 v0] d IH]; simpl; [by intros _ ?%elem_of_nil|].
  intros [Hk0 Hnd]%NoDup_cons [[= -> ->]|Hin]%elem_of_cons.
  - by rewrite decide_True.
  - rewrite decide_False; [auto|]. intros ->. apply Hk0. by apply (list_elem_of_fmap_2 fst) in Hin.
Qed.

Lemma dict_set_new k v d : k ∉ d.*1 → Dict.set k v d = d ++ [(k, v)].
Proof.
  induction d as [|[k0 v0] d IH]; simpl; [done|].
  intros [??]%not_elem_of_cons. rewrite decide_False by done. by rewrite IH.
Qed.

Lemma dict_set_keys k v d :
  (Dict.set k v d).*1 = if decide (k ∈ d.*1) then d.*1 else d.*1 ++ [k].
Proof.
  induction d as [|[k0 v0] d IH]; cbn [Dict.set fmap list_fmap fst].
  - case_decide as E; [by apply elem_of_nil in E|done].
  - destruct (decide (k0 = k)) as [->|Hne]; cbn [fmap list_fmap fst].
    + rewrite decide_True; [done|left].
    + rewrite IH. destruct (decide (k ∈ d.*1)).
      * rewrite decide_True; [done|by right].
      * rewrite decide_False; [done|]. by intros [?|?]%elem_of_cons.
Qed.

Lemma dict_set_NoDup k v d : NoDup d.*1 → NoDup (Dict.set k v d).*1.
Proof.
  intros Hnd. rewrite dict_set_keys. case_decide; [done|].
  apply NoDup_app. split_and!; [done| |apply NoDup_singleton].
  intros x Hx ->%list_elem_of_singleton. done.
Qed.

End DictFacts.

(** ** [read_blast_output]: the lines that are filed *)

Section ReadBlast.
Import Utils.
Implicit Types (d : list (string * list string)) (p line : string).

Lemma hits_of_extend p k l d :
  hits_of p (Dict.extend k l d) = if decide (k = p) then hits_of p d ++ l else hits_of p d.
Proof.
  unfold hits_of, Dict.extend. rewrite dict_get_set. by case_decide; subst.
Qed.

Lemma extend_NoDup {A} k (l : list A) (d : list (string * list A)) :
  NoDup d.*1 → NoDup (Dict.extend k l d).*1.
Proof. apply dict_set_NoDup. Qed.

Lemma columns_nonempty line : ∃ p, Scorer.columns line !! 0 = Some p.
Proof.
  unfold Scorer.columns, Str.split.
  destruct (Str.split_go _ _ _) as [|p ?] eqn:E; [by apply split_go_nonempty in E|by exists p].
Qed.

(** What one line does: nothing, or one more hit for its first column. *)
Lemma read_line_spec d line :
  read_line d line
  = inr (if decide (data_line line)
         then Dict.extend (default "" (Scorer.columns line !! 0)) [line] d else d).
Proof.
  unfold read_line. fold (Scorer.columns line).
  destruct (decide (data_line line)) as [(H1 & H2 & H3)|Hn].
  - rewrite bool_decide_eq_false_2 by done. rewrite H2. simpl.
    rewrite (proj2 (Nat.ltb_ge _ _)) by done.
    by destruct (columns_nonempty line) as [p ->].
  - destruct (bool_decide (line = "")) eqn:E1; simpl; [done|].
    destruct (Str.startswith line "#") eqn:E2; [done|].
    destruct (length _ <? 12) eqn:E3; [done|].
    exfalso. apply Hn. split_and!; [by apply bool_decide_eq_false in E1|done|].
    by apply Nat.ltb_ge.
Qed.

Lemma read_lines_spec lines d :
  fold_exn read_line lines d
  = inr (fold_left (λ d line, Dict.extend (default "" (Scorer.columns line !! 0)) [line] d)
           (filter data_line lines) d).
Proof.
  revert d. induction lines as [|line lines IH]; intros d; [done|].
  simpl. rewrite read_line_spec, IH, filter_cons. by case_decide.
Qed.

Lemma read_blast_output_fold content :
  read_blast_output (Some content)
  = fold_left (λ d line, Dict.extend (default "" (Scorer.columns line !! 0)) [line] d)
      (data_lines content) [].
Proof. unfold read_blast_output. by rewrite read_lines_spec. Qed.

Lemma filed_lines_from p (lines : list string) d :
  hits_of p (fold_left (λ d line, Dict.extend (default "" (Scorer.columns line !! 0)) [line] d)
               lines d)
  = hits_of p d ++ filter (filed_under p) lines.
Proof.
  revert d. induction lines as [|line lines IH]; intros d; simpl.
  - by rewrite app_nil_r.
  - rewrite IH, hits_of_extend, filter_cons.
    destruct (columns_nonempty line) as [q Hq].
    destruct (decide (filed_under p line)) as [Hf|Hf]; unfold filed_under in Hf;
      rewrite Hq in *; simpl.
    + injection Hf as ->. rewrite decide_True by done. by rewrite <-app_assoc.
    + rewrite decide_False; [done|congruence].
Qed.

End ReadBlast.

(** ** Loading the BLAST files *)

Section Loading.
Import Utils ScorerIO.
Implicit Types (d items : list (string * list string)) (p k : string).

Lemma dict_set_elem {V} k (v : V) k' v' (d : list (string * V)) :
  (k', v') ∈ Dict.set k v d → (k' = k ∧ v' = v) ∨ (k', v') ∈ d.
Proof.
  induction d as [|[k0 v0] d IH]; simpl.
  - intros [= -> ->]%list_elem_of_singleton. by left.
  - case_decide; subst.
    + intros [[= -> ->]|?]%elem_of_cons; [by left|]. right. by right.
    + intros [[= -> ->]|?]%elem_of_cons; [right; by left|].
      destruct IH as [?|?]; [done|by left|right; by right].
Qed.

Lemma extend_well_filed k (l : list string) d :
  well_filed d → l ≠ [] → (∀ h, h ∈ l → data_line h ∧ filed_under k h) →
  well_filed (Dict.extend k l d).
Proof.
  intros [Hnd Hd] Hl Hgood. split; [by apply extend_NoDup|].
  intros p hits [[-> ->]|Hin]%dict_set_elem; [|by apply Hd].
  split; [by destruct (default [] _)|].
  intros h [Hh|Hh]%elem_of_app; [|by apply Hgood].
  destruct (Dict.get k d) as [hs|] eqn:E; simpl in Hh; [|by apply elem_of_nil in Hh].
  apply dict_get_Some in E. by apply (Hd k hs).
Qed.

Lemma well_filed_nil : well_filed [].
Proof. split; [constructor|]. by intros p hits ?%elem_of_nil. Qed.

Lemma read_blast_output_well_filed content : well_filed (read_blast_output content).
Proof.
  destruct content as [content|]; [|apply well_filed_nil].
  rewrite read_blast_output_fold. unfold data_lines.
  generalize (Str.split Str.newline (Str.strip content)). intros lines.
  assert (well_filed []) as H by apply well_filed_nil. revert H.
  generalize (@nil (string * list string)).
  induction lines as [|line lines IH]; intros d Hd; [done|].
  rewrite filter_cons. case_decide as Hline; [|by apply IH].
  simpl. apply IH, extend_well_filed; [done..|].
  intros h Hh. apply list_elem_of_singleton in Hh. subst h. split; [done|].
  unfold filed_under. by destruct (columns_nonempty line) as [q ->].
Qed.

Lemma merge_well_filed items d :
  well_filed items → well_filed d →
  well_filed (fold_left (λ acc '(probe_id, hits), Dict.extend probe_id hits acc) items d).
Proof.
  intros [_ Hitems]. revert d.
  induction items as [|[k hs] items IH]; intros d Hd; [done|].
  simpl. apply IH.
  - intros p hits Hin. apply Hitems. by right.
  - destruct (Hitems k hs) as [? ?]; [by left|]. by apply extend_well_filed.
Qed.

Lemma load_blast_results_well_filed files : well_filed (load_blast_results files).
Proof.
  unfold load_blast_results.
  assert (well_filed []) as H by apply well_filed_nil. revert H.
  generalize (@nil (string * list string)).
  induction files as [|content files IH]; intros d Hd; [done|].
  simpl. apply IH. unfold merge_file.
  apply merge_well_filed; [apply read_blast_output_well_filed|done].
Qed.

Lemma hits_of_not_key p d : p ∉ d.*1 → hits_of p d = [].
Proof. intros H%dict_get_None. unfold hits_of. by rewrite H. Qed.

Lemma merge_hits p items d :
  NoDup items.*1 →
  hits_of p (fold_left (λ acc '(probe_id, hits), Dict.extend probe_id hits acc) items d)
  = hits_of p d ++ hits_of p items.
Proof.
  revert d. induction items as [|[k hs] items IH]; intros d Hnd.
  - simpl. by rewrite app_nil_r.
  - rewrite fmap_cons in Hnd. apply NoDup_cons in Hnd as [Hk Hnd]. simpl in Hk.
    cbn [fold_left]. rewrite IH, hits_of_extend by done.
    assert (hits_of p ((k, hs) :: items) = if decide (k = p) then hs else hits_of p items)
      as -> by (unfold hits_of; simpl; by case_decide).
    destruct (decide (k = p)) as [->|Hne]; [|done].
    rewrite (hits_of_not_key p items) by done. by rewrite app_nil_r.
Qed.

Lemma load_hits_from p files d :
  hits_of p (fold_left merge_file files d)
  = hits_of p d ++ (files ≫= λ content, hits_of p (read_blast_output content)).
Proof.
  revert d. induction files as [|content files IH]; intros d.
  - simpl. by rewrite app_nil_r.
  - cbn [fold_left]. rewrite IH, bind_cons. unfold merge_file.
    rewrite merge_hits by apply read_blast_output_well_filed.
    by rewrite <-app_assoc.
Qed.

Lemma well_filed_key_hits p d : well_filed d → (p ∈ d.*1 ↔ hits_of p d ≠ []).
Proof.
  intros [Hnd Hd]. unfold hits_of. split.
  - intros Hp. destruct (Dict.get p d) as [hs|] eqn:E; simpl.
    + apply dict_get_Some in E. by apply (Hd p hs).
    + by apply dict_get_None in E.
  - destruct (Dict.get p d) as [hs|] eqn:E; simpl; [|done].
    intros _. apply dict_get_Some in E. by apply (list_elem_of_fmap_2 fst) in E.
Qed.

(** X1: the hits that [read_blast_output] files under a probe id are the
    data lines of the text whose first column is that id, in the order of
    the text; the ids with a data line are the keys, each key once. *)
Theorem read_blast_output_files_data_lines (content : string) :
  let blast_results := read_blast_output (Some content) in
  NoDup blast_results.*1
  ∧ (∀ p, hits_of p blast_results = filter (filed_under p) (data_lines content))
  ∧ (∀ p, p ∈ blast_results.*1 ↔ ∃ line, line ∈ data_lines content ∧ filed_under p line).
Proof.
  intros blast_results. subst blast_results.
  assert (∀ p, hits_of p (read_blast_output (Some content))
               = filter (filed_under p) (data_lines content)) as Hh.
  { intros p. by rewrite read_blast_output_fold, filed_lines_from. }
  pose proof (read_blast_output_well_filed (Some content)) as Hwf.
  split_and!; [apply Hwf|done|].
  intros p. rewrite (well_filed_key_hits p _ Hwf), Hh.
  split.
  - destruct (filter _ _) as [|line ?] eqn:E; [done|]. intros _.
    exists line. assert (line ∈ filter (filed_under p) (data_lines content)) as Hin
      by (rewrite E; left).
    apply list_elem_of_filter in Hin. tauto.
  - intros (line & Hin & Hf) E.
    assert (line ∈ filter (filed_under p) (data_lines content)) as Hin'
      by (by apply list_elem_of_filter).
    rewrite E in Hin'. by apply elem_of_nil in Hin'.
Qed.

(** X2: [load_blast_results] files under each probe id the hits that the
    files hold for it, file after file in the order of [files_to_load];
    each id is a key once, no key has an empty list, and every hit kept has
    12 columns or more and the key as its first column. *)
Theorem load_blast_results_merges_in_order (files : list (option string)) :
  let blast_results := load_blast_results files in
  (∀ p, hits_of p blast_results
        = files ≫= λ content, hits_of p (read_blast_output content))
  ∧ NoDup blast_results.*1
  ∧ ∀ p hits, (p, hits) ∈ blast_results →
      hits ≠ [] ∧ ∀ h, h ∈ hits → 12 ≤ length (Scorer.columns h) ∧ filed_under p h.
Proof.
  intros blast_results. subst blast_results.
  destruct (load_blast_results_well_filed files) as [Hnd Hd].
  split_and!; [|done|].
  - intros p. unfold load_blast_results. by rewrite load_hits_from.
  - intros p hits Hin. destruct (Hd p hits Hin) as [Hne Hall]. split; [done|].
    intros h Hh. destruct (Hall h Hh) as [(_ & _ & ?) ?]. done.
Qed.

End Loading.

(** ** The record of one probe *)

Section RecordFacts.
Import Scorer.
Context {N : PyNum}.
Implicit Types (probes : gmap string string) (v : Locals.t pyfloat).

Lemma apply_effect_counts eff v :
  let v' := (apply_effect eff v).1 in
  Locals.perfect_matches v' - Locals.perfect_matches v
  ≤ Locals.total_hits v' - Locals.total_hits v
  ∧ Locals.perfect_matches v ≤ Locals.perfect_matches v'
  ∧ Locals.total_hits v ≤ Locals.total_hits v' ≤ Locals.total_hits v + 1.
Proof.
  destruct v as [raw total perfect M].
  destruct eff as [|c|c [t|]|c [t|] []|c e]; simpl; lia.
Qed.

Lemma run_effects_counts effs v :
  let v' := (run_effects effs v).1 in
  Locals.perfect_matches v ≤ Locals.total_hits v →
  Locals.perfect_matches v' ≤ Locals.total_hits v'
  ∧ Locals.total_hits v' ≤ Locals.total_hits v + length effs.
Proof.
  revert v. induction effs as [|eff effs IH]; intros v; simpl; [lia|].
  pose proof (apply_effect_counts eff v) as Hc. simpl in Hc.
  destruct (apply_effect eff v) as [v1 [e|[]]] eqn:E; simpl in *.
  - lia.
  - intros Hle. specialize (IH v1). simpl in IH. lia.
Qed.

Lemma calculate_probe_score_record probes pid hits r :
  calculate_probe_score probes pid hits = Some r →
  probe_id r = pid
  ∧ perfect_matches r ≤ total_hits r ≤ length hits
  ∧ (in_fasta r = false → probe_length r = 0).
Proof.
  rewrite calculate_probe_score_finish, score_hits_effects. unfold finish.
  pose proof (run_effects_counts (classify (String.length (default "" (probes !! pid))) <$> hits)
                initial) as Hc.
  simpl in Hc. rewrite length_fmap in Hc.
  destruct (run_effects _ initial) as [v [e|[]]]; [done|].
  unfold make_record, Py.get, Py.lift. cbv [mbind mret Py.M_bind Py.M_ret].
  destruct (formula_score _) as [s|]; [|done]. simpl.
  intros [= <-]. simpl. specialize (Hc (le_n 0)). simpl in Hc.
  split_and!; [done|lia|lia|].
  intros Hf%bool_decide_eq_false. destruct (probes !! pid); [|done].
  destruct Hf. by eexists.
Qed.

End RecordFacts.

(** ** The order of the hits *)

Section HitOrder.
Import Scorer Py.
Context {N : PyNum}.
Implicit Types (v : Locals.t pyfloat) (r : Locals.t pyfloat * (exn + unit)).

Lemma same_counts_refl v : same_counts v v.
Proof. by split_and!. Qed.

Lemma same_counts_trans v1 v2 v3 :
  same_counts v1 v2 → same_counts v2 v3 → same_counts v1 v3.
Proof.
  intros (Ht1 & Hp1 & HM1) (Ht2 & Hp2 & HM2). split_and!; congruence.
Qed.

Lemma same_exit_trans r1 r2 r3 : same_exit r1 r2 → same_exit r2 r3 → same_exit r1 r3.
Proof.
  unfold same_exit. destruct r1 as [v1 [?|?]], r2 as [v2 [?|?]], r3 as [v3 [?|?]];
    simpl; try done. apply same_counts_trans.
Qed.

Lemma apply_effect_same_counts eff v v' :
  same_counts v v' → same_counts (apply_effect eff v).1 (apply_effect eff v').1.
Proof.
  destruct v as [raw total perfect M], v' as [raw' total' perfect' M'].
  intros (Ht & Hp & HM). simpl in *. subst.
  by destruct eff as [|c|c [t|]|c [t|] []|c e].
Qed.

Lemma apply_effect_swap_counts eff1 eff2 v :
  same_counts (apply_effect eff2 (apply_effect eff1 v).1).1
              (apply_effect eff1 (apply_effect eff2 v).1).1.
Proof.
  assert (∀ c1 c2 (M : gset string), {[c2]} ∪ ({[c1]} ∪ M) = {[c1]} ∪ ({[c2]} ∪ M))
    as Hset by (intros; set_solver).
  destruct v as [raw total perfect M].
  destruct eff1 as [|c1|c1 [t1|]|c1 [t1|] []|c1 e1],
           eff2 as [|c2|c2 [t2|]|c2 [t2|] []|c2 e2];
    split_and!; simpl; rewrite ?(Hset c1 c2); done.
Qed.

(** Whether a hit ends the loop does not depend on the locals. *)
Lemma run_effects_step eff effs v :
  run_effects (eff :: effs) v
  = if is_fatal eff then apply_effect eff v else run_effects effs (apply_effect eff v).1.
Proof.
  simpl. destruct eff as [|c|c t|c t p|c e]; simpl; try done.
  all: by destruct (apply_effect _ v) eqn:E; simpl in E; simplify_eq.
Qed.

Lemma fatal_exit eff r r' v v' :
  is_fatal eff = true → r.2 = (apply_effect eff v).2 → r'.2 = (apply_effect eff v').2 →
  same_exit r r'.
Proof.
  destruct eff; try done. simpl. unfold same_exit. by intros _ -> ->.
Qed.

Lemma run_effects_same_counts effs v v' :
  same_counts v v' → same_exit (run_effects effs v) (run_effects effs v').
Proof.
  revert v v'. induction effs as [|eff effs IH]; intros v v' Hv; [done|].
  rewrite !run_effects_step. destruct (is_fatal eff) eqn:Ef.
  - by eapply fatal_exit.
  - by apply IH, apply_effect_same_counts.
Qed.

(** The order of the hits changes neither whether the loop ends normally
    nor the counts and targets it ends with. *)
Lemma run_effects_Permutation effs effs' :
  effs ≡ₚ effs' →
  ∀ v v', same_counts v v' → same_exit (run_effects effs v) (run_effects effs' v').
Proof.
  induction 1 as [|eff effs effs' _ IH|eff1 eff2 effs|effs1 effs2 effs3 _ IH1 _ IH2];
    intros v v' Hv.
  - done.
  - rewrite !run_effects_step. destruct (is_fatal eff) eqn:Ef.
    + by eapply fatal_exit.
    + by apply IH, apply_effect_same_counts.
  - rewrite !run_effects_step.
    destruct (is_fatal eff1) eqn:E1, (is_fatal eff2) eqn:E2.
    + destruct eff1, eff2; done.
    + by eapply (fatal_exit eff1).
    + by eapply (fatal_exit eff2).
    + apply run_effects_same_counts.
      eapply same_counts_trans; [apply apply_effect_swap_counts|].
      by do 2 apply apply_effect_same_counts.
  - eapply same_exit_trans; [by apply IH1|]. apply IH2, same_counts_refl.
Qed.

Lemma finish_counts probes pid matched r rec :
  finish probes pid matched r = Some rec →
  r.2 = inr tt
  ∧ probe_id rec = pid
  ∧ perfect_matches rec = Locals.perfect_matches r.1
  ∧ total_hits rec = Locals.total_hits r.1
  ∧ matched_chromosomes rec = matched (Locals.matched_chromosomes r.1)
  ∧ probe_length rec = String.length (default "" (probes !! pid))
  ∧ in_fasta rec = bool_decide (is_Some (probes !! pid)).
Proof.
  destruct r as [v [e|[]]]; simpl; [done|].
  unfold make_record, Py.get, Py.lift. cbv [mbind mret Py.M_bind Py.M_ret].
  destruct (formula_score _) as [f|]; [|done]. by intros [= <-].
Qed.

(** X3: for any arithmetic, when [calculate_probe_score] returns a record
    for a list of hits and for a reordering of it, the two records have the
    same probe id, the same counts of hits and of perfect matches, the same
    matched targets, the same probe length and the same [in_fasta] flag.
    (The score is a sum of floats in the order of the hits, and may
    differ.) *)
Theorem counts_do_not_depend_on_hit_order (probes : gmap string string) (pid : string)
    (hits hits' : list string) (r r' : score_record pyfloat) :
  hits ≡ₚ hits' →
  calculate_probe_score probes pid hits = Some r →
  calculate_probe_score probes pid hits' = Some r' →
  probe_id r' = probe_id r
  ∧ total_hits r' = total_hits r
  ∧ perfect_matches r' = perfect_matches r
  ∧ matched_chromosomes r' = matched_chromosomes r
  ∧ probe_length r' = probe_length r
  ∧ in_fasta r' = in_fasta r.
Proof.
  intros Hperm. rewrite !calculate_probe_score_finish, !score_hits_effects.
  set (pl := String.length _).
  intros (Ho & H1 & H2 & H3 & H4 & H5 & H6)%finish_counts
         (Ho' & H1' & H2' & H3' & H4' & H5' & H6')%finish_counts.
  pose proof (run_effects_Permutation (classify pl <$> hits) (classify pl <$> hits')
                ltac:(by rewrite Hperm) initial initial (same_counts_refl _)) as Hsame.
  unfold same_exit in Hsame. rewrite Ho, Ho' in Hsame. destruct Hsame as (Ht & Hp & HM).
  split_and!; congruence.
Qed.

End HitOrder.

(** ** The ranking of loaded results *)

Section ScoresOfLoadedResults.
Import Scorer ScorerIO.
Context {N : PyNum}.
Implicit Types (probes : gmap string string) (bs : list (list (string * list string))).

Lemma lookup_total_elem {A} (ls : list (list A)) idx (x : A) :
  x ∈ ls !!! idx → ∃ l, ls !! idx = Some l ∧ x ∈ l.
Proof.
  rewrite list_lookup_total_alt. destruct (ls !! idx) as [l|]; simpl; [eauto|].
  by intros ?%elem_of_nil.
Qed.

Lemma delivered_elem probes bs failed idx r :
  r ∈ delivered probes bs failed idx →
  ∃ b hits, bs !! idx = Some b ∧ (probe_id r, hits) ∈ b
    ∧ calculate_probe_score probes (probe_id r) hits = Some r.
Proof.
  unfold delivered. destruct (failed idx); [by intros ?%elem_of_nil|].
  intros ([pid hits] & Hin & Hr)%list_elem_of_omap. simpl in Hr.
  apply lookup_total_elem in Hin as (b & Hb & Hin).
  destruct (calculate_probe_score_record _ _ _ _ Hr) as [<- _]. eauto.
Qed.

Lemma delivered_ids probes bs failed idx :
  probe_id <$> delivered probes bs failed idx `sublist_of` (bs !!! idx).*1.
Proof.
  unfold delivered. destruct (failed idx); [apply sublist_nil_l|].
  induction (bs !!! idx) as [|[pid hits] b IH]; [done|]. simpl.
  destruct (calculate_probe_score probes pid hits) as [r|] eqn:E; simpl.
  - destruct (calculate_probe_score_record _ _ _ _ E) as [-> _]. by apply sublist_skip.
  - by apply sublist_cons.
Qed.

Lemma NoDup_concat_lookup {A} (ls : list (list A)) i j a b (x : A) :
  NoDup (concat ls) → ls !! i = Some a → ls !! j = Some b → x ∈ a → x ∈ b → i = j.
Proof.
  revert i j. induction ls as [|l ls IH]; intros i j Hnd Hi Hj Ha Hb; [done|].
  simpl in Hnd. apply NoDup_app in Hnd as (Hl & Hdis & Hrest).
  assert (∀ k c, ls !! k = Some c → x ∈ c → x ∈ concat ls) as Hin.
  { intros k c Hk Hc. apply list_elem_of_In, in_concat. exists c.
    split; apply list_elem_of_In; [by eapply list_elem_of_lookup_2|done]. }
  destruct i as [|i], j as [|j]; simplify_eq/=; [done|..].
  - destruct (Hdis x); eauto.
  - destruct (Hdis x); eauto.
  - f_equal. eauto.
Qed.

Lemma NoDup_chunks_ids bs idx :
  NoDup (concat bs).*1 → NoDup (bs !!! idx).*1.
Proof.
  intros Hnd. rewrite list_lookup_total_alt.
  destruct (bs !! idx) as [b|] eqn:E; simpl; [|constructor].
  apply list_elem_of_lookup_2, list_elem_of_split in E as (l1 & l2 & ->).
  rewrite concat_app, fmap_app in Hnd. apply NoDup_app in Hnd as (_ & _ & Hnd).
  simpl in Hnd. rewrite fmap_app in Hnd. by apply NoDup_app in Hnd as (? & _ & _).
Qed.

Lemma collected_ids_NoDup probes bs failed completion :
  NoDup (concat bs).*1 → NoDup completion →
  NoDup (probe_id <$> completion ≫= delivered probes bs failed).
Proof.
  intros Hnd. induction 1 as [|idx completion Hidx Hcomp IH]; [constructor|].
  rewrite bind_cons, fmap_app. apply NoDup_app. split_and!; [|intros pid H1 H2|done].
  - eapply sublist_NoDup; [by apply NoDup_chunks_ids|apply delivered_ids].
  - apply list_elem_of_fmap in H1 as (r1 & -> & Hr1).
    apply list_elem_of_fmap in H2 as (r2 & Hid & Hr2).
    apply list_elem_of_bind in Hr2 as (idx2 & Hr2 & Hidx2).
    apply delivered_elem in Hr1 as (b1 & h1 & Hb1 & Hin1 & _).
    apply delivered_elem in Hr2 as (b2 & h2 & Hb2 & Hin2 & _).
    apply Hidx. replace idx with idx2; [done|].
    assert ((fmap fst <$> bs) !! idx = Some b1.*1) as H1 by (by rewrite list_lookup_fmap, Hb1).
    assert ((fmap fst <$> bs) !! idx2 = Some b2.*1) as H2 by (by rewrite list_lookup_fmap, Hb2).
    eapply (NoDup_concat_lookup (fmap fst <$> bs) idx2 idx _ _ (probe_id r1));
      [|done|done|..].
    + clear -Hnd. induction bs as [|b bs IH]; [done|].
      simpl in *. rewrite fmap_app in Hnd. apply NoDup_app in Hnd as (? & Hd & ?).
      apply NoDup_app. split_and!; [done| |auto].
      intros x Hx Hx'. apply (Hd x Hx).
      clear -Hx'. induction bs as [|b' bs IH]; [done|]. simpl in *.
      rewrite fmap_app. apply elem_of_app in Hx' as [?|?]; apply elem_of_app; auto.
    + rewrite Hid. by apply (list_elem_of_fmap_2 fst) in Hin2.
    + by apply (list_elem_of_fmap_2 fst) in Hin1.
Qed.

(** X4: the ranking holds at most one record for each probe id, whatever the
    files that were loaded, the size of the chunks, the order in which the
    chunks complete and the chunks that fail. *)
Theorem scores_one_record_per_probe probes (files : list (option string))
    (chunk_size : nat) (completion : list nat) (failed : nat → bool)
    (scores : list (score_record pyfloat)) :
  NoDup completion →
  calculate_all_scores probes (load_blast_results files) chunk_size completion failed
    = inr scores →
  NoDup (probe_id <$> scores).
Proof.
  intros Hcomp. unfold calculate_all_scores.
  destruct (batches chunk_size _) as [e|bs] eqn:Hbs; [done|]. intros [= <-].
  rewrite sort_desc_perm, collect_delivered.
  apply collected_ids_NoDup; [|done].
  destruct (Nat.eq_dec chunk_size 0) as [->|Hpos]; [done|].
  destruct (batches_spec (load_blast_results files) chunk_size ltac:(lia))
    as (bs' & Hbs' & Hconcat & _).
  rewrite Hbs in Hbs'. injection Hbs' as <-. rewrite Hconcat.
  apply load_blast_results_well_filed.
Qed.

(** X5: every record that the worker returns belongs to a probe of its
    batch; its perfect matches are among its counted hits, which are among
    the hits of the probe, and a probe that is not in the FASTA file has
    length 0. *)
Theorem score_record_counts probes (batch : list (string * list string))
    (r : score_record pyfloat) :
  r ∈ static_calculate_probes_batch probes batch →
  ∃ hits, (probe_id r, hits) ∈ batch
    ∧ perfect_matches r ≤ total_hits r ≤ length hits
    ∧ (in_fasta r = false → probe_length r = 0).
Proof.
  rewrite static_batch_omap. intros ([pid hits] & Hin & Hr)%list_elem_of_omap.
  simpl in Hr. destruct (calculate_probe_score_record _ _ _ _ Hr) as (<- & Hc & Hf).
  by exists hits.
Qed.

End ScoresOfLoadedResults.

(** ** What the ranking holds *)

Section RankingContent.
Import Scorer.
Context {N : PyNum}.

Lemma omap_concat_batches {A B} (f : A → option B) (bs : list (list A)) :
  seq 0 (length bs) ≫= (λ batch_idx, omap f (bs !!! batch_idx)) = omap f (concat bs).
Proof.
  induction bs as [|b bs IH]; [done|].
  cbn [length seq concat]. rewrite bind_cons, omap_app. f_equal.
  rewrite <- IH, <- fmap_S_seq, list_fmap_bind. done.
Qed.

Lemma delivered_all probes bs failed (idxs : list nat) :
  (∀ batch_idx, batch_idx ∈ idxs → failed batch_idx = false) →
  idxs ≫= delivered probes bs failed
  = idxs ≫= (λ batch_idx,
      omap (λ item, calculate_probe_score probes item.1 item.2) (bs !!! batch_idx)).
Proof.
  induction idxs as [|idx idxs IH]; intros Hf; [done|].
  rewrite !bind_cons, IH by (intros ??; apply Hf; by right).
  unfold delivered at 1. by rewrite Hf by left.
Qed.

(** X6: with a positive chunk size, when every chunk completes once and
    none fails, the ranking holds the records that [calculate_probe_score]
    returns for the probes of [blast_results], each as often as there: which
    records are ranked depends neither on the size of the chunks nor on the
    order in which they complete. *)
Theorem ranking_holds_every_scored_probe probes
    (blast_results : list (string * list string)) (chunk_size : nat)
    (completion : list nat) (failed : nat → bool) :
  0 < chunk_size →
  ∃ bs scores,
    batches chunk_size blast_results = inr bs
    ∧ calculate_all_scores probes blast_results chunk_size completion failed = inr scores
    ∧ (completion ≡ₚ seq 0 (length bs) →
       (∀ batch_idx, batch_idx < length bs → failed batch_idx = false) →
       scores ≡ₚ omap (λ item, calculate_probe_score probes item.1 item.2) blast_results).
Proof.
  intros Hc. destruct (batches_spec blast_results chunk_size Hc) as (bs & Hbs & Hconcat & _).
  exists bs. eexists. unfold calculate_all_scores. rewrite Hbs.
  split_and!; [done..|]. intros Hperm Hfailed.
  rewrite sort_desc_perm, collect_delivered, Hperm, delivered_all.
  - by rewrite omap_concat_batches, Hconcat.
  - intros idx Hidx%elem_of_seq. apply Hfailed. lia.
Qed.

End RankingContent.

(** ** Scoring, then extraction *)

Section ScoringThenExtraction.
Import Scorer.
Context {N : PyNum}.

Lemma calculate_probe_score_in_fasta probes pid hits r :
  calculate_probe_score probes pid hits = Some r →
  in_fasta r = bool_decide (is_Some (probes !! probe_id r)).
Proof.
  rewrite calculate_probe_score_finish, score_hits_effects. unfold finish.
  destruct (run_effects _ initial) as [v [e|[]]]; [done|].
  unfold make_record, Py.get, Py.lift. cbv [mbind mret Py.M_bind Py.M_ret].
  destruct (formula_score _) as [s|]; [|done]. by intros [= <-].
Qed.

Lemma calculate_all_scores_consistent probes blast_results chunk_size completion failed
    scores :
  calculate_all_scores probes blast_results chunk_size completion failed = inr scores →
  consistent probes scores.
Proof.
  unfold calculate_all_scores. destruct (batches _ _) as [e|bs]; [done|]. intros [= <-].
  intros r Hr Hf. rewrite sort_desc_perm, collect_delivered in Hr.
  apply list_elem_of_bind in Hr as (idx & Hr & _).
  apply delivered_elem in Hr as (b & hits & _ & _ & Hr).
  apply calculate_probe_score_in_fasta in Hr. rewrite Hf in Hr.
  symmetry in Hr. by apply bool_decide_eq_true in Hr.
Qed.

Lemma best_from_any (scores : list (score_record pyfloat)) b0 :
  (∀ b, b0 = Some b → in_fasta b = true) →
  match fold_left best_step scores b0 with
  | Some b => in_fasta b = true ∧ (b0 = Some b ∨ b ∈ scores)
  | None => b0 = None ∧ ∀ r, r ∈ scores → in_fasta r = false
  end.
Proof.
  revert b0. induction scores as [|r scores IH]; intros b0 Hb0; cbn [fold_left].
  - destruct b0 as [b|]; [split; [by apply Hb0|by left]|].
    split; [done|]. by intros r ?%elem_of_nil.
  - assert (∀ b1, (∀ b, b1 = Some b → in_fasta b = true) →
              (b1 = b0 ∨ b1 = Some r) → (b1 = None → in_fasta r = false ∧ b0 = None) →
              match fold_left best_step scores b1 with
              | Some b => in_fasta b = true ∧ (b0 = Some b ∨ b ∈ r :: scores)
              | None => b0 = None ∧ ∀ r', r' ∈ r :: scores → in_fasta r' = false
              end) as Hstep.
    { intros b1 Hb1 Hor Hnone. specialize (IH b1 Hb1).
      destruct (fold_left _ _ _) as [b|].
      - destruct IH as [Hf Hin]. split; [done|].
        destruct Hin as [Hin|Hin]; [|right; by right].
        destruct Hor as [->| ->]; [by left|]. injection Hin as ->. right. by left.
      - destruct IH as [-> Hall]. destruct (Hnone eq_refl) as [Hr ->].
        split; [done|]. intros r' [->|?]%elem_of_cons; auto. }
    apply Hstep; unfold best_step.
    + destruct (in_fasta r) eqn:Ef; [|done]. simpl.
      destruct b0 as [best|]; [|by intros ? [= <-]].
      destruct (fltb _ _); [by intros ? [= <-]|done].
    + destruct (in_fasta r && _); auto.
    + destruct (in_fasta r) eqn:Ef; simpl.
      * destruct b0 as [best|]; [|done]. by destruct (fltb _ _).
      * done.
Qed.

(** X7: on the ranking that [calculate_all_scores] returns for the same
    [probes], [extract_high_quality_probes] never raises [KeyError]: every
    record marked [in_fasta] has its sequence.  The probes extracted are
    probes of the FASTA file with their sequences, and none is extracted
    only when no record is marked [in_fasta]. *)
Theorem scoring_then_extraction_finds_sequences probes
    (blast_results : list (string * list string)) (chunk_size : nat)
    (completion : list nat) (failed : nat → bool)
    (scores : list (score_record pyfloat)) (threshold : option pyfloat) :
  calculate_all_scores probes blast_results chunk_size completion failed = inr scores →
  ∃ hq fallback,
    extract_high_quality_probes probes scores threshold = inr (hq, fallback)
    ∧ hq ⊆ probes
    ∧ (hq = ∅ ↔ ∀ r, r ∈ scores → in_fasta r = false).
Proof.
  intros Hcons%calculate_all_scores_consistent.
  unfold extract_high_quality_probes. set (t := score_threshold threshold).
  destruct (select_above_spec probes t scores Hcons) as (hq & -> & Hhq).
  assert (hq ⊆ probes) as Hsub.
  { apply map_subseteq_spec. intros p seq Hp. by apply Hhq in Hp as [? _]. }
  assert (hq ≠ ∅ → ¬ ∀ r, r ∈ scores → in_fasta r = false) as Hsome.
  { intros Hne Hall. destruct (map_choose _ Hne) as (p & seq & Hp).
    apply Hhq in Hp as [_ (r & Hr & _ & _ & Hf)]. by rewrite (Hall r Hr) in Hf. }
  destruct (bool_decide (hq = ∅)) eqn:Ehq; cbn [andb].
  - apply bool_decide_eq_true in Ehq. subst hq.
    destruct (match scores with [] => false | _ => true end && existsb in_fasta scores)
      eqn:Eany.
    + apply andb_true_iff in Eany as [_ (r & Hr & Hf)%existsb_in_fasta].
      pose proof (best_from_any scores None ltac:(done)) as Hbest.
      fold (best_in_fasta scores) in Hbest.
      destruct (best_in_fasta scores) as [best|].
      * destruct Hbest as [Hbf [?|Hin]]; [done|].
        destruct (Hcons best Hin Hbf) as [seq Hseq].
        unfold probes_item. rewrite Hseq. do 2 eexists. split; [done|]. split.
        -- apply map_subseteq_spec. intros p s.
           rewrite lookup_insert_Some, lookup_empty. naive_solver.
        -- split; [intros He|intros Hall].
           ++ by apply insert_non_empty in He.
           ++ by rewrite (Hall r Hr) in Hf.
      * destruct Hbest as [_ Hall]. by rewrite (Hall r Hr) in Hf.
    + do 2 eexists. split; [done|]. split; [done|]. split; [|done]. intros _ r Hr.
      destruct (in_fasta r) eqn:Hf; [|done].
      assert (existsb in_fasta scores = true) as Hex by (apply existsb_in_fasta; eauto).
      rewrite Hex in Eany. destruct scores; [by apply elem_of_nil in Hr|done].
  - apply bool_decide_eq_false in Ehq. do 2 eexists. split; [done|]. split; [done|].
    split; [done|]. intros Hall. by destruct (Hsome Ehq).
Qed.

End ScoringThenExtraction.

(** ** [parse_fasta_manually]: the loop and its keys *)

Section FastaFacts.
Import Utils.
Variable upper : string → string.
Implicit Types (st : fasta_state) (s id seq line : string).

Lemma fold_exn_app {S A} (f : S → A → exn + S) l1 l2 (a : S) :
  fold_exn f (l1 ++ l2) a
  = match fold_exn f l1 a with inl e => inl e | inr a' => fold_exn f l2 a' end.
Proof.
  revert a. induction l1 as [|x l1 IH]; intros a; simpl; [done|].
  destruct (f a x); [done|]. apply IH.
Qed.

(** *** Stripped lines *)

Lemma lstrip_head s :
  Str.lstrip s = "" ∨ ∃ c u, Str.lstrip s = String c u ∧ Str.is_space c = false.
Proof.
  induction s as [|c s IH]; simpl; [by left|].
  destruct (Str.is_space c) eqn:E; [done|]. right. by exists c, s.
Qed.

Lemma strip_last s :
  Str.strip s = "" ∨ ∃ u c, Str.strip s = u +:+ String c "" ∧ Str.is_space c = false.
Proof.
  unfold Str.strip, Str.rstrip.
  destruct (lstrip_head (String.rev (Str.lstrip s))) as [->|(c & u & -> & Hc)]; [by left|].
  right. exists (String.rev u), c. by rewrite str_rev_String.
Qed.

Lemma split_ws_go_nil cur s :
  Str.split_ws_go cur s = [] → cur = "" ∧ str_all Str.is_space s = true.
Proof.
  revert cur. induction s as [|c s IH]; intros cur; simpl.
  - by case_decide.
  - destruct (Str.is_space c) eqn:E.
    + case_decide as Hcur; [|done]. intros Hnil. by apply IH in Hnil as [_ ->].
    + intros Hnil. by apply IH in Hnil as [? _].
Qed.

Lemma split_ws_go_tokens cur s :
  str_all not_space cur = true →
  Forall (λ t, t ≠ "" ∧ plain t) (Str.split_ws_go cur s).
Proof.
  revert cur. induction s as [|c s IH]; intros cur Hcur; simpl.
  - case_decide as E; [constructor|]. constructor; [|constructor].
    split; [|unfold plain; by rewrite str_all_rev].
    intros H. apply E. by rewrite <-(str_rev_involutive cur), H.
  - destruct (Str.is_space c) eqn:E.
    + case_decide as E'; [by apply IH|]. constructor; [|by apply IH].
      split; [|unfold plain; by rewrite str_all_rev].
      intros H. apply E'. by rewrite <-(str_rev_involutive cur), H.
    + apply IH. simpl. unfold not_space at 1. by rewrite E.
Qed.

Lemma plain_no_space s c : plain s → Str.is_space c = true → Str.has_char c s = false.
Proof.
  unfold plain. intros Hs Hc. induction s as [|c' s IH]; [done|].
  simpl in *. apply andb_true_iff in Hs as [Hc' Hs]. rewrite IH by done.
  rewrite orb_false_r. apply Ascii.eqb_neq. intros ->.
  unfold not_space in Hc'. by rewrite Hc in Hc'.
Qed.

(** The id of a header line is always there: [split()] of a stripped line
    that holds a space is not empty. *)
Lemma header_id_total line :
  Str.strip line ≠ "" →
  ∃ id, header_id (Str.strip line) = inr id ∧ Str.has_char " " id = false.
Proof.
  intros Hne. unfold header_id.
  destruct (Str.has_char " " (Str.tail (Str.strip line))) eqn:Hsp; [|eauto].
  destruct (Str.split_ws (Str.tail (Str.strip line))) as [|id ids] eqn:Hsplit.
  - exfalso. apply split_ws_go_nil in Hsplit as [_ Hall].
    destruct (strip_last line) as [?|(u & c & Heq & Hc)]; [done|].
    rewrite Heq in Hsp, Hall. destruct u as [|a u]; simpl in *; [done|].
    rewrite str_all_app in Hall. simpl in Hall. rewrite Hc in Hall.
    by rewrite andb_false_r in Hall.
  - simpl. exists id. split; [done|].
    pose proof (split_ws_go_tokens "" (Str.tail (Str.strip line)) eq_refl) as Ht.
    unfold Str.split_ws in Hsplit. rewrite Hsplit in Ht.
    apply Forall_cons in Ht as [[_ Hp] _]. by apply plain_no_space.
Qed.

(** *** The loop never raises, and what its keys are *)

Lemma saved_inv st :
  fasta_inv st → NoDup (saved upper st).*1 ∧ Forall good_id (saved upper st).*1.
Proof.
  intros (Hnd & Hgood & Hcur). unfold saved.
  destruct (current_id st) as [id|]; [|done]. case_decide as E; [done|].
  split; [by apply dict_set_NoDup|].
  rewrite dict_set_keys. case_decide; [done|].
  apply Forall_app. split; [done|]. constructor; [|constructor]. split; auto.
Qed.

Lemma fasta_line_inv st line :
  fasta_inv st → ∃ st', fasta_line upper st line = inr st' ∧ fasta_inv st'.
Proof.
  intros Hinv. unfold fasta_line.
  case_decide as Hempty; [eauto|].
  destruct (Str.startswith (Str.strip line) ">").
  - destruct (header_id_total line Hempty) as (id & -> & Hid).
    eexists. split; [done|].
    destruct (saved_inv st Hinv) as [Hnd Hgood]. destruct Hinv as (? & ? & ?).
    destruct (truthy (current_id st)); simpl; split_and!; try done.
    all: by intros ? [= <-].
  - destruct (truthy (current_id st)); eauto.
Qed.

Lemma fasta_lines_inv lines st :
  fasta_inv st → ∃ st', fold_exn (fasta_line upper) lines st = inr st' ∧ fasta_inv st'.
Proof.
  revert st. induction lines as [|line lines IH]; intros st Hinv; simpl; [eauto|].
  destruct (fasta_line_inv st line Hinv) as (st1 & -> & Hinv1). by apply IH.
Qed.

Lemma parse_fasta_keys_good (content : string) :
  (∃ st, fold_exn (fasta_line upper) (Str.split Str.newline content)
           (FastaState [] None []) = inr st
         ∧ parse_fasta_manually upper (Some content) = saved upper st)
  ∧ NoDup (parse_fasta_manually upper (Some content)).*1
  ∧ ∀ id, id ∈ (parse_fasta_manually upper (Some content)).*1 →
      id ≠ "" ∧ Str.has_char " " id = false.
Proof.
  assert (fasta_inv (FastaState [] None [])) as Hinit.
  { split_and!; simpl; [constructor|constructor|done]. }
  destruct (fasta_lines_inv (Str.split Str.newline content) _ Hinit)
    as (st & Hst & Hinv).
  unfold parse_fasta_manually. rewrite Hst.
  destruct (saved_inv st Hinv) as [Hnd Hgood].
  split_and!; [by exists st|done|].
  intros id Hid. by apply (proj1 (Forall_forall _ _) Hgood).
Qed.

(** X8: the manual FASTA parser never takes its [except] branch on a text:
    the id of a header line is always there.  No key of its result is empty
    or holds a space, and each key is there once. *)
Theorem parse_fasta_manually_keys (content : string) :
  (∃ st, fold_exn (fasta_line upper) (Str.split Str.newline content)
           (FastaState [] None []) = inr st
         ∧ parse_fasta_manually upper (Some content) = saved upper st)
  ∧ NoDup (parse_fasta_manually upper (Some content)).*1
  ∧ ∀ id, id ∈ (parse_fasta_manually upper (Some content)).*1 →
      id ≠ "" ∧ Str.has_char " " id = false.
Proof. apply parse_fasta_keys_good. Qed.

End FastaFacts.

(** ** [write_fasta_file] then [parse_fasta_manually] *)

Section RoundTrip.
Import Utils.
Variable upper : string → string.
Implicit Types (st : fasta_state) (s id seq line h : string)
  (es : list (string * string)).

Lemma join_empty_cons s (l : list string) : Str.join "" (s :: l) = s +:+ Str.join "" l.
Proof.
  unfold Str.join. destruct l as [|s' l]; simpl; [by rewrite str_append_empty_r|done].
Qed.

Lemma plain_strip s : plain s → Str.strip s = s.
Proof. apply strip_all_not_space. Qed.

Lemma startswith_nonempty h c : Str.startswith h (String c "") = true → h ≠ "".
Proof. by destruct h. Qed.

Lemma fasta_entry st h id seq :
  settled st → header_for h id → id ≠ "" → plain seq → Str.startswith seq ">" = false →
  ∃ st', fold_exn (fasta_line upper) [h; seq] st = inr st'
    ∧ settled st'
    ∧ saved upper st' = Dict.set id (upper seq) (saved upper st).
Proof.
  intros Hst (Hstrip & Hstart & Hid & _) Hne Hseq Hgt. simpl.
  unfold fasta_line at 1. rewrite Hstrip.
  rewrite decide_False by (by eapply startswith_nonempty).
  rewrite Hstart, Hid.
  assert ((if truthy (current_id st)
           then FastaState (saved upper st) (current_id st) [] else st)
          = FastaState (saved upper st) (current_id st) []) as ->.
  { destruct (truthy (current_id st)) eqn:E; [done|].
    destruct st as [d i l]. unfold settled in Hst. simpl in *. rewrite Hst by done.
    f_equal. unfold saved. simpl. unfold truthy in E.
    destruct i as [i|]; [|done]. case_decide; [done|].
    by rewrite bool_decide_eq_false_2 in E. }
  cbn [sequences current_seq].
  unfold fasta_line. rewrite plain_strip by done. cbn [current_id truthy].
  rewrite (bool_decide_eq_false_2 (id = "")) by done. cbn [negb].
  destruct (decide (seq = "")) as [->|Hseqne].
  - eexists. split_and!; [done|by unfold settled; simpl; rewrite bool_decide_eq_false_2|].
    unfold saved. simpl. by rewrite decide_False by done.
  - rewrite Hgt. eexists.
    split_and!; [done|by unfold settled; simpl; rewrite bool_decide_eq_false_2|].
    unfold saved at 1. simpl. by rewrite decide_False by done.
Qed.

Lemma fasta_entries (hd : string → string) es st :
  (∀ id seq, (id, seq) ∈ es → header_for (hd id) id ∧ plain_record id seq) →
  settled st →
  ∃ st', fold_exn (fasta_line upper) (es ≫= λ '(id, seq), [hd id; seq]) st = inr st'
    ∧ settled st'
    ∧ saved upper st'
      = fold_left (λ d '(id, seq), Dict.set id (upper seq) d) es (saved upper st).
Proof.
  revert st. induction es as [|[id seq] es IH]; intros st Hes Hst; [by exists st|].
  rewrite bind_cons, fold_exn_app.
  destruct (Hes id seq) as [Hh (Hne & _ & Hseq & Hgt)]; [left|].
  destruct (fasta_entry st (hd id) id seq) as (st1 & -> & Hst1 & Hsaved); [done..|].
  destruct (IH st1) as (st2 & -> & Hst2 & Hsaved2); [|done|].
  { intros ???. apply Hes. by right. }
  exists st2. split_and!; [done..|]. by rewrite Hsaved2, Hsaved.
Qed.

Lemma fold_set_fresh (f : string → string) es (d : list (string * string)) :
  NoDup es.*1 → (∀ id, id ∈ es.*1 → id ∉ d.*1) →
  fold_left (λ d '(id, seq), Dict.set id (f seq) d) es d
  = d ++ ((λ '(id, seq), (id, f seq)) <$> es).
Proof.
  revert d. induction es as [|[id seq] es IH]; intros d Hnd Hfresh.
  - simpl. by rewrite app_nil_r.
  - rewrite fmap_cons in Hnd. apply NoDup_cons in Hnd as [Hid Hnd]. simpl in Hid.
    cbn [fold_left]. rewrite dict_set_new by (apply Hfresh; left).
    rewrite IH; [by rewrite <-app_assoc|done|].
    intros i Hi. rewrite fmap_app. intros [?|Heq%list_elem_of_singleton]%elem_of_app.
    + eapply Hfresh; [by right|done].
    + simpl in Heq. by subst.
Qed.

Lemma entry_text_app h seq c (rest : string) :
  (h +:+ String c (seq +:+ String c "")) +:+ rest = h +:+ String c (seq +:+ String c rest).
Proof. by rewrite str_append_assoc, app_String, str_append_assoc. Qed.

(** The lines of a text made of records. *)
Lemma split_entries (hd : string → string) es rest :
  (∀ id seq, (id, seq) ∈ es →
     Str.has_char Str.newline (hd id) = false ∧ plain seq) →
  Str.split Str.newline
    (Str.join "" ((λ '(id, seq),
                     hd id +:+ String Str.newline (seq +:+ String Str.newline ""))
                  <$> es) +:+ rest)
  = (es ≫= λ '(id, seq), [hd id; seq]) ++ Str.split Str.newline rest.
Proof.
  induction es as [|[id seq] es IH]; intros Hes; [done|].
  rewrite fmap_cons, join_empty_cons, bind_cons.
  destruct (Hes id seq) as [Hh Hseq]; [left|].
  rewrite str_append_assoc, entry_text_app.
  rewrite split_line by done. rewrite split_line by (by apply plain_no_space).
  simpl. rewrite IH; [done|]. intros ???. apply Hes. by right.
Qed.

Lemma plain_header id : plain id → id ≠ "" → header_for (String ">" id) id.
Proof.
  intros Hp Hne. split_and!.
  - apply strip_all_not_space. simpl. by rewrite Hp.
  - unfold Str.startswith. simpl. by destruct id.
  - unfold header_id. simpl. by rewrite plain_no_space.
  - simpl. by rewrite plain_no_space.
Qed.

(** X9: a dictionary written by [write_fasta_file] and read by
    [parse_fasta_manually] comes back with its ids in the same order and
    its sequences in upper case, when no id is empty, no id or sequence
    holds whitespace and no sequence starts with [>]. *)
Theorem write_then_parse_fasta (sequences : list (string * string)) :
  NoDup sequences.*1 →
  (∀ id seq, (id, seq) ∈ sequences → plain_record id seq) →
  parse_fasta_manually upper (Some (write_fasta_file sequences))
  = upper_values upper sequences.
Proof.
  intros Hnd Hplain. unfold parse_fasta_manually, write_fasta_file.
  assert (Str.join "" ((λ '(seq_id, seq), fasta_record seq_id seq) <$> sequences)
          = Str.join "" ((λ '(id, seq),
                     String ">" id +:+ String Str.newline (seq +:+ String Str.newline ""))
                  <$> sequences) +:+ "") as ->.
  { by rewrite str_append_empty_r. }
  rewrite (split_entries (String ">")).
  2:{ intros id seq Hin. destruct (Hplain id seq Hin) as (? & Hp & ? & ?).
      split; [|done]. simpl. by rewrite plain_no_space. }
  rewrite fold_exn_app.
  destruct (fasta_entries (String ">") sequences (FastaState [] None []))
    as (st & -> & _ & Hsaved).
  { intros id seq Hin. split; [|by apply Hplain].
    destruct (Hplain id seq Hin) as (? & ? & _). by apply plain_header. }
  { done. }
  simpl. unfold fasta_line. simpl.
  rewrite Hsaved. simpl. rewrite fold_set_fresh; [done|done|].
  intros ? _. apply not_elem_of_nil.
Qed.

End RoundTrip.

(** ** [parse_fasta_manually] on records in the usual form *)

Section StandardFasta.
Import Utils.
Variable upper : string → string.
Implicit Types (st : fasta_state) (s u v id line d : string) (lines : list string).

Lemma lstrip_app_kept u c v :
  Str.is_space c = false → Str.lstrip (u +:+ String c v) = Str.lstrip u +:+ String c v.
Proof.
  intros Hc. induction u as [|a u IH]; simpl; [by rewrite Hc|].
  by destruct (Str.is_space a).
Qed.

Lemma rstrip_app_kept u c v :
  Str.is_space c = false →
  Str.rstrip ((u +:+ String c "") +:+ v) = (u +:+ String c "") +:+ Str.rstrip v.
Proof.
  intros Hc. unfold Str.rstrip.
  rewrite !str_rev_append. change (String.rev (String c "")) with (String c "").
  rewrite app_String. change ("" +:+ String.rev u) with (String.rev u).
  rewrite lstrip_app_kept by done. rewrite str_rev_append, str_rev_String.
  by rewrite str_rev_involutive.
Qed.

Lemma lstrip_app_last u c :
  Str.lstrip (u +:+ String c "") = "" ∨ ∃ w, Str.lstrip (u +:+ String c "") = w +:+ String c "".
Proof.
  induction u as [|b u IH]; simpl.
  - destruct (Str.is_space c); [by left|right; by exists ""].
  - destruct (Str.is_space b); [done|]. right. by exists (String b u).
Qed.

Lemma rstrip_first c d :
  Str.rstrip (String c d) = "" ∨ ∃ d', Str.rstrip (String c d) = String c d'.
Proof.
  unfold Str.rstrip. rewrite str_rev_String.
  destruct (lstrip_app_last (String.rev d) c) as [->|[w ->]]; [by left|].
  right. exists (String.rev w). by rewrite str_rev_append.
Qed.

Lemma plain_last id :
  plain id → id ≠ "" → ∃ u c, id = u +:+ String c "" ∧ Str.is_space c = false.
Proof.
  intros Hp Hne. destruct (strip_last id) as [He|(u & c & He & Hc)];
    rewrite plain_strip in He by done; [done|eauto].
Qed.

(** The header line of a record, stripped, and its id. *)
Lemma standard_header id description :
  id ≠ "" → plain id →
  Str.strip (fasta_header id description) ≠ ""
  ∧ Str.startswith (Str.strip (fasta_header id description)) ">" = true
  ∧ header_id (Str.strip (fasta_header id description)) = inr id.
Proof.
  intros Hne Hp.
  assert (header_id (String ">" id) = inr id) as Hplain.
  { unfold header_id. simpl. by rewrite plain_no_space. }
  destruct description as [d|]; simpl.
  - destruct (plain_last id Hp Hne) as (u & c & Hid & Hc).
    assert (Str.strip (String ">" (id +:+ String " " d))
            = String ">" id +:+ Str.rstrip (String " " d)) as ->.
    { unfold Str.strip. rewrite lstrip_id by done. rewrite Hid.
      change (String ">" ((u +:+ String c "") +:+ String " " d))
        with ((String ">" u +:+ String c "") +:+ String " " d).
      by rewrite rstrip_app_kept. }
    destruct (rstrip_first " " d) as [->|[d' ->]].
    + rewrite str_append_empty_r. by destruct id.
    + rewrite app_String. split_and!; [done|by destruct id|].
      unfold header_id. cbn [Str.tail].
      rewrite has_char_app. simpl. rewrite orb_true_r.
      unfold Str.split_ws. rewrite split_ws_go_token; [done|done|done|by destruct id].
  - rewrite plain_strip by (unfold plain; simpl; by rewrite Hp).
    split_and!; [done|by destruct id|done].
Qed.

(** The lines of the sequence of a record. *)
Lemma fasta_sequence_lines (sequences : list (string * string)) id lines acc :
  id ≠ "" →
  Forall (λ line, plain line ∧ Str.startswith line ">" = false) lines →
  fold_exn (fasta_line upper) lines (FastaState sequences (Some id) acc)
  = inr (FastaState sequences (Some id) (acc ++ filter (λ line, line ≠ "") lines)).
Proof.
  intros Hne Hlines. revert acc.
  induction Hlines as [|line lines [Hp Hgt] _ IH]; intros acc; simpl.
  - by rewrite app_nil_r.
  - unfold fasta_line at 1. rewrite plain_strip by done.
    destruct (decide (line = "")) as [->|Hl].
    + rewrite IH. by rewrite filter_cons_False by (by intros ?).
    + rewrite Hgt. cbn [current_id truthy].
      rewrite (bool_decide_eq_false_2 (id = "")) by done. cbn [negb Utils.sequences current_seq].
      rewrite IH, filter_cons_True by done. by rewrite <- app_assoc.
Qed.

Lemma join_nonempty lines :
  Str.join "" (filter (λ line, line ≠ "") lines) = Str.join "" lines.
Proof.
  induction lines as [|line lines IH]; [done|].
  rewrite join_empty_cons. destruct (decide (line = "")) as [->|Hl].
  - by rewrite filter_cons_False by (by intros ?).
  - by rewrite filter_cons_True, join_empty_cons, IH by done.
Qed.

Lemma fasta_record_lines st id description lines :
  settled st → standard_record id description lines →
  ∃ st', fold_exn (fasta_line upper) (fasta_header id description :: lines) st = inr st'
    ∧ settled st'
    ∧ saved upper st' = Dict.set id (upper (Str.join "" lines)) (saved upper st).
Proof.
  intros Hst (Hne & Hp & _ & Hlines).
  destruct (standard_header id description Hne Hp) as (Hnonempty & Hstart & Hid).
  cbn [fold_exn]. unfold fasta_line at 1.
  rewrite decide_False by done. rewrite Hstart, Hid.
  assert ((if truthy (current_id st)
           then FastaState (saved upper st) (current_id st) [] else st)
          = FastaState (saved upper st) (current_id st) []) as ->.
  { destruct (truthy (current_id st)) eqn:E; [done|].
    destruct st as [d i l]. unfold settled in Hst. simpl in *. rewrite Hst by done.
    f_equal. unfold saved. simpl. unfold truthy in E.
    destruct i as [i|]; [|done]. case_decide; [done|].
    by rewrite bool_decide_eq_false_2 in E. }
  cbn [Utils.sequences current_seq].
  rewrite fasta_sequence_lines by done.
  eexists. split_and!; [done| |].
  - unfold settled. simpl. by rewrite bool_decide_eq_false_2.
  - unfold saved at 1. simpl. rewrite decide_False by done. by rewrite join_nonempty.
Qed.

Lemma fasta_records_lines (records : list (string * option string * list string)) st :
  (∀ id description lines, (id, description, lines) ∈ records →
     standard_record id description lines) →
  settled st →
  ∃ st', fold_exn (fasta_line upper) (fasta_lines records) st = inr st'
    ∧ settled st'
    ∧ saved upper st'
      = fold_left (λ sequences '(id, seq), Dict.set id (upper seq) sequences)
          ((λ '(id, _, lines), (id, Str.join "" lines)) <$> records) (saved upper st).
Proof.
  revert st. induction records as [|[[id description] lines] records IH];
    intros st Hrec Hst; [by exists st|].
  unfold fasta_lines. rewrite bind_cons, fold_exn_app.
  destruct (fasta_record_lines st id description lines) as (st1 & -> & Hst1 & Hsaved);
    [done|apply Hrec; left|].
  destruct (IH st1) as (st2 & Hfold & Hst2 & Hsaved2); [|done|].
  { intros ????. apply Hrec. by right. }
  exists st2. split_and!; [done..|]. rewrite Hsaved2, Hsaved. done.
Qed.

(** The lines of a text whose lines end with a line feed. *)
Lemma split_text_of_lines lines :
  Forall (λ line, Str.has_char Str.newline line = false) lines →
  Str.split Str.newline (text_of_lines lines) = lines ++ [""].
Proof.
  unfold text_of_lines. induction 1 as [|line lines Hline _ IH]; [done|].
  rewrite fmap_cons, join_empty_cons, str_append_assoc.
  match goal with
  | |- context [String Str.newline "" +:+ ?x] =>
      change (String Str.newline "" +:+ x) with (String Str.newline x)
  end.
  rewrite split_line by done. by rewrite IH.
Qed.

Lemma fasta_lines_no_newline (records : list (string * option string * list string)) :
  (∀ id description lines, (id, description, lines) ∈ records →
     standard_record id description lines) →
  Forall (λ line, Str.has_char Str.newline line = false) (fasta_lines records).
Proof.
  intros Hrec. apply Forall_forall. intros line Hline.
  apply list_elem_of_bind in Hline as ([[id description] lines] & Hline & Hin).
  destruct (Hrec _ _ _ Hin) as (_ & Hp & Hd & Hlines).
  apply elem_of_cons in Hline as [->|Hline].
  - destruct description as [d|]; simpl.
    + rewrite has_char_app. simpl. rewrite (Hd d eq_refl), plain_no_space by done. done.
    + by rewrite plain_no_space.
  - rewrite Forall_forall in Hlines. destruct (Hlines line Hline) as [Hl _].
    by apply plain_no_space.
Qed.

(** X10: [parse_fasta_manually] reads a text of records in the usual form,
    a header line [>id] or [>id description] followed by any number of
    sequence lines: it gives the ids in the order of the text, each with
    its lines joined and in upper case; the description is dropped. *)
Theorem parse_fasta_manually_reads_records
    (records : list (string * option string * list string)) :
  NoDup (records.*1.*1) →
  (∀ id description lines, (id, description, lines) ∈ records →
     standard_record id description lines) →
  parse_fasta_manually upper (Some (text_of_lines (fasta_lines records)))
  = (λ '(id, _, lines), (id, upper (Str.join "" lines))) <$> records.
Proof.
  intros Hnd Hrec. unfold parse_fasta_manually.
  rewrite split_text_of_lines by (by apply fasta_lines_no_newline).
  rewrite fold_exn_app.
  destruct (fasta_records_lines records (FastaState [] None [])) as (st & -> & _ & Hsaved);
    [done|done|].
  simpl. unfold fasta_line. simpl. rewrite Hsaved. cbn [saved current_id Utils.sequences].
  rewrite fold_set_fresh.
  - cbn [app]. rewrite <- list_fmap_compose. apply list_fmap_ext.
    by intros _ [[??]?] _.
  - assert (((λ '(id, _, lines), (id, Str.join "" lines)) <$> records).*1 = records.*1.*1)
      as ->; [|done].
    rewrite <- !list_fmap_compose. apply list_fmap_ext. by intros _ [[??]?] _.
  - intros ? _. apply not_elem_of_nil.
Qed.

End StandardFasta.

(** ** The file of the high-quality probes *)

Section HighQualityFile.
Import Utils Scorer ScorerIO.
Context {N : PyNum}.
Variable upper : string → string.
Variable float_str : pyfloat → string.
Implicit Types (probes : gmap string string) (items : list (string * string))
  (scores : list (score_record pyfloat)).

(** *** The ordered dictionary *)

Lemma items_of_set probes items id seq :
  items_of probes items → probes !! id = Some seq → items_of probes (Dict.set id seq items).
Proof.
  intros [Hnd Hin] Hid. split; [by apply dict_set_NoDup|].
  intros i s [[-> ->]|?]%dict_set_elem; auto.
Qed.

Lemma probes_item_inr probes id seq :
  probes_item probes id = inr seq → probes !! id = Some seq.
Proof. unfold probes_item. by destruct (probes !! id); intros [= ->]. Qed.

Lemma select_items_of probes t scores items0 items :
  items_of probes items0 →
  fold_left (select_item probes t) scores (inr items0) = inr items → items_of probes items.
Proof.
  revert items0. induction scores as [|r scores IH]; intros items0 H0; simpl.
  - by intros [= <-].
  - destruct (fleb t (score r) && in_fasta r); [|by apply IH].
    destruct (probes_item probes (probe_id r)) as [e|seq] eqn:E.
    + clear. intros H. exfalso. induction scores; simpl in *; [done|auto].
    + apply IH, items_of_set; [done|by apply probes_item_inr].
Qed.

Lemma high_quality_items_of probes scores threshold items fallback :
  high_quality_items probes scores threshold = inr (items, fallback) →
  items_of probes items.
Proof.
  unfold high_quality_items.
  destruct (fold_left _ scores (inr [])) as [e|hq] eqn:E; [done|].
  assert (items_of probes hq) as Hhq.
  { eapply select_items_of; [|done]. split; [constructor|]. by intros ?? ?%elem_of_nil. }
  destruct (_ && _); [|by intros [= <- _]].
  destruct (best_in_fasta scores) as [best|]; [|by intros [= <- _]].
  destruct (probes_item probes (probe_id best)) as [e|seq] eqn:Eb; [done|].
  intros [= <- _]. apply items_of_set; [done|by apply probes_item_inr].
Qed.

(** *** The lines of the head *)

Lemma pretty_N_go_no_newline x s :
  Str.has_char Str.newline s = false →
  Str.has_char Str.newline (pretty_N_go x s) = false.
Proof.
  revert s. induction (N.lt_wf_0 x) as [x _ IH]; intros s Hs.
  assert (x = 0 ∨ 0 < x)%N as [->|?] by lia.
  - by rewrite pretty_N_go_0.
  - rewrite pretty_N_go_step by done. apply IH.
    { by apply N.div_lt. }
    simpl. rewrite Hs. unfold pretty_N_char. by repeat case_match.
Qed.

Lemma of_nat_no_newline n : Str.has_char Str.newline (Str.of_nat n) = false.
Proof.
  unfold Str.of_nat, pretty, pretty_nat, pretty, pretty_N.
  case_decide; [done|]. by apply pretty_N_go_no_newline.
Qed.

(** A line [> # ...] that ends with a character that is not whitespace. *)
Lemma comment_header r c :
  Str.is_space c = false → Str.has_char Str.newline r = false →
  c ≠ Str.newline →
  header_for (String ">" (String " " (String "#" (String " " (r +:+ String c ""))))) "#".
Proof.
  intros Hc Hr Hne. split_and!.
  - change (String ">" (String " " (String "#" (String " " (r +:+ String c "")))))
      with (String ">" ((String " " (String "#" (String " " r))) +:+ String c "")).
    by apply strip_id.
  - unfold Str.startswith. simpl. done.
  - done.
  - simpl. rewrite has_char_app, Hr. simpl. rewrite orb_false_r.
    by apply Ascii.eqb_neq.
Qed.

Lemma first_comment h :
  header_for h "#" →
  fasta_line upper (FastaState [] None []) h = inr (FastaState [] (Some "#") []).
Proof.
  intros (Hs & Hp & Hi & _). unfold fasta_line. rewrite Hs.
  rewrite decide_False by (by eapply startswith_nonempty). by rewrite Hp, Hi.
Qed.

Lemma next_comment d h :
  header_for h "#" → d = [] ∨ d = [("#", upper "")] →
  fasta_line upper (FastaState d (Some "#") []) h = inr (head_state upper).
Proof.
  intros (Hs & Hp & Hi & _) Hd. unfold fasta_line. rewrite Hs.
  rewrite decide_False by (by eapply startswith_nonempty). rewrite Hp, Hi.
  by destruct Hd as [-> | ->].
Qed.

Lemma entry_header_for fallback id :
  plain id → id ≠ "" → header_for (entry_header fallback id) id.
Proof.
  intros Hp Hne. destruct fallback; [|by apply plain_header].
  unfold entry_header. split_and!.
  - change (id +:+ " [LOW_QUALITY_FALLBACK]")
      with (id +:+ (" [LOW_QUALITY_FALLBACK" +:+ String "]" "")).
    rewrite <-str_append_assoc. by apply strip_id.
  - unfold Str.startswith. simpl. by destruct (id +:+ _).
  - unfold header_id. simpl. rewrite has_char_app. simpl. rewrite orb_true_r.
    unfold Str.split_ws.
    change (id +:+ " [LOW_QUALITY_FALLBACK]")
      with (id +:+ String " " "[LOW_QUALITY_FALLBACK]").
    rewrite split_ws_go_token; [done|done|done|]. simpl. by destruct id.
  - simpl. rewrite has_char_app, plain_no_space by done. done.
Qed.

Lemma file_entry_text fallback id seq :
  file_entry fallback (id, seq)
  = entry_header fallback id +:+ String Str.newline (seq +:+ String Str.newline "").
Proof.
  unfold file_entry, entry_header, nl. destruct fallback; [|done].
  rewrite !app_String. f_equal. by rewrite str_append_assoc.
Qed.

Lemma file_head_parsed shown fallback total rest :
  Str.has_char Str.newline shown = false →
  ∃ comments,
    Str.split Str.newline (file_head shown fallback total +:+ rest)
    = comments ++ Str.split Str.newline rest
    ∧ fold_exn (fasta_line upper) comments (FastaState [] None []) = inr (head_state upper).
Proof.
  intros Hshown.
  set (total_line := " # Total: " +:+ Str.of_nat total +:+ " probes").
  assert (header_for (String ">" total_line) "#") as Htotal.
  { unfold total_line.
    change (" # Total: " +:+ Str.of_nat total +:+ " probes")
      with (String " " (String "#" (String " "
              ("Total: " +:+ Str.of_nat total +:+ (" probe" +:+ String "s" ""))))).
    rewrite <-!str_append_assoc. apply comment_header; [done| |done].
    rewrite !has_char_app, of_nat_no_newline. done. }
  destruct fallback.
  - set (warning := " # WARNING: LOW QUALITY PROBE (NO PROBES ABOVE " +:+ shown +:+ " SCORE)").
    set (note := " # This is the highest scoring probe but may have poor specificity").
    assert (header_for (String ">" warning) "#") as Hwarning.
    { unfold warning.
      change (" # WARNING: LOW QUALITY PROBE (NO PROBES ABOVE " +:+ shown +:+ " SCORE)")
        with (String " " (String "#" (String " "
                ("WARNING: LOW QUALITY PROBE (NO PROBES ABOVE " +:+ shown
                 +:+ (" SCORE" +:+ String ")" ""))))).
      rewrite <-!str_append_assoc. apply comment_header; [done| |done].
      rewrite !has_char_app, Hshown. done. }
    assert (header_for (String ">" note) "#") as Hnote.
    { apply (comment_header "This is the highest scoring probe but may have poor specificit" "y");
        done. }
    exists [String ">" warning; String ">" note; String ">" total_line; ""]. split.
    + assert (file_head shown true total +:+ rest
              = String ">" warning +:+ String Str.newline
                  (String ">" note +:+ String Str.newline
                    (String ">" total_line +:+ String Str.newline
                      ("" +:+ String Str.newline rest)))) as ->.
      { unfold file_head, nl, warning, note, total_line.
        repeat rewrite ?app_String, ?str_append_assoc. reflexivity. }
      destruct Hwarning as (_ & _ & _ & ?), Hnote as (_ & _ & _ & ?),
        Htotal as (_ & _ & _ & ?).
      by rewrite !split_line by done.
    + cbn [fold_exn]. rewrite (first_comment (String ">" warning)) by done.
      rewrite (next_comment [] (String ">" note)); [|done|by left].
      unfold head_state.
      rewrite (next_comment [("#", upper "")] (String ">" total_line)); [|done|by right].
      done.
  - set (title := " # High Quality Probes (Score >= " +:+ shown +:+ ")").
    assert (header_for (String ">" title) "#") as Htitle.
    { unfold title.
      change (" # High Quality Probes (Score >= " +:+ shown +:+ ")")
        with (String " " (String "#" (String " "
                ("High Quality Probes (Score >= " +:+ shown +:+ String ")" "")))).
      rewrite <-!str_append_assoc. apply comment_header; [done| |done].
      rewrite !has_char_app, Hshown. done. }
    exists [String ">" title; String ">" total_line; ""]. split.
    + assert (file_head shown false total +:+ rest
              = String ">" title +:+ String Str.newline
                  (String ">" total_line +:+ String Str.newline
                    ("" +:+ String Str.newline rest))) as ->.
      { unfold file_head, nl, title, total_line.
        repeat rewrite ?app_String, ?str_append_assoc. reflexivity. }
      destruct Htitle as (_ & _ & _ & ?), Htotal as (_ & _ & _ & ?).
      by rewrite !split_line by done.
    + cbn [fold_exn]. rewrite (first_comment (String ">" title)) by done.
      rewrite (next_comment [] (String ">" total_line)); [|done|by left].
      done.
Qed.

(** The file read back, for any dictionary of plain records. *)
Lemma high_quality_text_read_back shown fallback items :
  Str.has_char Str.newline shown = false →
  NoDup items.*1 →
  (∀ id seq, (id, seq) ∈ items → plain_record id seq) →
  "#" ∉ items.*1 →
  parse_fasta_manually upper (Some (high_quality_text shown fallback items))
  = ("#", upper "") :: upper_values upper items.
Proof.
  intros Hshown Hnd Hplain Hghost. unfold parse_fasta_manually, high_quality_text.
  assert (Str.join "" (file_entry fallback <$> items)
          = Str.join "" ((λ '(id, seq),
                entry_header fallback id
                +:+ String Str.newline (seq +:+ String Str.newline "")) <$> items)
            +:+ "") as ->.
  { rewrite str_append_empty_r. f_equal. apply list_fmap_ext.
    intros _ [id seq] _. apply file_entry_text. }
  destruct (file_head_parsed shown fallback (length items)
              (Str.join "" ((λ '(id, seq),
                entry_header fallback id
                +:+ String Str.newline (seq +:+ String Str.newline "")) <$> items)
               +:+ "") Hshown) as (comments & -> & Hcomments).
  rewrite (split_entries (entry_header fallback)).
  2:{ intros id seq Hin. destruct (Hplain id seq Hin) as (? & Hp & ? & ?).
      split; [|done]. by apply entry_header_for. }
  rewrite fold_exn_app, Hcomments. cbv beta iota. rewrite fold_exn_app.
  destruct (fasta_entries upper (entry_header fallback) items (head_state upper))
    as (st & -> & _ & Hsaved).
  { intros id seq Hin. split; [|by apply Hplain].
    destruct (Hplain id seq Hin) as (? & ? & _). by apply entry_header_for. }
  { done. }
  simpl. unfold fasta_line. simpl. rewrite Hsaved.
  change (saved upper (head_state upper)) with [("#", upper "")].
  rewrite fold_set_fresh; [done|done|].
  intros id Hid [->|?%elem_of_nil]%elem_of_cons; done.
Qed.

(** X11: the file that [extract_high_quality_probes] writes, read by
    [parse_fasta_manually], gives back the selected probes in the order of
    the dictionary, with upper-case sequences, after a record [#] with an
    empty sequence that the comment lines of the head leave behind. *)
Theorem high_quality_file_read_back probes scores threshold items fallback :
  high_quality_items probes scores threshold = inr (items, fallback) →
  Str.has_char Str.newline (float_str (score_threshold threshold)) = false →
  (∀ id seq, probes !! id = Some seq → plain_record id seq) →
  probes !! "#" = None →
  ∃ text, high_quality_file float_str probes scores threshold = inr text
    ∧ parse_fasta_manually upper (Some text) = ("#", upper "") :: upper_values upper items.
Proof.
  intros Hitems Hshown Hplain Hghost.
  destruct (high_quality_items_of _ _ _ _ _ Hitems) as [Hnd Hin].
  unfold high_quality_file. rewrite Hitems. eexists. split; [done|].
  apply high_quality_text_read_back; [done|done|by eauto|].
  intros ([id seq] & Heq & Hmem)%list_elem_of_fmap. simpl in Heq. subst id.
  apply Hin in Hmem. congruence.
Qed.

End HighQualityFile.

(** ** Region Mapper: counts and sorted groups *)

Section MapperRunFacts.
Import Mapper MapperRun.
Implicit Types (st : state) (d : gmap string (list string)) (hq pav : list (string * string)).

Lemma mapped_probes_append d k v :
  mapped_probes (dict_append d k v) = S (mapped_probes d).
Proof.
  unfold mapped_probes, dict_append.
  destruct (d !! k) as [l|] eqn:E; simpl.
  - rewrite <-insert_delete_eq.
    rewrite map_to_list_insert by apply lookup_delete_eq.
    rewrite <-(map_to_list_delete d k l) by done. simpl.
    rewrite length_app. simpl. lia.
  - by rewrite map_to_list_insert.
Qed.

Lemma map_probe_count keys st p :
  mapped_probes (mapping_results (map_probe keys st p))
  + length (unmapped_probes (map_probe keys st p))
  = S (mapped_probes (mapping_results st) + length (unmapped_probes st)).
Proof.
  unfold map_probe. destruct (re_match_group1 p); simpl.
  - by rewrite mapped_probes_append.
  - destruct (first_prefix_key keys p); simpl.
    + by rewrite mapped_probes_append.
    + rewrite length_app. simpl. lia.
Qed.

Lemma fold_map_probe_count keys probe_ids st :
  mapped_probes (mapping_results (fold_left (map_probe keys) probe_ids st))
  + length (unmapped_probes (fold_left (map_probe keys) probe_ids st))
  = mapped_probes (mapping_results st) + length (unmapped_probes st) + length probe_ids.
Proof.
  revert st. induction probe_ids as [|p l IH]; intros st; simpl; [lia|].
  rewrite IH, map_probe_count. lia.
Qed.

(** X12: the two numbers that [map_probes_to_pav] reports add up to the
    number of probes: every probe is counted once, under a region or as
    unmapped. *)
Theorem mapped_and_unmapped_add_up hq pav st :
  map_probes_to_pav hq pav = Some st →
  mapped_probes (mapping_results st) + length (unmapped_probes st) = length hq.
Proof.
  unfold map_probes_to_pav. case_decide; [done|]. intros [= <-].
  unfold map_loop. rewrite fold_map_probe_count, length_fmap.
  unfold mapped_probes, initial. simpl. by rewrite map_to_list_empty.
Qed.

Lemma sorted_twice (l : list string) :
  Str.sorted (Str.sorted l) ≡ₚ l ∧ StronglySorted String.le (Str.sorted (Str.sorted l)).
Proof.
  unfold Str.sorted. split.
  - by rewrite !merge_sort_Permutation.
  - apply StronglySorted_merge_sort; apply _.
Qed.

(** X13: [run] returns [None] when there is no high-quality probe, and so
    never reaches the division by the number of probes; otherwise it
    returns the grouping of [map_probes_to_pav] with the same regions,
    every list of probes holding the same ids, sorted. *)
Theorem mapper_run_sorts_groups hq pav :
  (hq = [] → run hq pav = inr None)
  ∧ (hq ≠ [] →
       ∃ st m, map_probes_to_pav hq pav = Some st
         ∧ run hq pav = inr (Some m)
         ∧ dom m = dom (mapping_results st)
         ∧ ∀ k l, m !! k = Some l →
             StronglySorted String.le l
             ∧ ∃ l0, mapping_results st !! k = Some l0 ∧ l ≡ₚ l0).
Proof.
  unfold run. split; [intros ->; done|]. intros Hne.
  rewrite decide_False by done.
  unfold map_probes_to_pav. rewrite decide_False by (by destruct hq).
  eexists _, _. split_and!; [done|done|..].
  - unfold sort_groups. by rewrite !dom_fmap_L.
  - intros k l. unfold sort_groups. rewrite !lookup_fmap.
    destruct (mapping_results _ !! k) as [l0|]; simpl; [|done].
    intros [= <-]. destruct (sorted_twice l0). eauto.
Qed.

End MapperRunFacts.

(** ** From the file of the high-quality probes to the mapper *)

Section FileToMapper.
Import Utils Scorer ScorerIO Mapper MapperRun.
Context {N : PyNum}.
Variable upper : string → string.
Variable float_str : pyfloat → string.

Lemma prefix_of_hash k : k ≠ "" → k ≠ "#" → Str.startswith "#" k = false.
Proof.
  intros H1 H2. unfold Str.startswith. destruct k as [|c [|c' k]]; simpl; [done|..].
  - destruct (ascii_dec c "#"); [by subst|done].
  - by destruct (ascii_dec c "#").
Qed.

(** X14: when the mapper reads the file of [extract_high_quality_probes]
    through [parse_fasta_manually], the record [#] left by the head of the
    file is among the probes: the probe dictionary is never empty, the
    record is reported as unmapped unless a region is called [#], and the
    two counts add up to one more than the number of selected probes. *)
Theorem comment_record_reaches_mapper (probes : gmap string string)
    (scores : list (score_record pyfloat)) (threshold : option pyfloat)
    (items : list (string * string)) (fallback : bool) (pav_text : string) :
  high_quality_items probes scores threshold = inr (items, fallback) →
  Str.has_char Str.newline (float_str (score_threshold threshold)) = false →
  (∀ id seq, probes !! id = Some seq → plain_record id seq) →
  probes !! "#" = None →
  "#" ∉ (parse_fasta_manually upper (Some pav_text)).*1 →
  ∃ text st,
    high_quality_file float_str probes scores threshold = inr text
    ∧ map_probes_to_pav (parse_fasta_manually upper (Some text))
        (parse_fasta_manually upper (Some pav_text)) = Some st
    ∧ "#" ∈ unmapped_probes st
    ∧ mapped_probes (mapping_results st) + length (unmapped_probes st) = S (length items).
Proof.
  intros Hitems Hshown Hplain Hghost Hpav.
  destruct (high_quality_items_of _ _ _ _ _ Hitems) as [Hnd Hin].
  unfold high_quality_file. rewrite Hitems. eexists _, _.
  rewrite high_quality_text_read_back; [|done|done|by eauto|].
  2:{ intros ([id seq] & Heq & Hmem)%list_elem_of_fmap. simpl in Heq. subst id.
      apply Hin in Hmem. congruence. }
  split; [done|]. split; [by apply (map_probes_to_pav_Some _ _ "#"); left|].
  split.
  - apply map_loop_unmapped. split; [left|].
    unfold resolved. change (re_match_group1 "#") with (@None string).
    apply first_prefix_key_None. intros k Hk.
    destruct (parse_fasta_keys_good upper pav_text) as (_ & _ & Hkeys).
    apply prefix_of_hash; [by apply Hkeys|]. by intros ->.
  - unfold map_loop. rewrite fold_map_probe_count.
    unfold mapped_probes, initial, upper_values. simpl.
    by rewrite map_to_list_empty, !length_fmap.
Qed.

End FileToMapper.

(** ** The steps of the pipeline *)

Section CommandLine.
Import Utils Main.

Lemma validation_loop (steps : list string) :
  fold_exn (λ (_ : unit) step,
              if bool_decide (step ∈ valid_steps) then inr tt else inl ValueError) steps tt
  = if decide (Forall (λ step, step ∈ valid_steps) steps) then inr tt else inl ValueError.
Proof.
  induction steps as [|step steps IH]; cbn [fold_exn].
  - by rewrite decide_True by constructor.
  - destruct (bool_decide (step ∈ valid_steps)) eqn:E.
    + apply bool_decide_eq_true in E. rewrite IH.
      destruct (decide (Forall _ steps)) as [H|H].
      * by rewrite decide_True by (by constructor).
      * rewrite decide_False; [done|]. by intros [_ ?]%Forall_cons.
    + apply bool_decide_eq_false in E.
      rewrite decide_False; [done|]. by intros [? _]%Forall_cons.
Qed.

Lemma parse_steps_nonempty arg : parse_steps arg ≠ [].
Proof.
  unfold parse_steps, Str.split.
  destruct (Str.split_go _ _ _) eqn:E; [by apply split_go_nonempty in E|done].
Qed.

(** X15: the steps that [main] builds from [--steps] are the fields between
    the commas, stripped: the list is never empty, so the default steps
    are never put in its place; the pipeline is built when every field is
    one of [score], [coverage] and [mapping], and [ValueError] is raised
    otherwise, as it is when a field is blank (an empty argument, a comma
    at an end, two commas in a row). *)
Theorem main_steps_are_the_fields (arg : string) :
  parse_steps arg ≠ []
  ∧ main_steps arg
    = (if decide (Forall (λ step, step ∈ valid_steps) (parse_steps arg))
       then inr (parse_steps arg) else inl ValueError)
  ∧ ((∃ field, field ∈ Str.split ","%char arg ∧ Str.strip field = "") →
     main_steps arg = inl ValueError).
Proof.
  pose proof (parse_steps_nonempty arg) as Hne.
  assert (main_steps arg
          = if decide (Forall (λ step, step ∈ valid_steps) (parse_steps arg))
            then inr (parse_steps arg) else inl ValueError) as Hmain.
  { unfold main_steps, init_steps.
    destruct (parse_steps arg) as [|step rest]; [done|].
    rewrite validation_loop. by case_decide. }
  split_and!; [done..|].
  intros (field & Hin & Hblank). rewrite Hmain.
  rewrite decide_False; [done|]. intros Hall.
  assert ("" ∈ parse_steps arg) as Hempty.
  { unfold parse_steps. rewrite <-Hblank. by apply list_elem_of_fmap_2. }
  apply (proj1 (Forall_forall _ _) Hall) in Hempty. revert Hempty.
  unfold valid_steps. set_solver.
Qed.

End CommandLine.

(** ** The cleaning loop of [read_file_with_detect_encoding] *)

Section Cleaning.
Import Utils.
Implicit Types (data cur : list Byte.byte) (b : Byte.byte).

Lemma byte_lines_go_concat cur data :
  concat (byte_lines_go cur data) = rev cur ++ data.
Proof.
  revert cur. induction data as [|b data IH]; intros cur; cbn [byte_lines_go].
  - destruct cur; [done|]. cbn [concat]. by rewrite !app_nil_r.
  - destruct (Byte.eqb b Byte.x0a); cbn [concat]; rewrite IH; simpl; by rewrite <-?app_assoc.
Qed.

Lemma clean_bytes_map data : clean_bytes data = clean_byte <$> data.
Proof.
  unfold clean_bytes, byte_lines. rewrite <-(byte_lines_go_concat [] data) at 2.
  generalize (byte_lines_go [] data). intros ls.
  induction ls as [|l ls IH]; [done|]. simpl. by rewrite fmap_app, IH.
Qed.

Lemma clean_byte_ascii b : (Byte.to_N (clean_byte b) < 128)%N.
Proof. destruct b; by vm_compute. Qed.

Lemma clean_byte_id b : (Byte.to_N b < 128)%N → clean_byte b = b.
Proof. unfold clean_byte. intros H%N.ltb_lt. by rewrite H. Qed.

(** X16: the cleaning loop keeps the length of the data and every byte below
    128, puts [?] in place of each other byte, so that the result is ASCII;
    ASCII data are left as they are, and cleaning twice changes nothing
    more. *)
Theorem clean_bytes_is_ascii data :
  clean_bytes data = clean_byte <$> data
  ∧ length (clean_bytes data) = length data
  ∧ Forall (λ b, (Byte.to_N b < 128)%N) (clean_bytes data)
  ∧ (∀ i b, data !! i = Some b →
       clean_bytes data !! i = Some (if (Byte.to_N b <? 128)%N then b else Byte.x3f))
  ∧ (Forall (λ b, (Byte.to_N b < 128)%N) data → clean_bytes data = data)
  ∧ clean_bytes (clean_bytes data) = clean_bytes data.
Proof.
  rewrite !clean_bytes_map. split_and!.
  - done.
  - by rewrite length_fmap.
  - apply Forall_fmap, Forall_forall. intros b _. apply clean_byte_ascii.
  - intros i b Hb. rewrite list_lookup_fmap, Hb. simpl. f_equal.
    destruct b; by vm_compute.
  - intros Hall. induction Hall as [|b l Hb _ IH]; [done|].
    by rewrite fmap_cons, clean_byte_id, IH.
  - rewrite <-list_fmap_compose. apply list_fmap_ext. intros _ b _. simpl.
    apply clean_byte_id, clean_byte_ascii.
Qed.

End Cleaning.

(** ** Detection of the input files *)

Section Detection.
Import Config.
Variable join : string → string → string.
Variable lower : string → string.
Variable data_dir : string.
Implicit Types (c : input_files) (genomes : list (string * string)).

Lemma matched_genome_elem genomes file_name g :
  matched_genome lower genomes file_name = Some g → g ∈ genomes.*2.
Proof.
  unfold matched_genome. destruct (List.find _ genomes) as [[name path]|] eqn:E; [|done].
  simpl. intros [= <-]. apply find_some in E as [Hin _].
  apply list_elem_of_In in Hin. by apply (list_elem_of_fmap_2 snd) in Hin.
Qed.

Lemma blast_step_inv genomes second c file_name :
  detect_inv join data_dir genomes second c →
  detect_inv join data_dir genomes (second ++ [file_name]) (blast_step join lower data_dir genomes c file_name).
Proof.
  intros (Hb & Hg & Hm & Hmap & Hgen & Href). unfold blast_step, detect_inv.
  rewrite filter_app, filter_cons, filter_nil.
  destruct (is_blast_name file_name) eqn:E.
  2:{ case_decide; [done|]. rewrite app_nil_r. done. }
  case_decide; [|done]. rewrite fmap_app. simpl.
  destruct (matched_genome lower genomes file_name) as [g|] eqn:Em; simpl.
  - split_and!; [by rewrite Hb| | | | |done].
    + case_bool_decide; [done|]. apply NoDup_app. split_and!; [done| |apply NoDup_singleton].
      by intros x Hx ->%list_elem_of_singleton.
    + case_decide; [done|]. by apply dict_set_NoDup.
    + intros b' g' Hin.
      assert ((b' = join data_dir file_name ∧ g' = g) ∨ (b', g') ∈ BLAST_GENOME_MAPPING c)
        as [[-> ->]|Hold].
      { case_decide; [by right|]. by apply dict_set_elem in Hin. }
      * split; [apply elem_of_app; right; by left|].
        case_bool_decide; [done|]. apply elem_of_app; right. by left.
      * destruct (Hmap _ _ Hold). split; [apply elem_of_app; by left|].
        case_bool_decide; [done|]. apply elem_of_app; by left.
    + intros g'. case_bool_decide; [by auto|].
      intros [?|Hs%list_elem_of_singleton]%elem_of_app; [by auto|]. subst g'.
      by eapply matched_genome_elem.
  - split_and!; [by rewrite Hb|done|done| |done|done].
    intros b' g' Hin. destruct (Hmap _ _ Hin). split; [apply elem_of_app; by left|done].
Qed.

Lemma blast_loop_inv genomes done_names names c :
  detect_inv join data_dir genomes done_names c →
  detect_inv join data_dir genomes (done_names ++ names)
    (fold_left (blast_step join lower data_dir genomes) names c).
Proof.
  revert done_names c. induction names as [|n names IH]; intros done_names c Hc; simpl.
  - by rewrite app_nil_r.
  - replace (done_names ++ n :: names) with ((done_names ++ [n]) ++ names)
      by (by rewrite <-app_assoc).
    by apply IH, blast_step_inv.
Qed.

(** X17: what [InputFiles.__init__] detects in an existing data directory:
    the BLAST files are the listed names [extracted_blast_out_*.txt], in
    the order of the listing; there is always a genome file, none is listed
    twice, and the reference genome is the first of them; every genome file
    is a listed genome name, unless none was matched and the default
    reference stands alone; every entry of the BLAST-to-genome mapping
    joins a detected BLAST file to a detected genome file. *)
Theorem detected_files_are_consistent (first_listing second_listing : list string) :
  let c := detect join lower data_dir (Some (first_listing, second_listing)) in
  BLAST_FILES c = join data_dir <$> filter is_blast_name second_listing
  ∧ GENOME_FILES c ≠ []
  ∧ NoDup (GENOME_FILES c)
  ∧ REFERENCE_GENOME c = head (GENOME_FILES c)
  ∧ (GENOME_FILES c = [join data_dir "Zm-Mo17-REFERENCE-CAU-2.0.fa"]
     ∨ ∀ g, g ∈ GENOME_FILES c →
         ∃ name, name ∈ filter is_genome_name first_listing ∧ g = join data_dir name)
  ∧ NoDup (BLAST_GENOME_MAPPING c).*1
  ∧ ∀ b g, (b, g) ∈ BLAST_GENOME_MAPPING c → b ∈ BLAST_FILES c ∧ g ∈ GENOME_FILES c.
Proof.
  intros c. subst c. unfold detect.
  destruct (blast_loop_inv (genome_files join data_dir first_listing) [] second_listing
              (InputFiles [] [] [] None)) as (Hb & Hg & Hm & Hmap & Hgen & Href).
  { split_and!; simpl; [done|constructor|constructor| |by intros ? ?%elem_of_nil|done].
    by intros ?? ?%elem_of_nil. }
  simpl in *.
  destruct (fold_left _ second_listing _) as [blast genome mapping reference].
  unfold set_reference. simpl in *.
  destruct genome as [|g0 genome]; simpl.
  - split_and!; [done|done|apply NoDup_singleton|done|by left|done|].
    intros b g Hin. by destruct (Hmap b g Hin) as [_ ?%elem_of_nil].
  - split_and!; [done|done|done|done| |done|done].
    right. intros g Hin. apply Hgen in Hin. unfold genome_files in Hin.
    rewrite <-list_fmap_compose in Hin.
    apply list_elem_of_fmap in Hin as (name & -> & Hname). by exists name.
Qed.

End Detection.

(** ** The matched targets of a record *)

Section Targets.
Import Scorer.
Context {N : PyNum}.
Implicit Types (probes : gmap string string) (v : Locals.t pyfloat).

Lemma classify_target probe_length hit :
  effect_target (classify probe_length hit) = hit_target hit.
Proof.
  unfold classify, hit_target.
  destruct (columns hit) as [|p0 [|p1 [|p2 [|p3 [|p4 rest]]]]] eqn:Hc;
    try (rewrite short_columns_skipped by (simpl; lia); done).
  destruct (length _ <? 12) eqn:Hlen; [done|]. simpl.
  repeat case_match; done.
Qed.

Lemma apply_effect_targets eff v :
  Locals.matched_chromosomes (apply_effect eff v).1
  = list_to_set (option_list (effect_target eff)) ∪ Locals.matched_chromosomes v.
Proof.
  destruct v as [raw total perfect M].
  destruct eff as [|c|c [t|]|c [t|] []|c e]; simpl; set_solver.
Qed.

Lemma run_effects_targets effs v v' :
  run_effects effs v = (v', inr tt) →
  Locals.matched_chromosomes v'
  = list_to_set (omap effect_target effs) ∪ Locals.matched_chromosomes v.
Proof.
  revert v. induction effs as [|eff effs IH]; intros v; simpl.
  - intros [= <-]. set_solver.
  - pose proof (apply_effect_targets eff v) as Ht.
    destruct (apply_effect eff v) as [v1 [e|[]]]; [done|]. simpl in Ht.
    intros H%IH. rewrite H, Ht. destruct (effect_target eff); simpl; set_solver.
Qed.

Lemma omap_classify_target probe_length (hits : list string) :
  omap effect_target (classify probe_length <$> hits) = omap hit_target hits.
Proof.
  induction hits as [|hit hits IH]; [done|].
  rewrite fmap_cons. cbn [omap list_omap]. by rewrite classify_target, IH.
Qed.

(** X18: the matched targets of a score record are the distinct second
    columns of the hits with 12 columns or more, in ascending order and
    joined by commas: a hit whose numbers do not parse gives its target as
    well. *)
Theorem matched_targets_are_second_columns probes (pid : string) (hits : list string)
    (r : score_record pyfloat) :
  calculate_probe_score probes pid hits = Some r →
  matched_chromosomes r
  = Str.join "," (Str.sorted (elements (list_to_set (omap hit_target hits) : gset string))).
Proof.
  rewrite calculate_probe_score_finish, score_hits_effects. unfold finish.
  destruct (run_effects _ initial) as [v [e|[]]] eqn:Hrun; [done|].
  apply run_effects_targets in Hrun. rewrite omap_classify_target in Hrun.
  unfold make_record, Py.get, Py.lift. cbv [mbind mret Py.M_bind Py.M_ret].
  destruct (formula_score _) as [s|]; [|done]. simpl.
  intros [= <-]. simpl. unfold join_sorted. rewrite Hrun.
  change (Locals.matched_chromosomes initial) with (∅ : gset string).
  by rewrite union_empty_r_L.
Qed.

End Targets.

(** ** The selected probes, in order *)

Section RankingOrder.
Import Scorer ScorerIO.
Context {N : PyNum}.
Implicit Types (probes : gmap string string) (items : list (string * string))
  (scores : list (score_record pyfloat)).

Lemma list_to_map_dict_set (k v : string) items :
  list_to_map (Dict.set k v items) =@{gmap string string} <[k := v]> (list_to_map items).
Proof.
  induction items as [|[k0 v0] items IH]; simpl; [done|].
  case_decide; subst; simpl.
  - by rewrite insert_insert_eq.
  - by rewrite IH, insert_insert_ne.
Qed.

Lemma list_to_map_empty_iff items :
  list_to_map items =@{gmap string string} ∅ ↔ items = [].
Proof.
  split; [|by intros ->]. destruct items as [|[k v] items]; [done|].
  simpl. intros H. by apply insert_non_empty in H.
Qed.

Lemma select_items_agree probes t scores (acc : exn + list (string * string)) :
  fold_left (select_step probes t) scores
    (match acc with inl e => inl e | inr items => inr (list_to_map items) end)
  = match fold_left (select_item probes t) scores acc with
    | inl e => inl e
    | inr items => inr (list_to_map items)
    end.
Proof.
  revert acc. induction scores as [|r scores IH]; intros acc; [done|].
  cbn [fold_left]. rewrite <-IH. f_equal.
  destruct acc as [e|items]; simpl; [done|].
  destruct (fleb t (score r) && in_fasta r); [|done].
  destruct (probes_item probes (probe_id r)); [done|].
  by rewrite list_to_map_dict_set.
Qed.

Lemma high_quality_items_agree probes scores threshold :
  extract_high_quality_probes probes scores threshold
  = match high_quality_items probes scores threshold with
    | inl e => inl e
    | inr (items, fallback) => inr (list_to_map items, fallback)
    end.
Proof.
  unfold extract_high_quality_probes, high_quality_items, select_above.
  pose proof (select_items_agree probes (score_threshold threshold) scores (inr [])) as H.
  simpl in H. rewrite H. clear H.
  destruct (fold_left (select_item _ _) scores (inr [])) as [e|items]; [done|].
  assert (bool_decide (list_to_map items =@{gmap string string} ∅) = bool_decide (items = []))
    as -> by (apply bool_decide_ext, list_to_map_empty_iff).
  destruct (_ && _); [|done].
  destruct (best_in_fasta scores) as [best|]; [|done].
  destruct (probes_item probes (probe_id best)); [done|].
  by rewrite list_to_map_dict_set.
Qed.

Lemma select_items_order probes t scores items0 items :
  NoDup (items0.*1 ++ (probe_id <$> scores)) →
  fold_left (select_item probes t) scores (inr items0) = inr items →
  items.*1 = items0.*1 ++ (probe_id <$> filter (selected t) scores).
Proof.
  revert items0. induction scores as [|r scores IH]; intros items0 Hnd; simpl.
  - intros [= <-]. by rewrite app_nil_r.
  - rewrite filter_cons. rewrite fmap_cons in Hnd.
    assert (NoDup (items0.*1 ++ (probe_id <$> scores))) as Hnd'.
    { apply NoDup_app in Hnd as (? & Hdis & [? ?]%NoDup_cons).
      apply NoDup_app; split_and!; [done| |done].
      intros x Hx Hx'; apply (Hdis x Hx); by right. }
    destruct (decide (selected t r)) as [[E1 E2]|Hns].
    + rewrite E1, E2. simpl.
      destruct (probes_item probes (probe_id r)) as [e|seq] eqn:E.
      { clear. intros H. exfalso. induction scores; simpl in *; [done|auto]. }
      assert (probe_id r ∉ items0.*1) as Hfresh.
      { apply NoDup_app in Hnd as (_ & Hdis & _). intros Hin. apply (Hdis _ Hin). left. }
      rewrite dict_set_new by done. intros Hfold. apply IH in Hfold.
      * rewrite Hfold, fmap_app. simpl. by rewrite <-app_assoc.
      * rewrite fmap_app. simpl. by rewrite <-app_assoc.
    + assert (fleb t (score r) && in_fasta r = false) as ->.
      { apply not_true_is_false. intros [??]%andb_true_iff. by apply Hns. }
      by apply IH.
Qed.

(** X19: with one record for each probe id, the dictionary of selected probes
    lists the probes in the order of the ranking: the ids are those of the
    records at or above the threshold and found in the FASTA file, in the
    order of [scores], each with its sequence; in the fallback it holds
    the best probe alone.  Its content is the one of
    [extract_high_quality_probes]. *)
Theorem selected_probes_in_ranking_order probes scores (threshold : option pyfloat)
    items (fallback : bool) :
  NoDup (probe_id <$> scores) →
  high_quality_items probes scores threshold = inr (items, fallback) →
  extract_high_quality_probes probes scores threshold = inr (list_to_map items, fallback)
  ∧ (∀ id seq, (id, seq) ∈ items → probes !! id = Some seq)
  ∧ (if fallback
     then filter (selected (score_threshold threshold)) scores = []
          ∧ ∃ best, best_in_fasta scores = Some best ∧ items.*1 = [probe_id best]
     else items.*1 = probe_id <$> filter (selected (score_threshold threshold)) scores).
Proof.
  intros Hnd Hitems.
  split; [by rewrite high_quality_items_agree, Hitems|].
  split; [by apply (high_quality_items_of _ _ _ _ _ Hitems)|].
  revert Hitems. unfold high_quality_items.
  destruct (fold_left _ scores (inr [])) as [e|hq] eqn:E; [done|].
  apply select_items_order in E; [|done]. simpl in E.
  destruct (bool_decide (hq = [])) eqn:Ehq; simpl.
  2:{ by intros [= <- <-]. }
  apply bool_decide_eq_true in Ehq. subst hq. simpl in E.
  destruct (_ && _).
  2:{ by intros [= <- <-]. }
  destruct (best_in_fasta scores) as [best|].
  2:{ by intros [= <- <-]. }
  destruct (probes_item probes (probe_id best)); [done|].
  intros [= <- <-]. split; [by destruct (filter _ scores)|]. by exists best.
Qed.

End RankingOrder.

(** ** The coverage run on loaded files *)

Section CoverageRun.
Import Utils Coverage.
Context {N : PyNum}.
Implicit Types (probes : gmap string string).

Lemma read_blast_output_ids content :
  dom (list_to_map (read_blast_output content) : gmap string (list string))
  = blast_ids content.
Proof.
  rewrite dom_list_to_map_L. destruct content as [content|]; [|done].
  apply set_eq. intros p. rewrite elem_of_list_to_set. unfold blast_ids.
  rewrite elem_of_list_to_set, list_elem_of_omap.
  pose proof (read_blast_output_well_filed (Some content)) as Hwf.
  rewrite (well_filed_key_hits p _ Hwf).
  rewrite read_blast_output_fold, filed_lines_from. simpl. split.
  - destruct (filter _ _) as [|line ?] eqn:E; [done|]. intros _.
    assert (line ∈ filter (filed_under p) (data_lines content)) as Hin
      by (rewrite E; left).
    apply list_elem_of_filter in Hin as [? ?]. by exists line.
  - intros (line & Hin & Hf) E.
    assert (line ∈ filter (filed_under p) (data_lines content)) as Hin'
      by (by apply list_elem_of_filter).
    rewrite E in Hin'. by apply elem_of_nil in Hin'.
Qed.

Lemma analyze_files_stats probes (items : list (string * gmap string (list string)))
    stats0 all0 stats all :
  fold_left (Coverage.analyze_file probes) items (inr (stats0, all0)) = inr (stats, all) →
  ∃ new, stats = stats0 ++ new
    ∧ Forall2 (λ fs item,
        Coverage.file_name fs = Coverage.basename item.1
        ∧ Coverage.total_probes fs = size (dom item.2)
        ∧ Coverage.found_in_fasta fs = size (dom item.2 ∩ dom probes)
        ∧ Coverage.not_found_in_fasta fs
          = Coverage.total_probes fs - Coverage.found_in_fasta fs) new items.
Proof.
  revert stats0 all0. induction items as [|[path res] items IH]; intros stats0 all0.
  - simpl. intros [= <- <-]. exists []. by rewrite app_nil_r.
  - cbn [fold_left]. unfold Coverage.analyze_file at 2.
    destruct (Coverage.ratio _ _) as [e|ratio].
    { intros H. exfalso. clear -H. induction items; simpl in *; [done|auto]. }
    intros (new & -> & Hnew)%IH. eexists (_ :: new).
    rewrite <-app_assoc. split; [done|]. by constructor.
Qed.

Lemma load_files_NoDup (files : list (string * option string)) d0 :
  NoDup (d0.*1 ++ files.*1) →
  fold_left (λ blast_results '(file_path, content),
               Dict.set file_path (read_blast_output content) blast_results) files d0
  = d0 ++ ((λ '(file_path, content), (file_path, read_blast_output content)) <$> files).
Proof.
  revert d0. induction files as [|[path content] files IH]; intros d0 Hnd.
  - simpl. by rewrite app_nil_r.
  - cbn [fold_left]. rewrite fmap_cons in Hnd.
    rewrite dict_set_new.
    2:{ apply NoDup_app in Hnd as (_ & Hdis & _). intros Hin. apply (Hdis _ Hin). left. }
    rewrite IH; [by rewrite <-app_assoc|].
    rewrite fmap_app. simpl. by rewrite <-app_assoc.
Qed.

(** X20: the coverage run on files with distinct paths gives one entry of
    statistics for each file, in the order of the files: its name is the
    base name of the path, its number of probes is the number of distinct
    first columns among the data lines of the file, and the probes found
    and not found in the FASTA file add up to that number. *)
Theorem coverage_run_counts_data_line_ids probes (files : list (string * option string))
    (st : Coverage.stats pyfloat) :
  NoDup files.*1 →
  run probes files = inr st →
  Forall2 (λ fs '(file_path, content),
      Coverage.file_name fs = Coverage.basename file_path
      ∧ Coverage.total_probes fs = size (blast_ids content)
      ∧ Coverage.found_in_fasta fs = size (blast_ids content ∩ dom probes)
      ∧ Coverage.found_in_fasta fs + Coverage.not_found_in_fasta fs
        = Coverage.total_probes fs)
    (Coverage.file_stats st) files.
Proof.
  intros Hnd. unfold run, load_blast_results.
  rewrite load_files_NoDup by done. simpl.
  unfold Coverage.analyze_coverage.
  destruct (fold_left _ _ (inr ([], ∅))) as [e|[stats all]] eqn:E; [done|].
  apply analyze_files_stats in E as (new & -> & Hnew). simpl.
  destruct (Coverage.ratio _ _); [done|]. intros [= <-]. simpl.
  rewrite <-list_fmap_compose in Hnew. apply Forall2_fmap_r in Hnew.
  eapply Forall2_impl; [done|]. intros fs [path content] (H1 & H2 & H3 & H4). simpl in *.
  rewrite read_blast_output_ids in H2, H3. split_and!; [done..|].
  rewrite H4, H2, H3.
  assert (size (blast_ids content ∩ dom probes) ≤ size (blast_ids content)); [|lia].
  apply subseteq_size. set_solver.
Qed.

End CoverageRun.

(** ** Runs on binary64 *)

Section Binary64Runs.
Import Scorer.
Import (notations) PrimFloat.
#[local] Existing Instance binary64.

Lemma C2_malformed_hits_witness :
  match calculate_probe_score (N:=binary64) probes_P1 "P1" ([hit_perfect] ++ hit_bad_pident :: []),
        calculate_probe_score (N:=binary64) probes_P1 "P1" ([hit_perfect] ++ []) with
  | Some r', Some r =>
      same_numbers r' r
      ∧ (short_hit hit_bad_pident → r' = r)
      ∧ (unparsable_numbers hit_bad_pident →
           ∃ target M, columns hit_bad_pident !! 1 = Some target
             ∧ matched_chromosomes r = join_sorted M
             ∧ matched_chromosomes r' = join_sorted ({[target]} ∪ M))
  | None, None => True
  | _, _ => False
  end.
Proof.
  apply (C2_malformed_hits (N:=binary64) probes_P1 "P1" hit_bad_pident [hit_perfect] []).
  right. split; [vm_compute; lia|].
  exists "abc", "20". split_and!; [reflexivity..|]. left. reflexivity.
Defined.

(** C2, as stated, fails.  A 12-column record whose percent identity is not
    a number is not counted, yet its target ["chr2"] is among the matched
    targets of the result; and a 12-column record whose mismatch field is
    not a number, with percent identity 50, is counted as a hit and adds to
    [raw_non_specificity] (the score [0x1.0aae147ae147bp+6] is the double
    that Python prints as 66.67). *)
Lemma C2_malformed_hit_leaves_trace :
  float_of_str (PyNum:=binary64) "abc" = None
  ∧ calculate_probe_score (N:=binary64) probes_P1 "P1" []
    = Some (ScoreRecord "P1" 100%float 0%float 0 0 "" 20 true)
  ∧ calculate_probe_score (N:=binary64) probes_P1 "P1" [hit_bad_pident]
    = Some (ScoreRecord "P1" 100%float 0%float 0 0 "chr2" 20 true)
  ∧ int_of_str (PyNum:=binary64) "x" = None
  ∧ calculate_probe_score (N:=binary64) probes_P1 "P1" [hit_bad_mismatch]
    = Some (ScoreRecord "P1" 0x1.0aae147ae147bp+6%float 0.5%float 0 1 "chr3" 20 true).
Proof. split_and!; vm_compute; reflexivity. Qed.

Lemma C3_worked_scenario_witness :
  (∀ v, nident 100%float 20 v = (v, inr 20%float))
  ∧ classify 20 hit_perfect = Counted "chr1" (Some 1%float) true
  ∧ raw_specificity_score (fadd (fconst 0) 1%float) = Some 0.5%float
  ∧ formula_score (fadd (fconst 0) 1%float) = Some 50%float
  ∧ ∃ r others,
      calculate_probe_score probes_P1 "P1" ([] ++ hit_perfect :: []) = Some r
      ∧ probe_id r = "P1" ∧ score r = 50%float ∧ raw_non_specificity r = 1%float
      ∧ perfect_matches r = 1 ∧ total_hits r = 1
      ∧ probe_length r = 20 ∧ in_fasta r = true
      ∧ matched_chromosomes r = join_sorted (others ∪ {["chr1"]})
      ∧ (([] : list string) = [] → ([] : list string) = [] →
           others = ∅ ∧ matched_chromosomes r = "chr1").
Proof.
  apply (C3_worked_scenario Decimal.float64_of_str Decimal.int_of_str
           probes_P1 "P1" "ACGTACGTACGTACGTACGT" [] [] hit_perfect "chr1" "100.000" "20" "0");
    first [reflexivity | by constructor | vm_compute; lia].
Defined.

(** The scenario, run. *)
Lemma worked_scenario_run :
  calculate_probe_score probes_P1 "P1" [hit_perfect]
  = Some (ScoreRecord "P1" 50%float 1%float 1 1 "chr1" 20 true).
Proof. vm_compute. reflexivity. Qed.

(** C4, as stated, fails: a probe that is absent from the universe and has no
    hit has [total_hits = 0], and its score is 30.0, not 100.0. *)
Lemma C4_absent_probe_without_hits :
  probes_P1 !! "P9" = None
  ∧ ∃ r, calculate_probe_score probes_P1 "P9" [] = Some r
      ∧ total_hits r = 0
      ∧ score r = 30%float
      ∧ PrimFloat.eqb (score r) 100%float = false.
Proof. split; [reflexivity|]. eexists. split_and!; vm_compute; reflexivity. Qed.

Lemma C4_score_overrides_witness :
  (∃ r, calculate_probe_score probes_P1 "P1" [hit_bad_pident] = Some r
      ∧ total_hits r = 0 ∧ score r = 100%float)
  ∧ (∃ r, calculate_probe_score probes_P1 "P9" [hit_perfect; hit_bad_pident] = Some r
      ∧ probe_length r = 0 ∧ in_fasta r = false
      ∧ raw_non_specificity r = 0%float
      ∧ total_hits r = 1
      ∧ score r = 30%float ∧ PrimFloat.leb (score r) 30%float = true).
Proof.
  split.
  - destruct (C4_score_overrides Decimal.float64_of_str Decimal.int_of_str
                probes_P1 "P1" [hit_bad_pident]) as [Hzero _].
    eexists. split; [vm_compute; reflexivity|].
    split; [reflexivity|]. apply Hzero; vm_compute; reflexivity.
  - destruct (C4_score_overrides Decimal.float64_of_str Decimal.int_of_str
                probes_P1 "P9" [hit_perfect; hit_bad_pident]) as [_ Habsent].
    destruct (Habsent eq_refl) as [Hrec _].
    eexists. split; [vm_compute; reflexivity|]. apply Hrec. vm_compute; reflexivity.
Defined.

(** C6, as stated, fails: with an empty universe and no source the union of
    the hit-id sets equals the universe, and the coverage ratio is 0, not
    100. *)
Lemma C6_empty_universe_ratio_zero :
  ⋃ (dom <$> ([] : list (string * gmap string (list string))).*2)
    = dom (∅ : gmap string string)
  ∧ ∃ st, Coverage.analyze_coverage ∅ [] = inr st
      ∧ Coverage.coverage_ratio st = 0%float
      ∧ PrimFloat.eqb (Coverage.coverage_ratio st) 100%float = false.
Proof.
  split; [by rewrite dom_empty_L|].
  eexists. split_and!; vm_compute; reflexivity.
Qed.



End Binary64Runs.

(** ** Runs of the ranking and of the fallback on binary64 *)

Section Binary64Samples.
Import Scorer.
#[local] Existing Instance binary64.


Lemma fallback_is_a_highest_scoring_probe_witness :
  ∃ hq fallback,
    extract_high_quality_probes probes_P123 scores_two None = inr (hq, fallback)
    ∧ (fallback = false →
         ∀ p, p ∈ dom hq ↔
           ∃ r, r ∈ scores_two ∧ probe_id r = p
             ∧ fleb (score_threshold None) (score r) = true ∧ in_fasta r = true)
    ∧ (fallback = true →
         ∃ best, best ∈ scores_two ∧ in_fasta best = true
           ∧ dom hq = {[probe_id best]}
           ∧ (∀ r, r ∈ scores_two → in_fasta r = true → fleb (score r) (score best) = true)
           ∧ fltb (score best) (score_threshold None) = true).
Proof.
  apply (fallback_is_a_highest_scoring_probe Decimal.float64_of_str Decimal.int_of_str
           probes_P123 scores_two None).
  - intros r Hr _. unfold scores_two in Hr.
    repeat (apply elem_of_cons in Hr as [->|Hr]); [..|by apply elem_of_nil in Hr];
      by vm_compute; eauto.
  - intros r Hr _. unfold scores_two in Hr.
    repeat (apply elem_of_cons in Hr as [->|Hr]); [..|by apply elem_of_nil in Hr];
      by vm_compute.
  - by vm_compute.
Defined.

Lemma counts_do_not_depend_on_hit_order_witness :
  ∃ r r',
    calculate_probe_score probes_P1 "P1" [hit_perfect; hit_bad_mismatch] = Some r
    ∧ calculate_probe_score probes_P1 "P1" [hit_bad_mismatch; hit_perfect] = Some r'
    ∧ probe_id r' = probe_id r
    ∧ total_hits r' = total_hits r
    ∧ perfect_matches r' = perfect_matches r
    ∧ matched_chromosomes r' = matched_chromosomes r
    ∧ probe_length r' = probe_length r
    ∧ in_fasta r' = in_fasta r.
Proof.
  eexists _, _. split; [vm_compute; reflexivity|]. split; [vm_compute; reflexivity|].
  apply (counts_do_not_depend_on_hit_order (N:=binary64) probes_P1 "P1"
           [hit_perfect; hit_bad_mismatch] [hit_bad_mismatch; hit_perfect]).
  - apply perm_swap.
  - vm_compute. reflexivity.
  - vm_compute. reflexivity.
Defined.

End Binary64Samples.

(** ** Runs of the loaders, the files and the mapper *)

Section SampleRuns.
Import Utils Scorer ScorerIO Mapper MapperRun.
#[local] Existing Instance exactQ.

(** The elements of a given list are distinct. *)
Ltac distinct :=
  cbn [fmap list_fmap fst];
  repeat (apply NoDup_cons_2;
          [let H := fresh in
           intros H;
           repeat (apply elem_of_cons in H as [H|H]; [discriminate H|]);
           by apply elem_of_nil in H|]);
  apply NoDup_nil_2.

Lemma load_blast_results_run :
  load_blast_results [Some blast_file_A; None; Some blast_file_B]
  = [("P1", [hit_perfect; hit_bad_pident]); ("P2", [hit_P2])].
Proof. by vm_compute. Qed.

Lemma scores_one_record_per_probe_witness :
  ∃ scores,
    calculate_all_scores probes_P123
      (load_blast_results [Some blast_file_A; None; Some blast_file_B]) 1 [1; 0]
      (λ _, false) = inr scores
    ∧ NoDup (probe_id <$> scores).
Proof.
  eexists. split; [by vm_compute|].
  apply (scores_one_record_per_probe (N:=exactQ) probes_P123
           [Some blast_file_A; None; Some blast_file_B] 1 [1; 0] (λ _, false)).
  - distinct.
  - by vm_compute.
Defined.

Lemma score_record_counts_witness :
  ∃ r, r ∈ static_calculate_probes_batch probes_P123 blast_P123
    ∧ ∃ hits, (probe_id r, hits) ∈ blast_P123
        ∧ perfect_matches r ≤ total_hits r ≤ length hits
        ∧ (in_fasta r = false → probe_length r = 0).
Proof.
  assert (∃ r rest, static_calculate_probes_batch probes_P123 blast_P123 = r :: rest)
    as (r & rest & E) by (eexists _, _; by vm_compute).
  assert (r ∈ static_calculate_probes_batch probes_P123 blast_P123) as Hin
    by (rewrite E; left).
  exists r. split; [done|].
  apply (score_record_counts (N:=exactQ) probes_P123 blast_P123 r Hin).
Defined.

Lemma matched_targets_are_second_columns_witness :
  ∃ r, calculate_probe_score probes_P1 "P1"
         [hit_perfect; hit_bad_pident; blast_line ["P1"; "chr9"]; hit_perfect] = Some r
    ∧ matched_chromosomes r = "chr1,chr2".
Proof.
  eexists. split; [by vm_compute|].
  etrans.
  - apply (matched_targets_are_second_columns (N:=exactQ) probes_P1 "P1"
             [hit_perfect; hit_bad_pident; blast_line ["P1"; "chr9"]; hit_perfect]).
    by vm_compute.
  - by vm_compute.
Defined.

Lemma plain_probes_P123 id seq : probes_P123 !! id = Some seq → plain_record id seq.
Proof.
  unfold probes_P123. intros H.
  repeat (apply lookup_insert_Some in H as [[<- <-]|[_ H]]);
    [..|apply lookup_singleton_Some in H as [<- <-]];
    (split_and!; [done|by vm_compute..]).
Qed.

Lemma write_then_parse_fasta_witness :
  parse_fasta_manually ascii_upper
    (Some (write_fasta_file [("seq1", "acgtn"); ("seq2", ""); ("seq3", "GGcc")]))
  = [("seq1", "ACGTN"); ("seq2", ""); ("seq3", "GGCC")].
Proof.
  apply (write_then_parse_fasta ascii_upper
           [("seq1", "acgtn"); ("seq2", ""); ("seq3", "GGcc")]).
  - distinct.
  - intros id seq Hin.
    repeat (apply elem_of_cons in Hin as [[= -> ->]|Hin]);
      [..|by apply elem_of_nil in Hin]; (split_and!; [done|by vm_compute..]).
Defined.

Lemma selected_probes_in_ranking_order_witness :
  ∃ items,
    high_quality_items probes_P123 scores_P1_P2 (Some 20%Q) = inr (items, false)
    ∧ extract_high_quality_probes probes_P123 scores_P1_P2 (Some 20%Q)
      = inr (list_to_map items, false)
    ∧ (∀ id seq, (id, seq) ∈ items → probes_P123 !! id = Some seq)
    ∧ items.*1 = probe_id <$> filter (selected (score_threshold (Some 20%Q))) scores_P1_P2.
Proof.
  eexists. split; [by vm_compute|].
  apply (selected_probes_in_ranking_order (N:=exactQ) probes_P123 scores_P1_P2 (Some 20%Q) _ false).
  - distinct.
  - by vm_compute.
Defined.

Lemma high_quality_file_read_back_witness :
  ∃ text, high_quality_file (λ _, "40.0") probes_P123 scores_P1_P2 (Some 40%Q) = inr text
    ∧ parse_fasta_manually ascii_upper (Some text)
      = ("#", ascii_upper "") :: upper_values ascii_upper [("P1", "ACGTACGTACGTACGTACGT")].
Proof.
  apply (high_quality_file_read_back (N:=exactQ) ascii_upper (λ _, "40.0") probes_P123 scores_P1_P2
           (Some 40%Q) [("P1", "ACGTACGTACGTACGTACGT")] false).
  - by vm_compute.
  - by vm_compute.
  - apply plain_probes_P123.
  - by vm_compute.
Defined.

Lemma comment_record_reaches_mapper_witness :
  ∃ text st,
    high_quality_file (λ _, "40.0") probes_P123 scores_P1_P2 (Some 40%Q) = inr text
    ∧ map_probes_to_pav (parse_fasta_manually ascii_upper (Some text))
        (parse_fasta_manually ascii_upper (Some pav_text)) = Some st
    ∧ "#" ∈ unmapped_probes st
    ∧ mapped_probes (mapping_results st) + length (unmapped_probes st) = 2.
Proof.
  apply (comment_record_reaches_mapper (N:=exactQ) ascii_upper (λ _, "40.0") probes_P123 scores_P1_P2
           (Some 40%Q) [("P1", "ACGTACGTACGTACGTACGT")] false pav_text).
  - by vm_compute.
  - by vm_compute.
  - apply plain_probes_P123.
  - by vm_compute.
  - assert ((parse_fasta_manually ascii_upper (Some pav_text)).*1 = ["1_qLA2-1"]) as ->
      by (by vm_compute).
    by intros ?%list_elem_of_singleton.
Defined.

Lemma mapped_and_unmapped_add_up_witness :
  ∃ st, map_probes_to_pav
          [("1_qLA2-1_upstream_1_pos0", "ACGT"); ("chrX_p", "A"); ("foo", "A")]
          [("chr", "A"); ("chrX", "C")] = Some st
    ∧ mapped_probes (mapping_results st) + length (unmapped_probes st) = 3.
Proof.
  eexists. split; [reflexivity|].
  by apply (mapped_and_unmapped_add_up
              [("1_qLA2-1_upstream_1_pos0", "ACGT"); ("chrX_p", "A"); ("foo", "A")]
              [("chr", "A"); ("chrX", "C")]).
Defined.

Lemma coverage_run_counts_data_line_ids_witness :
  ∃ st, Coverage.run probes_P1
          [("data/a.txt", Some blast_file_A); ("data/b.txt", Some blast_file_B)] = inr st
    ∧ Forall2 (λ fs '(file_path, content),
          Coverage.file_name fs = Coverage.basename file_path
          ∧ Coverage.total_probes fs = size (blast_ids content)
          ∧ Coverage.found_in_fasta fs = size (blast_ids content ∩ dom probes_P1)
          ∧ Coverage.found_in_fasta fs + Coverage.not_found_in_fasta fs
            = Coverage.total_probes fs)
        (Coverage.file_stats st)
        [("data/a.txt", Some blast_file_A); ("data/b.txt", Some blast_file_B)].
Proof.
  eexists. split; [by vm_compute|].
  apply (coverage_run_counts_data_line_ids (N:=exactQ) probes_P1
           [("data/a.txt", Some blast_file_A); ("data/b.txt", Some blast_file_B)]).
  - distinct.
  - by vm_compute.
Defined.

Lemma ranking_holds_every_scored_probe_witness :
  ∃ bs scores,
    batches 2 blast_P123 = inr bs
    ∧ calculate_all_scores probes_P123 blast_P123 2 [1; 0] (λ _, false) = inr scores
    ∧ (([1; 0] : list nat) ≡ₚ seq 0 (length bs) →
       (∀ batch_idx, batch_idx < length bs → (λ _ : nat, false) batch_idx = false) →
       scores ≡ₚ omap (λ item, calculate_probe_score probes_P123 item.1 item.2) blast_P123).
Proof.
  apply (ranking_holds_every_scored_probe (N:=exactQ) probes_P123 blast_P123 2 [1; 0]
           (λ _, false)).
  lia.
Defined.

Lemma scoring_then_extraction_finds_sequences_witness :
  ∃ scores,
    calculate_all_scores probes_P123 blast_P123 2 [1; 0] (λ _, false) = inr scores
    ∧ ∃ hq fallback,
        extract_high_quality_probes probes_P123 scores (Some 40%Q) = inr (hq, fallback)
        ∧ hq ⊆ probes_P123
        ∧ (hq = ∅ ↔ ∀ r, r ∈ scores → in_fasta r = false).
Proof.
  eexists. split; [by vm_compute|].
  apply (scoring_then_extraction_finds_sequences (N:=exactQ) probes_P123 blast_P123 2 [1; 0]
           (λ _, false) _ (Some 40%Q)).
  by vm_compute.
Defined.

Lemma parse_fasta_manually_reads_records_witness :
  parse_fasta_manually ascii_upper
    (Some (text_of_lines (fasta_lines
       [("1_qLA2-1", Some "first region", ["acgt"; ""; "ttga"]); ("seq2", None, [])])))
  = [("1_qLA2-1", "ACGTTTGA"); ("seq2", "")].
Proof.
  etrans.
  - apply (parse_fasta_manually_reads_records ascii_upper
             [("1_qLA2-1", Some "first region", ["acgt"; ""; "ttga"]); ("seq2", None, [])]).
    + distinct.
    + intros id description lines Hin.
      repeat (apply elem_of_cons in Hin as [[= -> -> ->]|Hin]);
        [..|by apply elem_of_nil in Hin].
      * split_and!; [done|by vm_compute|by intros d [= <-]|].
        repeat (constructor; [by vm_compute|]). constructor.
      * split_and!; [done|by vm_compute|done|constructor].
  - by vm_compute.
Defined.


End SampleRuns.
